(** * unpack_firmware.py: the recursive extraction engine

    A shallow embedding of [src/python/unpack_firmware.py]: the format
    classifier and the per-format extraction dispatch
    ([extract_nested_archives]), the depth-bounded walk
    ([recursive_extract]), the clean-up of the output directory
    ([cleanup_output_dir]) and the driver with its executable scan
    ([unpack_firmware]).

    The directory tree is a finite map from paths to nodes; the console and
    the calls that leave the process are recorded in an event log; the
    external programs ([file], [unsquashfs], [sasquatch], [jefferson],
    [cpio], [binwalk]) and the library decoders ([gzip], [tarfile]) are
    fields of an environment record, so that every statement below holds
    whatever these programs do.

    In the environment [file -b] only reads, and a run always gives back
    a completed process. The dispatch is embedded a second time, in
    [Gen], over a [World] where every run, the one of [file -b] too, may
    change the tree and may raise; the statements on one call of
    [extract_nested_archives] that depend on either are made there. *)

From Stdlib Require Import ZArith Ascii String.
From stdpp Require Import gmap strings list fin_maps pretty.

Local Open Scope Z_scope.
Local Open Scope nat_scope.

(** ** Strings, as Python's [str] restricted to bytes *)

Module Str.

(** [x in s] *)
Fixpoint contains (x s : string) : bool :=
  String.prefix x s ||
  match s with
  | EmptyString => false
  | String _ s' => contains x s'
  end.

(** [any(x in s for x in xs)] *)
Definition any_in (xs : list string) (s : string) : bool :=
  existsb (fun x => contains x s) xs.

Definition lower_ascii (c : ascii) : ascii :=
  let n := nat_of_ascii c in
  if (65 <=? n) && (n <=? 90) then ascii_of_nat (n + 32) else c.

(** [s.lower()], on the ASCII letters *)
Fixpoint lower (s : string) : string :=
  match s with
  | EmptyString => EmptyString
  | String c s' => String (lower_ascii c) (lower s')
  end.

Fixpoint take (n : nat) (s : string) : string :=
  match n, s with
  | S n', String c s' => String c (take n' s')
  | _, _ => EmptyString
  end.

Fixpoint drop (n : nat) (s : string) : string :=
  match n, s with
  | S n', String _ s' => drop n' s'
  | _, _ => s
  end.

(** [s.startswith(x)] *)
Definition startswith (s x : string) : bool := String.prefix x s.

(** [s.endswith(x)] *)
Definition endswith (s x : string) : bool :=
  String.eqb (drop (String.length s - String.length x) s) x
  && (String.length x <=? String.length s).

(** [s.rfind(c)]: the index of the last [c], or [-1] *)
Fixpoint rfind (c : ascii) (s : string) : Z :=
  match s with
  | EmptyString => (-1)%Z
  | String a s' =>
      let i := rfind c s' in
      if (0 <=? i)%Z then (i + 1)%Z
      else if Ascii.eqb a c then 0%Z else (-1)%Z
  end.

Definition len (s : string) : Z := Z.of_nat (String.length s).

(** [c.isspace()] on bytes *)
Definition is_space (c : ascii) : bool :=
  let n := nat_of_ascii c in
  ((9 <=? n) && (n <=? 13)) || ((28 <=? n) && (n <=? 32)).

Fixpoint lstrip (s : string) : string :=
  match s with
  | String c s' => if is_space c then lstrip s' else s
  | EmptyString => EmptyString
  end.

Fixpoint rstrip (s : string) : string :=
  match s with
  | String c s' =>
      match rstrip s' with
      | EmptyString => if is_space c then EmptyString else String c EmptyString
      | r => String c r
      end
  | EmptyString => EmptyString
  end.

(** [s.strip()] *)
Definition strip (s : string) : string := rstrip (lstrip s).

(** [sep.join(parts)] *)
Fixpoint join (sep : string) (parts : list string) : string :=
  match parts with
  | [] => EmptyString
  | [p] => p
  | p :: ps => p +:+ sep +:+ join sep ps
  end.

End Str.

(** ** Paths, as [pathlib.PurePosixPath] of an absolute path

    A path is the list of its components below the root; the driver resolves
    both of its arguments before it uses them. *)

Abbreviation Path := (list string).

Module PathOps.

(** [str(p)] *)
Definition str (p : Path) : string := "/" +:+ Str.join "/" p.

(** [p.name] *)
Definition name (p : Path) : string := List.last p EmptyString.

(** [p.parent] *)
Definition parent (p : Path) : Path := removelast p.

(** [p / c] for a single component [c] *)
Definition div (p : Path) (c : string) : Path := p ++ [c].

(** [p.suffix]:
    [i = name.rfind('.'); name[i:] if 0 < i < len(name) - 1 else ''] *)
Definition suffix (p : Path) : string :=
  let nm := name p in
  let i := Str.rfind "."%char nm in
  if (0 <? i)%Z && (i <? Str.len nm - 1)%Z then Str.drop (Z.to_nat i) nm
  else EmptyString.

(** [p.stem]:
    [i = name.rfind('.'); name[:i] if 0 < i < len(name) - 1 else name] *)
Definition stem (p : Path) : string :=
  let nm := name p in
  let i := Str.rfind "."%char nm in
  if (0 <? i)%Z && (i <? Str.len nm - 1)%Z then Str.take (Z.to_nat i) nm
  else nm.

(** [p.with_suffix('')]: [None] stands for the [ValueError] raised on a
    path with an empty name. *)
Definition with_suffix_empty (p : Path) : option Path :=
  let nm := name p in
  if String.eqb nm EmptyString then None
  else
    let old_suffix := suffix p in
    let nm' :=
      if String.eqb old_suffix EmptyString then nm
      else Str.take (String.length nm - String.length old_suffix) nm in
    Some (removelast p ++ [nm']).

End PathOps.

(** ** The directory tree

    Nodes are keyed by their path. A symbolic link is followed when it is
    the last component of a name. Ownership and permission bits are not
    part of the tree: the one test on them, [os.access], is a field of the
    environment below. *)

Inductive Node : Type :=
| File (content : string)
| Dir
| Symlink (target : Path).

Abbreviation FS := (gmap Path Node).

(** The exceptions the program meets. [Failure cls text] is an exception
    of another class [cls] below [Exception], [text] being what [str]
    makes of it. *)
Inductive Exn : Type :=
| FileExistsError
| FileNotFoundError
| IsADirectoryError
| NotADirectoryError
| OSError
| ValueError
| BadGzipFile
| ReadError
| Failure (cls : string) (text : string)
| SystemExit (code : Z).

Module Fs.

(** [os.lstat]: the node a path names, the root being a directory. *)
Definition node_at (fs : FS) (p : Path) : option Node :=
  match p with
  | [] => Some Dir
  | _ => fs !! p
  end.

(** The path a name stands for once the symbolic links at its end are
    followed; Linux gives up ([ELOOP]) after 40 of them. *)
Fixpoint resolve (hops : nat) (fs : FS) (p : Path) : option Path :=
  match node_at fs p with
  | Some (Symlink t) =>
      match hops with
      | 0 => None
      | S h => resolve h fs t
      end
  | _ => Some p
  end.

Definition max_hops : nat := 40.

(** [os.stat] *)
Definition stat (fs : FS) (p : Path) : option Node :=
  match resolve max_hops fs p with
  | Some q => node_at fs q
  | None => None
  end.

(** [p.is_file()] *)
Definition is_file (fs : FS) (p : Path) : bool :=
  match stat fs p with Some (File _) => true | _ => false end.

(** [p.is_dir()] *)
Definition is_dir (fs : FS) (p : Path) : bool :=
  match stat fs p with Some Dir => true | _ => false end.

(** [p.exists()] *)
Definition exists_ (fs : FS) (p : Path) : bool :=
  match stat fs p with Some _ => true | None => false end.

(** [p.is_symlink()] *)
Definition is_symlink (fs : FS) (p : Path) : bool :=
  match node_at fs p with Some (Symlink _) => true | _ => false end.

(** [p.mkdir(exist_ok=True)]: [os.mkdir], whose failure on an existing
    name is forgiven when the name is a directory. *)
Definition mkdir_exist_ok (fs : FS) (p : Path) : Exn + FS :=
  match node_at fs p with
  | Some _ => if is_dir fs p then inr fs else inl FileExistsError
  | None =>
      match stat fs (PathOps.parent p) with
      | Some Dir => inr (<[p := Dir]> fs)
      | Some _ => inl NotADirectoryError
      | None => inl FileNotFoundError
      end
  end.

(** [p.mkdir(parents=True, exist_ok=True)]: the missing ancestors are
    made from the root down, [todo] being the components still to go. *)
Fixpoint mkdir_parents_from (done_ : Path) (todo : list string) (fs : FS)
  : Exn + FS :=
  match todo with
  | [] => inr fs
  | c :: todo' =>
      let p := done_ ++ [c] in
      match node_at fs p with
      | Some _ =>
          if is_dir fs p then mkdir_parents_from p todo' fs
          else inl (match todo' with [] => FileExistsError | _ => NotADirectoryError end)
      | None => mkdir_parents_from p todo' (<[p := Dir]> fs)
      end
  end.

Definition mkdir_parents (fs : FS) (p : Path) : Exn + FS :=
  mkdir_parents_from [] p fs.

(** The names [.] and [..] stand for a directory, whatever the tree
    holds under them. *)
Definition dot_name (p : Path) : bool :=
  String.eqb (PathOps.name p) "." || String.eqb (PathOps.name p) "..".

(** What [open] raises on such a name. *)
Definition open_dot (fs : FS) (q : Path) : Exn :=
  match stat fs (PathOps.parent q) with
  | Some Dir => IsADirectoryError
  | Some _ => NotADirectoryError
  | None => FileNotFoundError
  end.

(** [open(p, 'rb')]: the file that is opened, by its resolved path. *)
Definition open_rb (fs : FS) (p : Path) : Exn + Path :=
  match resolve max_hops fs p with
  | None => inl OSError
  | Some q =>
      if dot_name q then inl (open_dot fs q)
      else
        match node_at fs q with
        | Some (File _) => inr q
        | Some _ => inl IsADirectoryError
        | None => inl FileNotFoundError
        end
  end.

(** [open(p, 'wb')] and [open(p, 'w')]: the file is created or emptied;
    the result is its resolved path and the tree after that. *)
Definition open_wb (fs : FS) (p : Path) : Exn + (Path * FS) :=
  match resolve max_hops fs p with
  | None => inl OSError
  | Some q =>
      if dot_name q then inl (open_dot fs q)
      else
        match node_at fs q with
        | Some (File _) => inr (q, <[q := File EmptyString]> fs)
        | Some _ => inl IsADirectoryError
        | None =>
            match stat fs (PathOps.parent q) with
            | Some Dir => inr (q, <[q := File EmptyString]> fs)
            | Some _ => inl NotADirectoryError
            | None => inl FileNotFoundError
            end
        end
  end.

(** What an open file holds when it is read. *)
Definition content_at (fs : FS) (q : Path) : string :=
  match fs !! q with
  | Some (File c) => c
  | _ => EmptyString
  end.

(** [p.unlink()] *)
Definition unlink (fs : FS) (p : Path) : Exn + FS :=
  match fs !! p with
  | Some Dir => inl IsADirectoryError
  | Some _ => inr (delete p fs)
  | None => inl FileNotFoundError
  end.

(** [shutil.rmtree(p)] on a directory: the directory goes with all that
    is below it. *)
Definition rmtree (fs : FS) (p : Path) : Exn + FS :=
  match fs !! p with
  | Some Dir => inr (filter (fun kv => ¬ p `prefix_of` kv.1) fs)
  | Some (Symlink _) => inl OSError
  | Some (File _) => inl NotADirectoryError
  | None => inl FileNotFoundError
  end.

Definition paths (fs : FS) : list Path := (map_to_list fs).*1.

(** [list(d.iterdir())]: the entries of the directory [d]. *)
Definition iterdir (fs : FS) (d : Path) : list Path :=
  filter (fun p => p ≠ [] ∧ PathOps.parent p = d) (paths fs).

(** [list(d.rglob("*"))] on a tree that does not change meanwhile:
    everything below [d]; nothing when [d] is not a directory. *)
Definition rglob (fs : FS) (d : Path) : list Path :=
  if is_dir fs d
  then filter (fun p => d `prefix_of` p ∧ p ≠ d) (paths fs)
  else [].

(** [list(d.glob("_*"))] and [list(d.glob("*.extracted"))] *)
Definition glob_prefix (fs : FS) (d : Path) (pre : string) : list Path :=
  List.filter (fun p => Str.startswith (PathOps.name p) pre) (iterdir fs d).

Definition glob_suffix (fs : FS) (d : Path) (suf : string) : list Path :=
  List.filter (fun p => Str.endswith (PathOps.name p) suf) (iterdir fs d).

End Fs.

(** ** The world outside the process *)

(** [subprocess.CompletedProcess] *)
Record CmdResult : Type := {
  returncode : Z;
  stdout : string;
  stderr : string
}.

(** What reading a gzip stream to its end gives: the payload, or the bytes
    decoded before the decoder raised. *)
Inductive GzRead : Type :=
| GzOk (payload : string)
| GzErr (partial : string) (e : Exn).

(** The programs and decoders the source calls and does not define.
    [inspect] is [file -b]: it reads the tree and leaves it as it is.
    [shell] runs any other command line and may change the tree in any way.
    [walk_start] and [walk_next] are the generator behind
    [directory.rglob("*")]: each step sees the tree as it is when the step
    is taken. *)
Record Env : Type := {
  inspect : FS -> Path -> CmdResult;
  shell : string -> option Path -> FS -> CmdResult * FS;
  which : FS -> string -> bool;
  gunzip : string -> GzRead;
  tar_extractall : Path -> Path -> FS -> option Exn * FS;
  access_x : FS -> Path -> bool;
  cwd : Path;
  Walker : Type;
  walk_start : FS -> Path -> Walker;
  walk_next : FS -> Walker -> option (Path * Walker)
}.

(** A command line handed to [run_cmd]. *)
Inductive Cmd : Type :=
| FileB (p : Path)
| Tool (line : string).

Definition cmd_line (c : Cmd) : string :=
  match c with
  | FileB p => "file -b '" +:+ PathOps.str p +:+ "'"
  | Tool line => line
  end.

(** ** Effects: the tree, the log, exceptions *)

(** What is recorded, in order: the lines printed, the look-ups of
    [shutil.which], the commands run, and the calls that change the tree.
    [Visit depth p] is no call of the program: the loop of
    [recursive_extract] records it when, at depth [depth], it is about to
    apply [extract_nested_archives] to [p]. *)
Inductive Event : Type :=
| Print (line : string)
| Which (tool : string)
| Run (cmd : Cmd) (cwd_ : option Path)
| Mkdir (p : Path)
| OpenRead (p : Path)
| OpenWrite (p : Path)
| Extractall (archive dest : Path)
| Unlink (p : Path)
| Rmtree (p : Path)
| Visit (depth : Z) (p : Path).

Record State : Type := {
  fs : FS;
  log : list Event
}.

(** How a computation ends: with a value, with an exception, or, for the
    two loops of the walk, by want of fuel. *)
Inductive Res (A : Type) : Type :=
| Ok (a : A)
| Raise (e : Exn)
| OutOfFuel.
Arguments Ok {A} a.
Arguments Raise {A} e.
Arguments OutOfFuel {A}.

Definition M (A : Type) : Type := State -> Res A * State.

#[global] Instance M_ret : MRet M := fun A a st => (Ok a, st).

#[global] Instance M_bind : MBind M := fun A B f m st =>
  match m st with
  | (Ok a, st') => f a st'
  | (Raise e, st') => (Raise e, st')
  | (OutOfFuel, st') => (OutOfFuel, st')
  end.

Definition raise {A} (e : Exn) : M A := fun st => (Raise e, st).

Definition out_of_fuel {A} : M A := fun st => (OutOfFuel, st).

Definition emit (e : Event) : M unit :=
  fun st => (Ok tt, {| fs := fs st; log := log st ++ [e] |}).

Definition print (line : string) : M unit := emit (Print line).

Definition get_fs : M FS := fun st => (Ok (fs st), st).

Definition put_fs (t : FS) : M unit :=
  fun st => (Ok tt, {| fs := t; log := log st |}).

(** A library call that either raises or gives back a value. *)
Definition lift {A} (r : Exn + A) : M A :=
  match r with
  | inl e => raise e
  | inr a => mret a
  end.

(** [try: body except Exception as e: handler(e)]; [SystemExit] is no
    [Exception] and goes through. *)
Definition try_except {A} (body : M A) (handler : Exn -> M A) : M A :=
  fun st =>
    match body st with
    | (Raise (SystemExit c), st') => (Raise (SystemExit c), st')
    | (Raise e, st') => handler e st'
    | r => r
    end.

(** The text of an exception in a message. *)
Definition exn_str (e : Exn) : string :=
  match e with
  | FileExistsError => "File exists"
  | FileNotFoundError => "No such file or directory"
  | IsADirectoryError => "Is a directory"
  | NotADirectoryError => "Not a directory"
  | OSError => "OSError"
  | ValueError => "has an empty name"
  | BadGzipFile => "Not a gzipped file"
  | ReadError => "file could not be opened successfully"
  | Failure _ text => text
  | SystemExit c => pretty c
  end.

Definition initial (t : FS) : State := {| fs := t; log := [] |}.

(** The format signature: the [if]/[elif] chain of
    [extract_nested_archives] over the lowered output of [file -b], the
    first test that holds deciding. *)
Inductive FormatSignature : Type :=
| Gzip | Tar | Squashfs | Jffs2 | Cpio | Unknown.

Definition signature_of (file_type : string) : FormatSignature :=
  if Str.any_in [".gz"; "gzip"] file_type then Gzip
  else if Str.any_in [".tar"; "tar archive"] file_type then Tar
  else if Str.contains "squashfs" file_type then Squashfs
  else if Str.contains "jffs2" file_type then Jffs2
  else if Str.contains "cpio" file_type then Cpio
  else Unknown.

(** What [recursive_extract] returns: a bare [return] gives [None]. *)
Inductive PyVal : Type :=
| PyNone
| PyBool (b : bool).

(** The names that mark extraction output. *)
Definition markers : list string :=
  ["_squashfs"; "_jffs2"; "_cpio"; ".extracted"].

(** [any(x in str(file_path) for x in markers)] *)
Definition has_marker (file_path : Path) : bool :=
  Str.any_in markers (PathOps.str file_path).

(** The indicators of the executable scan. *)
Definition is_executable_type (file_type : string) : bool :=
  Str.any_in ["elf"; "executable"; "script"; "shell"] file_type.

(** [for x in l: acc = body(acc, x)] *)
Fixpoint for_each {A B : Type} (body : B -> A -> M B) (l : list A) (acc : B)
  : M B :=
  match l with
  | [] => mret acc
  | x :: l' => acc' ← body acc x; for_each body l' acc'
  end.

(** The command lines of the squashfs branch:
    [f"unsquashfs -f -d '{subdir}' '{file_path}'"] and
    [f"sasquatch -d '{subdir}' '{file_path}'"]. *)
Definition unsquashfs_line (subdir file_path : Path) : string :=
  "unsquashfs -f -d '" +:+ PathOps.str subdir +:+ "' '" +:+ PathOps.str file_path +:+ "'".

Definition sasquatch_line (subdir file_path : Path) : string :=
  "sasquatch -d '" +:+ PathOps.str subdir +:+ "' '" +:+ PathOps.str file_path +:+ "'".

(** [f"cd '{subdir}' && cpio -idm < '{file_path}' 2>/dev/null"] *)
Definition cpio_line (subdir file_path : Path) : string :=
  "cd '" +:+ PathOps.str subdir +:+ "' && cpio -idm < '" +:+ PathOps.str file_path +:+ "' 2>/dev/null".

(** [f"jefferson -d '{subdir}' '{file_path}'"] *)
Definition jefferson_line (subdir file_path : Path) : string :=
  "jefferson -d '" +:+ PathOps.str subdir +:+ "' '" +:+ PathOps.str file_path +:+ "'".

(** ** The program *)

Section Program.

Variable env : Env.

(** [subprocess.run(cmd, shell=True, capture_output=True, text=True,
    cwd=cwd)] *)
Definition subprocess_run (cmd : Cmd) (cwd_ : option Path) : M CmdResult :=
  emit (Run cmd cwd_);;
  t ← get_fs;
  match cmd with
  | FileB p => mret (inspect env t p)
  | Tool line =>
      let '(res, t') := shell env line cwd_ t in
      put_fs t';; mret res
  end.

(** [run_cmd]: [None] when [check_error] is set and the command failed. *)
Definition run_cmd (cmd : Cmd) (check_error : bool) (cwd_ : option Path)
  : M (option CmdResult) :=
  print ("[CMD] " +:+ cmd_line cmd);;
  res ← subprocess_run cmd cwd_;
  if check_error && negb (returncode res =? 0)%Z then
    print ("[ERROR] Command failed with return code " +:+ pretty (returncode res));;
    print ("[ERROR] " +:+ Str.strip (stderr res));;
    mret None
  else mret (Some res).

(** [check_tool_available] *)
Definition check_tool_available (tool : string) : M bool :=
  emit (Which tool);;
  t ← get_fs;
  if negb (which env t tool) then
    print ("[ERROR] Required tool '" +:+ tool +:+ "' is not available. Please install it.");;
    mret false
  else mret true.

(** [result and result.returncode == 0] *)
Definition succeeded (result : option CmdResult) : bool :=
  match result with
  | Some r => (returncode r =? 0)%Z
  | None => false
  end.

(** The body of the [try] of the gzip branch: the source is opened, the
    output name computed, the output created or emptied, and the decoded
    stream copied into it; the source is read only then. *)
Definition gzip_body (file_path : Path) : M Path :=
  emit (OpenRead file_path);;
  t ← get_fs;
  f_in ← lift (Fs.open_rb t file_path);
  output_name ← match PathOps.with_suffix_empty file_path with
                | Some q => mret q
                | None => raise ValueError
                end;
  emit (OpenWrite output_name);;
  '(f_out, t1) ← lift (Fs.open_wb t output_name);
  put_fs t1;;
  match gunzip env (Fs.content_at t1 f_in) with
  | GzOk payload =>
      put_fs (<[f_out := File payload]> t1);;
      mret output_name
  | GzErr partial e =>
      put_fs (<[f_out := File partial]> t1);;
      raise e
  end.

(** The body of the [try] of the tar branch. *)
Definition tar_body (file_path extract_dir : Path) : M Path :=
  emit (Extractall file_path extract_dir);;
  t ← get_fs;
  let '(err, t') := tar_extractall env file_path extract_dir t in
  put_fs t';;
  match err with
  | Some e => raise e
  | None => mret extract_dir
  end.

(** [subdir.mkdir(exist_ok=True)] *)
Definition mkdir (p : Path) : M unit :=
  emit (Mkdir p);;
  t ← get_fs;
  t' ← lift (Fs.mkdir_exist_ok t p);
  put_fs t'.

(** The loop [for tool in ['unsquashfs', 'sasquatch']] of the squashfs
    branch; [Some subdir] is the [return subdir] inside the loop. *)
Fixpoint squashfs_tools (tools : list string) (subdir file_path : Path)
  : M (option Path) :=
  match tools return M (option Path) with
  | [] => mret None
  | tool :: rest =>
      avail ← check_tool_available tool;
      if (avail : bool) then
        let cmd :=
          if String.eqb tool "unsquashfs"
          then unsquashfs_line subdir file_path
          else sasquatch_line subdir file_path in
        result ← run_cmd (Tool cmd) false None;
        if succeeded result then
          print ("[INFO] Successfully extracted with " +:+ tool);;
          mret (Some subdir)
        else
          print ("[WARN] " +:+ tool +:+ " failed, trying next method");;
          squashfs_tools rest subdir file_path
      else squashfs_tools rest subdir file_path
  end.

(** The signature of a file: [Unknown] when the inspection fails. *)
Definition classify (t : FS) (file_path : Path) : FormatSignature :=
  let r := inspect env t file_path in
  if (returncode r =? 0)%Z then signature_of (Str.lower (stdout r)) else Unknown.

(** The branches of the [if]/[elif] chain of [extract_nested_archives],
    one per signature: [Some p] is [return p] inside the branch, [None]
    is falling out of it, to the final [return None]. *)
Definition dispatch (signature : FormatSignature) (file_path extract_dir : Path)
  : M (option Path) :=
  match signature with
  | Gzip =>
      print ("[INFO] Extracting gzip: " +:+ PathOps.str file_path);;
      try_except
        (output_name ← gzip_body file_path; mret (Some output_name))
        (fun e => print ("[WARN] Failed to extract gzip: " +:+ exn_str e);;
                  mret None)
  | Tar =>
      print ("[INFO] Extracting tar: " +:+ PathOps.str file_path);;
      try_except
        (d ← tar_body file_path extract_dir; mret (Some d))
        (fun e => print ("[WARN] Failed to extract tar: " +:+ exn_str e);;
                  mret None)
  | Squashfs =>
      print ("[INFO] Found squashfs: " +:+ PathOps.str file_path);;
      let subdir := PathOps.div extract_dir (PathOps.stem file_path +:+ "_squashfs") in
      mkdir subdir;;
      r ← squashfs_tools ["unsquashfs"; "sasquatch"] subdir file_path;
      match r with
      | Some d => mret (Some d)
      | None =>
          print ("[WARN] Could not extract squashfs file: " +:+ PathOps.str file_path);;
          mret None
      end
  | Jffs2 =>
      print ("[INFO] Found jffs2: " +:+ PathOps.str file_path);;
      let subdir := PathOps.div extract_dir (PathOps.stem file_path +:+ "_jffs2") in
      mkdir subdir;;
      avail ← check_tool_available "jefferson";
      if (avail : bool) then
        let cmd := jefferson_line subdir file_path in
        result ← run_cmd (Tool cmd) false None;
        if succeeded result then mret (Some subdir) else mret None
      else
        print "[WARN] jefferson not available for jffs2 extraction";;
        mret None
  | Cpio =>
      print ("[INFO] Found cpio: " +:+ PathOps.str file_path);;
      let subdir := PathOps.div extract_dir (PathOps.stem file_path +:+ "_cpio") in
      mkdir subdir;;
      let cmd := cpio_line subdir file_path in
      result ← run_cmd (Tool cmd) false None;
      if succeeded result then mret (Some subdir) else mret None
  | Unknown => mret None
  end.

(** [extract_nested_archives(file_path, extract_dir)] *)
Definition extract_nested_archives (file_path extract_dir : Path)
  : M (option Path) :=
  print ("[INFO] Checking for nested archives in: " +:+ PathOps.str file_path);;
  file_cmd ← run_cmd (FileB file_path) false None;
  if succeeded file_cmd then
    let file_type := Str.lower (from_option stdout EmptyString file_cmd) in
    print ("[INFO] File type: " +:+ file_type);;
    dispatch (signature_of file_type) file_path extract_dir
  else mret None.

(** The loop [for file_path in directory.rglob("*")] of
    [recursive_extract]; [recurse] is the call on a new target. The
    event [Visit current_depth file_path] marks the point where the
    loop hands [file_path] to [extract_nested_archives]. *)
Fixpoint extract_loop (fuel : nat) (recurse : Path -> M PyVal)
    (current_depth : Z) (w : Walker env) (extracted_anything : bool)
  : M PyVal :=
  match fuel with
  | 0 => out_of_fuel
  | S fuel' =>
      t ← get_fs;
      match walk_next env t w with
      | None => mret (PyBool extracted_anything)
      | Some (file_path, w') =>
          if Fs.is_file t file_path then
            if has_marker file_path then
              extract_loop fuel' recurse current_depth w' extracted_anything
            else
              emit (Visit current_depth file_path);;
              result ← extract_nested_archives file_path (PathOps.parent file_path);
              match result with
              | Some target =>
                  recurse target;;
                  extract_loop fuel' recurse current_depth w' true
              | None =>
                  extract_loop fuel' recurse current_depth w' extracted_anything
              end
          else extract_loop fuel' recurse current_depth w' extracted_anything
      end
  end.

(** [recursive_extract(directory, max_depth, current_depth)] *)
Fixpoint recursive_extract (fuel : nat) (directory : Path)
    (max_depth current_depth : Z) : M PyVal :=
  if (max_depth <=? current_depth)%Z then mret PyNone
  else
    match fuel with
    | 0 => out_of_fuel
    | S fuel' =>
        t ← get_fs;
        extract_loop fuel'
          (fun target => recursive_extract fuel' target max_depth (current_depth + 1)%Z)
          current_depth (walk_start env t directory) false
    end.

(** [item.unlink()] and [shutil.rmtree(item)] *)
Definition unlink (p : Path) : M unit :=
  emit (Unlink p);;
  t ← get_fs;
  t' ← lift (Fs.unlink t p);
  put_fs t'.

Definition rmtree (p : Path) : M unit :=
  emit (Rmtree p);;
  t ← get_fs;
  t' ← lift (Fs.rmtree t p);
  put_fs t'.

(** The body of the loop of [cleanup_output_dir]. *)
Definition cleanup_item (_ : unit) (item : Path) : M unit :=
  t ← get_fs;
  if Fs.is_symlink t item
     || Str.endswith (PathOps.name item) ".rar"
     || Str.endswith (PathOps.name item) ".bin"
  then
    print ("[INFO] Removing conflicting file: " +:+ PathOps.str item);;
    if Fs.is_symlink t item then unlink item
    else if Fs.is_file t item then unlink item
    else rmtree item
  else mret tt.

(** [cleanup_output_dir]; [iterdir] lists the directory once, when the
    loop starts, and raises when there is no such directory. *)
Definition cleanup_output_dir (output_dir : Path) : M unit :=
  t ← get_fs;
  if Fs.is_dir t output_dir
  then for_each cleanup_item (Fs.iterdir t output_dir) tt
  else raise (if Fs.exists_ t output_dir then NotADirectoryError else FileNotFoundError).

(** The body of the inner loop of step 4 of [unpack_firmware]. *)
Definition scan_file (executables : list Path) (f : Path) : M (list Path) :=
  t ← get_fs;
  if Fs.is_file t f then
    if access_x env t f then
      file_cmd ← run_cmd (FileB f) false None;
      if succeeded file_cmd then
        let file_type := Str.lower (from_option stdout EmptyString file_cmd) in
        if is_executable_type file_type
        then mret (executables ++ [f])
        else mret executables
      else mret executables
    else mret executables
  else mret executables.

(** The body of the outer loop of step 4. *)
Definition scan_root (executables : list Path) (root_dir : Path)
  : M (list Path) :=
  t ← get_fs;
  if negb (Fs.exists_ t root_dir) then mret executables
  else for_each scan_file (Fs.rglob t root_dir) executables.

(** Step 4 of [unpack_firmware]: the executable scan. *)
Definition scan_executables (extracted_dirs : list Path) : M (list Path) :=
  for_each scan_root extracted_dirs [].

(** [with open(p, "w") as f: for e in executables: f.write(str(e) + "\n")] *)
Definition write_list (p : Path) (executables : list Path) : M unit :=
  emit (OpenWrite p);;
  t ← get_fs;
  '(f, t1) ← lift (Fs.open_wb t p);
  put_fs (<[f := File (String.concat "" (List.map (fun e => PathOps.str e +:+ String "010" "") executables))]> t1).

(** The body of the loop of step 3. *)
Definition extract_root (fuel : nat) (_ : unit) (root_dir : Path) : M unit :=
  print ("[INFO] Processing directory: " +:+ PathOps.str root_dir);;
  t ← get_fs;
  if Fs.exists_ t root_dir
  then recursive_extract fuel root_dir 5%Z 0%Z;; mret tt
  else mret tt.

(** Steps 1 to 4 of [unpack_firmware]: what follows the check for
    [binwalk]. *)
Definition unpack_steps (fuel : nat) (fw out : Path) : M Path :=
  print "[INFO] Running binwalk extraction...";;
  result ← run_cmd (Tool ("binwalk -eM '" +:+ PathOps.str fw +:+ "'")) false (Some out);
  (if negb (succeeded result)
   then print "[WARN] Binwalk extraction had issues, but continuing..."
   else mret tt);;
  t ← get_fs;
  let found := Fs.glob_prefix t out "_" ++ Fs.glob_suffix t out ".extracted" in
  extracted_dirs ←
    match found with
    | [] =>
        print "[WARN] No extracted directory found by binwalk.";;
        mret [out]
    | _ =>
        print ("[INFO] Found extracted directories: ["
               +:+ Str.join ", " (List.map (fun d => "'" +:+ PathOps.str d +:+ "'") found)
               +:+ "]");;
        mret found
    end;
  print "[INFO] Searching for nested file systems...";;
  for_each (extract_root fuel) extracted_dirs tt;;
  print "[INFO] Collecting executable files...";;
  executables ← scan_executables extracted_dirs;
  print ("[INFO] Found " +:+ pretty (length executables) +:+ " executable files.");;
  let list_file := PathOps.div out "executables.txt" in
  try_except
    (write_list list_file executables;;
     print ("[INFO] Executable list saved to " +:+ PathOps.str list_file))
    (fun e =>
       print ("[ERROR] Failed to write executable list: " +:+ exn_str e);;
       try_except
         (write_list (PathOps.div (cwd env) "executables.txt") executables;;
          print "[INFO] Executable list saved to ./executables.txt")
         (fun e2 =>
            print ("[ERROR] Completely failed to save executable list: " +:+ exn_str e2)));;
  print ("[INFO] Extraction completed in: " +:+ PathOps.str out);;
  mret list_file.

(** [unpack_firmware(fw_path, output_dir)], [fw] and [out] being the two
    arguments resolved; [sys.exit(1)] raises [SystemExit]. *)
Definition unpack_firmware (fuel : nat) (fw out : Path) : M Path :=
  print ("[INFO] Unpacking firmware: " +:+ PathOps.str fw);;
  print ("[INFO] Output directory: " +:+ PathOps.str out);;
  emit (Mkdir out);;
  t ← get_fs;
  t' ← lift (Fs.mkdir_parents t out);
  put_fs t';;
  cleanup_output_dir out;;
  avail ← check_tool_available "binwalk";
  if negb avail then raise (SystemExit 1)
  else unpack_steps fuel fw out.

End Program.

(** ** The last step of the driver *)

Section Saving.

Variable env : Env.

(** The end of [unpack_firmware], from the count of the executables on:
    the list goes to [executables.txt] in the output directory or, when
    that raises, to [executables.txt] in the working directory. *)
Definition save_list (out : Path) (executables : list Path) : M Path :=
  print ("[INFO] Found " +:+ pretty (length executables) +:+ " executable files.");;
  let list_file := PathOps.div out "executables.txt" in
  try_except
    (write_list list_file executables;;
     print ("[INFO] Executable list saved to " +:+ PathOps.str list_file))
    (fun e =>
       print ("[ERROR] Failed to write executable list: " +:+ exn_str e);;
       try_except
         (write_list (PathOps.div (cwd env) "executables.txt") executables;;
          print "[INFO] Executable list saved to ./executables.txt")
         (fun e2 =>
            print ("[ERROR] Completely failed to save executable list: " +:+ exn_str e2)));;
  print ("[INFO] Extraction completed in: " +:+ PathOps.str out);;
  mret list_file.

End Saving.

(** ** The dispatch when a run may do anything

    The program above has the runs of the external programs as a quiet
    world has them: [file -b] answers and leaves the tree alone, and the
    run of a tool always gives back a completed process.
    [subprocess.run(cmd, shell=True, text=True)] promises neither. The
    command line goes through the shell with the path between single
    quotes and not escaped, so that what a run does to the tree is up to
    the whole line, also for [file -b]; and the call raises, with
    [UnicodeDecodeError] when the output is not valid text, or with an
    [OSError] when the shell cannot be started. A [World] answers every
    run with the tree it leaves and with the completed process or the
    exception; [shutil.which], [gzip] and [tarfile] stay those of its
    [base]. [Gen] is [run_cmd] and [extract_nested_archives] once more,
    over such a world. *)

Record World : Type := {
  base : Env;
  run : Cmd -> option Path -> FS -> (Exn + CmdResult) * FS
}.

Module Gen.

Section Program.

Variable w : World.

(** [subprocess.run(cmd, shell=True, capture_output=True, text=True,
    cwd=cwd)] *)
Definition subprocess_run (cmd : Cmd) (cwd_ : option Path) : M CmdResult :=
  emit (Run cmd cwd_);;
  t ← get_fs;
  let '(outcome, t') := run w cmd cwd_ t in
  put_fs t';;
  lift outcome.

(** [run_cmd] *)
Definition run_cmd (cmd : Cmd) (check_error : bool) (cwd_ : option Path)
  : M (option CmdResult) :=
  print ("[CMD] " +:+ cmd_line cmd);;
  res ← subprocess_run cmd cwd_;
  if check_error && negb (returncode res =? 0)%Z then
    print ("[ERROR] Command failed with return code " +:+ pretty (returncode res));;
    print ("[ERROR] " +:+ Str.strip (stderr res));;
    mret None
  else mret (Some res).

(** The loop [for tool in ['unsquashfs', 'sasquatch']]. *)
Fixpoint squashfs_tools (tools : list string) (subdir file_path : Path)
  : M (option Path) :=
  match tools return M (option Path) with
  | [] => mret None
  | tool :: rest =>
      avail ← check_tool_available (base w) tool;
      if (avail : bool) then
        let cmd :=
          if String.eqb tool "unsquashfs"
          then unsquashfs_line subdir file_path
          else sasquatch_line subdir file_path in
        result ← run_cmd (Tool cmd) false None;
        if succeeded result then
          print ("[INFO] Successfully extracted with " +:+ tool);;
          mret (Some subdir)
        else
          print ("[WARN] " +:+ tool +:+ " failed, trying next method");;
          squashfs_tools rest subdir file_path
      else squashfs_tools rest subdir file_path
  end.

(** The branches of the [if]/[elif] chain, one per signature. *)
Definition dispatch (signature : FormatSignature) (file_path extract_dir : Path)
  : M (option Path) :=
  match signature with
  | Gzip =>
      print ("[INFO] Extracting gzip: " +:+ PathOps.str file_path);;
      try_except
        (output_name ← gzip_body (base w) file_path; mret (Some output_name))
        (fun e => print ("[WARN] Failed to extract gzip: " +:+ exn_str e);;
                  mret None)
  | Tar =>
      print ("[INFO] Extracting tar: " +:+ PathOps.str file_path);;
      try_except
        (d ← tar_body (base w) file_path extract_dir; mret (Some d))
        (fun e => print ("[WARN] Failed to extract tar: " +:+ exn_str e);;
                  mret None)
  | Squashfs =>
      print ("[INFO] Found squashfs: " +:+ PathOps.str file_path);;
      let subdir := PathOps.div extract_dir (PathOps.stem file_path +:+ "_squashfs") in
      mkdir subdir;;
      r ← squashfs_tools ["unsquashfs"; "sasquatch"] subdir file_path;
      match r with
      | Some d => mret (Some d)
      | None =>
          print ("[WARN] Could not extract squashfs file: " +:+ PathOps.str file_path);;
          mret None
      end
  | Jffs2 =>
      print ("[INFO] Found jffs2: " +:+ PathOps.str file_path);;
      let subdir := PathOps.div extract_dir (PathOps.stem file_path +:+ "_jffs2") in
      mkdir subdir;;
      avail ← check_tool_available (base w) "jefferson";
      if (avail : bool) then
        let cmd := jefferson_line subdir file_path in
        result ← run_cmd (Tool cmd) false None;
        if succeeded result then mret (Some subdir) else mret None
      else
        print "[WARN] jefferson not available for jffs2 extraction";;
        mret None
  | Cpio =>
      print ("[INFO] Found cpio: " +:+ PathOps.str file_path);;
      let subdir := PathOps.div extract_dir (PathOps.stem file_path +:+ "_cpio") in
      mkdir subdir;;
      let cmd := cpio_line subdir file_path in
      result ← run_cmd (Tool cmd) false None;
      if succeeded result then mret (Some subdir) else mret None
  | Unknown => mret None
  end.

(** [extract_nested_archives(file_path, extract_dir)] *)
Definition extract_nested_archives (file_path extract_dir : Path)
  : M (option Path) :=
  print ("[INFO] Checking for nested archives in: " +:+ PathOps.str file_path);;
  file_cmd ← run_cmd (FileB file_path) false None;
  if succeeded file_cmd then
    let file_type := Str.lower (from_option stdout EmptyString file_cmd) in
    print ("[INFO] File type: " +:+ file_type);;
    dispatch (signature_of file_type) file_path extract_dir
  else mret None.

End Program.

End Gen.

(** The quiet world of an environment: [file -b] is its [inspect], a tool
    its [shell], and no run raises. *)
Definition quiet (env : Env) : World := {|
  base := env;
  run := fun cmd cwd_ t =>
    match cmd with
    | FileB p => (inr (inspect env t p), t)
    | Tool line => let '(res, t') := shell env line cwd_ t in (inr res, t')
    end
|}.

(** ** A laboratory environment

    A small world to run the program in: [file -b] goes by the first bytes
    of a file, [unsquashfs] and [cpio] fail, [sasquatch] succeeds, the gzip
    decoder accepts what follows the three bytes [GZ:], a tar archive
    opens when it starts with [ustar] and has no members, files named
    [*.txt] are not executable, and the walk yields the listing taken when
    the loop starts. *)

Module Lab.

Definition describe (c : string) : string :=
  if String.prefix "GZ" c then "gzip compressed data, from Unix"
  else if String.prefix "hsqs" c then "Squashfs filesystem, little endian, version 4.0"
  else if String.prefix "070701" c then "ASCII cpio archive (SVR4 with no CRC)"
  else if String.prefix "ustar" c then "POSIX tar archive (GNU)"
  else if String.prefix (String "127" "ELF") c then "ELF 32-bit LSB shared object, ARM"
  else "ASCII text".

Definition file_b (t : FS) (p : Path) : CmdResult :=
  match Fs.stat t p with
  | Some (File c) => {| returncode := 0; stdout := describe c; stderr := "" |}
  | _ => {| returncode := 1; stdout := "cannot open"; stderr := "" |}
  end.

Definition sh (line : string) (cwd_ : option Path) (t : FS) : CmdResult * FS :=
  if String.prefix "sasquatch" line
  then ({| returncode := 0; stdout := ""; stderr := "" |}, t)
  else ({| returncode := 1; stdout := ""; stderr := "failed" |}, t).

Definition gz (c : string) : GzRead :=
  if String.eqb c "" then GzOk ""
  else if String.prefix "GZ:" c then GzOk (Str.drop 3 c)
  else GzErr "" BadGzipFile.

Definition untar (archive dest : Path) (t : FS) : option Exn * FS :=
  if String.prefix "ustar" (Fs.content_at t archive) then (None, t)
  else (Some ReadError, t).

Definition env (installed : list string) : Env := {|
  inspect := file_b;
  shell := sh;
  which := fun _ tool => existsb (String.eqb tool) installed;
  gunzip := gz;
  tar_extractall := untar;
  access_x := fun _ p => negb (Str.endswith (PathOps.name p) ".txt");
  cwd := ["home"];
  Walker := list Path;
  walk_start := Fs.rglob;
  walk_next := fun _ w => match w with [] => None | p :: w' => Some (p, w') end
|}.

(** An output directory after the carving step. *)
Definition tree : FS :=
  list_to_map
    [ (["out"], Dir);
      (["out"; "old.bin"], File "stale");
      (["out"; "link"], Symlink ["out"; "old.bin"]);
      (["out"; "keep.txt"], File "notes");
      (["out"; "_fw"], Dir);
      (["out"; "_fw"; "a.gz"], File "GZ:hello");
      (["out"; "_fw"; "bad.gz"], File "GZ");
      (["out"; "_fw"; "blob"], File "GZ:data");
      (["out"; "_fw"; "rootfs"], File "hsqs....");
      (["out"; "_fw"; "init.cpio"], File "070701....");
      (["out"; "_fw"; "busybox"], File (String "127" "ELF..."));
      (["out"; "_fw"; "readme.txt"], File "plain text");
      (["out"; "_fw"; "prev_cpio"], Dir);
      (["out"; "_fw"; "prev_cpio"; "sh"], File (String "127" "ELF...")) ].

(** The same with a file in the way of the directory of [init.cpio]. *)
Definition tree_in_the_way : FS :=
  <[ ["out"; "_fw"; "init_cpio"] := File "in the way" ]> tree.

(** A directory with an archive that unpacks into it, so that the walk
    goes down. *)
Definition nested : FS :=
  list_to_map
    [ (["r"], Dir);
      (["r"; "x.tar"], File "ustar");
      (["r"; "note"], File "hi") ].

(** The depths of the visits in a log. *)
Definition visit_depths (l : list Event) : list Z :=
  flat_map (fun e => match e with Visit d _ => [d] | _ => [] end) l.

End Lab.

(** ** More of the laboratory *)

Module Cases.

(** [file -b] that also knows a jffs2 image. *)
Definition file_b (t : FS) (p : Path) : CmdResult :=
  match Fs.stat t p with
  | Some (File c) =>
      {| returncode := 0;
         stdout := if String.prefix "JFFS2" c
                   then "Linux jffs2 filesystem data little endian"
                   else Lab.describe c;
         stderr := "" |}
  | _ => {| returncode := 1; stdout := "cannot open"; stderr := "" |}
  end.

Definition env (installed : list string) : Env := {|
  inspect := file_b;
  shell := Lab.sh;
  which := fun _ tool => existsb (String.eqb tool) installed;
  gunzip := Lab.gz;
  tar_extractall := Lab.untar;
  access_x := fun _ p => negb (Str.endswith (PathOps.name p) ".txt");
  cwd := ["home"];
  Walker := list Path;
  walk_start := Fs.rglob;
  walk_next := fun _ w => match w with [] => None | p :: w' => Some (p, w') end
|}.

(** An output directory as [binwalk] leaves it. *)
Definition binwalk_out : FS :=
  list_to_map
    [ (["out"], Dir);
      (["out"; "_fw.bin.extracted"], Dir);
      (["out"; "_fw.bin.extracted"; "rootfs.gz"], File "GZ:data");
      (["out"; "_fw.bin.extracted"; "flash.img"], File "JFFS2....");
      (["out"; "_fw.bin.extracted"; "init"], File (String "127" "ELF...")) ].


End Cases.

(** ** Worlds that are not quiet *)

Module Worlds.

(** A world where the output of [unsquashfs] and of [jefferson] is not
    valid text: their runs raise. *)
Definition garbled (installed : list string) : World := {|
  base := Cases.env installed;
  run := fun cmd cwd_ t =>
    match cmd with
    | FileB p => (inr (Cases.file_b t p), t)
    | Tool line =>
        if String.prefix "unsquashfs" line || String.prefix "jefferson" line
        then (inl (Failure "UnicodeDecodeError"
                     "'utf-8' codec can't decode byte 0xff in position 0: invalid start byte"),
              t)
        else (inr (Lab.sh line cwd_ t).1, (Lab.sh line cwd_ t).2)
    end
|}.

(** A file name that ends the quotation of the command line it is put
    in: [file -b '/srv/in/a'; touch pwned; echo ''] inspects [/srv/in/a],
    which is not there, makes [pwned] in the directory of the process,
    and ends with the status of [echo]. *)
Definition quoting_name : string := "a'; touch pwned; echo '".

Definition sh_file_b (t : FS) (p : Path) : CmdResult * FS :=
  if String.eqb (PathOps.name p) quoting_name
  then ({| returncode := 0;
           stdout := "cannot open `" +:+ PathOps.str (PathOps.parent p ++ ["a"])
                     +:+ "' (No such file or directory)";
           stderr := "" |},
        <[ ["home"; "pwned"] := File "" ]> t)
  else (Lab.file_b t p, t).

Definition shell_world (installed : list string) : World := {|
  base := Lab.env installed;
  run := fun cmd cwd_ t =>
    match cmd with
    | FileB p => (inr (sh_file_b t p).1, (sh_file_b t p).2)
    | Tool line => (inr (Lab.sh line cwd_ t).1, (Lab.sh line cwd_ t).2)
    end
|}.

(** A directory with a file of that name. *)
Definition inbox : FS :=
  list_to_map
    [ (["home"], Dir);
      (["srv"], Dir);
      (["srv"; "in"], Dir);
      (["srv"; "in"; quoting_name], File "plain text") ].

(** A directory with a compressed file under the name of an archive. *)
Definition downloads : FS :=
  list_to_map
    [ (["dl"], Dir);
      (["dl"; "foo.tar"], File "GZ:ustar....") ].

End Worlds.

(** * The vocabulary of the statements *)

(** [extends P st st']: the log of [st'] is the log of [st] followed by
    events that all satisfy [P]. *)
Definition extends (P : Event -> Prop) (st st' : State) : Prop :=
  exists evs, log st' = log st ++ evs /\ Forall P evs.

(** [emits P m]: whatever the state [m] starts in, and however it ends,
    it only adds events that satisfy [P]. *)
Definition emits {A} (P : Event -> Prop) (m : M A) : Prop :=
  forall st, extends P st (m st).2.

(** The events [extract_nested_archives] may add when it is applied to
    [p]: it inspects no file but [p], deletes nothing, and is no visit of
    the walk. *)
Definition dispatch_event (p : Path) (e : Event) : Prop :=
  match e with
  | Visit _ _ | Unlink _ | Rmtree _ => False
  | Run (FileB q) _ => q = p
  | _ => True
  end.

(** The events a call of [recursive_extract] with bound [max_depth],
    entered at [current_depth], may add: visits at depths from
    [current_depth] up to, not including, [max_depth], visits and
    inspections of unmarked paths only, and no deletion. *)
Definition walk_event (max_depth current_depth : Z) (e : Event) : Prop :=
  match e with
  | Visit d p => (current_depth <= d < max_depth)%Z /\ has_marker p = false
  | Run (FileB p) _ => has_marker p = false
  | Unlink _ | Rmtree _ => False
  | _ => True
  end.

Definition with_log (st : State) (evs : list Event) : State :=
  {| fs := fs st; log := log st ++ evs |}.

(** What the output file holds after the decoder has run. *)
Definition decoded (g : GzRead) : string :=
  match g with
  | GzOk payload => payload
  | GzErr partial _ => partial
  end.

(** The events that look up or run an extraction tool. *)
Definition tool_event (e : Event) : Prop :=
  match e with
  | Which _ | Run (Tool _) _ => True
  | _ => False
  end.

(** A line printed as a warning. *)
Definition is_warning (e : Event) : bool :=
  match e with
  | Print line => Str.startswith line "[WARN]"
  | _ => false
  end.

(** The test of the loop of [cleanup_output_dir] on an entry. *)
Definition conflicting (t : FS) (item : Path) : bool :=
  Fs.is_symlink t item
  || Str.endswith (PathOps.name item) ".rar"
  || Str.endswith (PathOps.name item) ".bin".

Definition tool_line (tool : string) (subdir p : Path) : string :=
  if String.eqb tool "unsquashfs" then unsquashfs_line subdir p
  else sasquatch_line subdir p.

(** [total m]: [m] never runs out of fuel. Only the two loops of the walk
    use fuel. *)
Definition total {A} (m : M A) : Prop :=
  forall st, (m st).1 <> OutOfFuel.

Section Vocabulary.

Context (env : Env).

(** What the inspection of [p] adds to the log. *)
Definition inspection_log (t : FS) (p : Path) : list Event :=
  [ Print ("[INFO] Checking for nested archives in: " +:+ PathOps.str p);
    Print ("[CMD] " +:+ cmd_line (FileB p));
    Run (FileB p) None ]
  ++ (if (returncode (inspect env t p) =? 0)%Z
      then [Print ("[INFO] File type: " +:+ Str.lower (stdout (inspect env t p)))]
      else []).

(** What one turn of the loop over the tools adds to the log, in a tree
    [t]: the look-up of the tool and, when it is there, its run. *)
Definition attempt_log (tool line : string) (t : FS) : list Event :=
  Which tool ::
  (if which env t tool then
     [ Print ("[CMD] " +:+ line); Run (Tool line) None;
       Print (if (returncode (shell env line None t).1 =? 0)%Z
              then "[INFO] Successfully extracted with " +:+ tool
              else "[WARN] " +:+ tool +:+ " failed, trying next method") ]
   else
     [ Print ("[ERROR] Required tool '" +:+ tool
              +:+ "' is not available. Please install it.") ]).

(** Whether a tool is there and exits with 0, and the tree it leaves. *)
Definition attempt_ok (tool line : string) (t : FS) : bool :=
  which env t tool && (returncode (shell env line None t).1 =? 0)%Z.

Definition attempt_fs (tool line : string) (t : FS) : FS :=
  if which env t tool then (shell env line None t).2 else t.

(** The test of the scan on one path, in a tree [t]. *)
Definition qualifies (t : FS) (f : Path) : bool :=
  Fs.is_file t f
  && access_x env t f
  && (returncode (inspect env t f) =? 0)%Z
  && is_executable_type (Str.lower (stdout (inspect env t f))).

(** The paths of one root that the scan keeps. *)
Definition scanned (t : FS) (root_dir : Path) : list Path :=
  if Fs.exists_ t root_dir
  then List.filter (qualifies t) (Fs.rglob t root_dir)
  else [].

End Vocabulary.

(** ** The vocabulary of the further properties *)

(** What the list file holds: [str(e) + "\n"] for each entry. *)
Definition list_text (executables : list Path) : string :=
  String.concat "" (List.map (fun e => PathOps.str e +:+ String "010" "") executables).

(** The events of [unpack_firmware] once [binwalk] was found: visits at
    the depths 0 to 4 and of unmarked paths only, and no deletion. *)
Definition steps_event (e : Event) : Prop :=
  match e with
  | Visit d p => (0 <= d < 5)%Z /\ has_marker p = false
  | Unlink _ | Rmtree _ => False
  | _ => True
  end.

Definition is_deletion (e : Event) : Prop :=
  match e with
  | Unlink _ | Rmtree _ => True
  | _ => False
  end.

Definition is_run (e : Event) : Prop :=
  match e with
  | Run _ _ => True
  | _ => False
  end.

(** The events of the clean-up: lines printed and deletions. *)
Definition cleanup_event (e : Event) : Prop :=
  match e with
  | Print _ | Unlink _ | Rmtree _ => True
  | _ => False
  end.



(** ** The vocabulary of the dispatch in a world *)

Section GenVocabulary.

Context (w : World).

(** What the inspection of [p] gives in a tree [t]: the exception of the
    run or the signature, and the tree the run leaves. *)
Definition gen_classify (t : FS) (p : Path) : (Exn + FormatSignature) * FS :=
  ((match (run w (FileB p) None t).1 with
    | inl e => inl e
    | inr res =>
        inr (if (returncode res =? 0)%Z
             then signature_of (Str.lower (stdout res))
             else Unknown)
    end),
   (run w (FileB p) None t).2).

(** What the inspection of [p] adds to the log. *)
Definition gen_inspection_log (t : FS) (p : Path) : list Event :=
  [ Print ("[INFO] Checking for nested archives in: " +:+ PathOps.str p);
    Print ("[CMD] " +:+ cmd_line (FileB p));
    Run (FileB p) None ]
  ++ match (run w (FileB p) None t).1 with
     | inr res =>
         if (returncode res =? 0)%Z
         then [Print ("[INFO] File type: " +:+ Str.lower (stdout res))]
         else []
     | inl _ => []
     end.

(** How the attempt with one tool ends in a tree [t]. *)
Inductive Attempt : Type :=
| Absent
| Succeeded
| Failed
| Raised (e : Exn).

Definition gen_attempt (tool line : string) (t : FS) : Attempt :=
  if which (base w) t tool then
    match (run w (Tool line) None t).1 with
    | inl e => Raised e
    | inr res => if (returncode res =? 0)%Z then Succeeded else Failed
    end
  else Absent.

(** The tree an attempt leaves, and what it adds to the log. *)
Definition gen_attempt_fs (tool line : string) (t : FS) : FS :=
  if which (base w) t tool then (run w (Tool line) None t).2 else t.

Definition gen_attempt_log (tool line : string) (t : FS) : list Event :=
  Which tool ::
  (if which (base w) t tool then
     [ Print ("[CMD] " +:+ line); Run (Tool line) None ]
     ++ match (run w (Tool line) None t).1 with
        | inl _ => []
        | inr res =>
            [ Print (if (returncode res =? 0)%Z
                     then "[INFO] Successfully extracted with " +:+ tool
                     else "[WARN] " +:+ tool +:+ " failed, trying next method") ]
        end
   else
     [ Print ("[ERROR] Required tool '" +:+ tool
              +:+ "' is not available. Please install it.") ]).

End GenVocabulary.

(** * Properties *)

(** ** Strings and paths *)

Section StringFacts.

Lemma length_take n s :
  n <= String.length s -> String.length (Str.take n s) = n.
Proof.
  revert s; induction n as [|n IH]; intros [|c s]; simpl; try lia.
  intros H. rewrite IH; lia.
Qed.

Lemma length_drop n s :
  String.length (Str.drop n s) = String.length s - n.
Proof.
  revert s; induction n as [|n IH]; intros [|c s]; simpl; auto.
Qed.

Lemma take_app a s : Str.take (String.length a) (a +:+ s) = a.
Proof. induction a as [|c a IH]; simpl; [by destruct s | by rewrite IH]. Qed.

Lemma drop_app a s : Str.drop (String.length a) (a +:+ s) = s.
Proof. induction a as [|c a IH]; simpl; auto. Qed.

Lemma str_length_app (a s : string) :
  String.length (a +:+ s) = String.length a + String.length s.
Proof. induction a as [|c a IH]; simpl; auto. Qed.

Lemma rfind_bounds c s : (-1 <= Str.rfind c s < Str.len s)%Z.
Proof.
  unfold Str.len. induction s as [|a s IH]; simpl String.length; simpl Str.rfind.
  - lia.
  - destruct (Z.leb_spec 0 (Str.rfind c s)); [lia|].
    destruct (Ascii.eqb a c); lia.
Qed.

Lemma rfind_app c a s :
  (0 <= Str.rfind c s)%Z ->
  Str.rfind c (a +:+ s) = (Str.len a + Str.rfind c s)%Z.
Proof.
  intros H. unfold Str.len. induction a as [|x a IH].
  - change (EmptyString +:+ s) with s. simpl String.length. lia.
  - change (String x a +:+ s) with (String x (a +:+ s)).
    simpl Str.rfind. simpl String.length. rewrite IH.
    destruct (Z.leb_spec 0 (Z.of_nat (String.length a) + Str.rfind c s)); lia.
Qed.

Lemma contains_cons_false x a s :
  Str.contains x (String a s) = false -> Str.contains x s = false.
Proof. simpl. intros H. apply orb_false_iff in H. tauto. Qed.

Lemma rfind_absent c s :
  Str.contains (String c "") s = false -> Str.rfind c s = (-1)%Z.
Proof.
  induction s as [|a s IH]; [done|].
  intros H. pose proof (contains_cons_false _ _ _ H) as H'.
  simpl. rewrite (IH H'). simpl.
  simpl in H. apply orb_false_iff in H as [H _].
  destruct (ascii_dec c a) as [->|Hne].
  - by destruct s.
  - destruct (Ascii.eqb_spec a c); congruence.
Qed.

Lemma name_div d c : PathOps.name (d ++ [c]) = c.
Proof. unfold PathOps.name. apply last_last. Qed.

Lemma parent_div d c : PathOps.parent (d ++ [c]) = d.
Proof. unfold PathOps.parent. apply removelast_last. Qed.

(** [with_suffix('')] keeps the directory and replaces the name by the
    stem. *)
Lemma with_suffix_empty_stem p :
  PathOps.name p <> EmptyString ->
  PathOps.with_suffix_empty p = Some (PathOps.parent p ++ [PathOps.stem p]).
Proof.
  intros Hnm. unfold PathOps.with_suffix_empty, PathOps.suffix, PathOps.stem, PathOps.parent.
  destruct (String.eqb_spec (PathOps.name p) "") as [|_]; [done|].
  set (nm := PathOps.name p). set (i := Str.rfind "." nm).
  pose proof (rfind_bounds "." nm) as Hb. fold i in Hb. unfold Str.len in *.
  destruct ((0 <? i)%Z && (i <? Z.of_nat (String.length nm) - 1)%Z) eqn:Hc; [|done].
  apply andb_true_iff in Hc as [H1%Z.ltb_lt H2%Z.ltb_lt].
  destruct (String.eqb_spec (Str.drop (Z.to_nat i) nm) "") as [He|_].
  - apply (f_equal String.length) in He. rewrite length_drop in He. simpl in He. lia.
  - rewrite length_drop. do 2 f_equal. f_equal. f_equal. lia.
Qed.

(** A name without a dot has no suffix to lose. *)
Lemma with_suffix_empty_no_dot d nm :
  nm <> EmptyString -> Str.contains "." nm = false ->
  PathOps.with_suffix_empty (d ++ [nm]) = Some (d ++ [nm]).
Proof.
  intros Hnm Hdot. rewrite with_suffix_empty_stem by by rewrite name_div.
  rewrite parent_div. unfold PathOps.stem. rewrite name_div.
  by rewrite (rfind_absent _ _ Hdot).
Qed.

(** The stem of [b ++ ext], where [ext] is a dot followed by letters
    without a dot, is [b]. *)
Lemma stem_ext d b ext :
  b <> EmptyString -> Str.rfind "." ext = 0%Z -> 1 < String.length ext ->
  PathOps.stem (d ++ [b +:+ ext]) = b.
Proof.
  intros Hb Hext Hlen. unfold PathOps.stem. rewrite name_div.
  rewrite rfind_app by lia. rewrite Hext. unfold Str.len. rewrite str_length_app.
  assert (0 < String.length b) by (destruct b; simpl; [done|lia]).
  replace ((0 <? Z.of_nat (String.length b) + 0)%Z) with true by (symmetry; apply Z.ltb_lt; lia).
  replace ((Z.of_nat (String.length b) + 0 <? Z.of_nat (String.length b + String.length ext) - 1)%Z)
    with true by (symmetry; apply Z.ltb_lt; lia).
  simpl. rewrite Z.add_0_r, Nat2Z.id. apply take_app.
Qed.

End StringFacts.

(** ** What a computation adds to the log *)

Section LogFacts.

Context (P : Event -> Prop).

Lemma extends_refl st : extends P st st.
Proof. exists []. by rewrite app_nil_r. Qed.

Lemma extends_trans st1 st2 st3 :
  extends P st1 st2 -> extends P st2 st3 -> extends P st1 st3.
Proof.
  intros (e1 & H1 & F1) (e2 & H2 & F2). exists (e1 ++ e2).
  split; [by rewrite H2, H1, app_assoc | by apply Forall_app].
Qed.

Lemma extends_mono (Q : Event -> Prop) st st' :
  (forall e, P e -> Q e) -> extends P st st' -> extends Q st st'.
Proof.
  intros HPQ (evs & H & F). exists evs. split; [done|].
  eapply Forall_impl; eauto.
Qed.

Lemma emits_mono {A} (Q : Event -> Prop) (m : M A) :
  (forall e, P e -> Q e) -> emits P m -> emits Q m.
Proof. intros HPQ Hm st. eapply extends_mono; eauto. Qed.

Lemma emits_ret {A} (a : A) : emits P (mret a).
Proof. intros st. apply extends_refl. Qed.

Lemma emits_raise {A} e : emits P (@raise A e).
Proof. intros st. apply extends_refl. Qed.

Lemma emits_out_of_fuel {A} : emits P (@out_of_fuel A).
Proof. intros st. apply extends_refl. Qed.

Lemma emits_get_fs : emits P get_fs.
Proof. intros st. apply extends_refl. Qed.

Lemma emits_put_fs t : emits P (put_fs t).
Proof. intros st. exists []. simpl. by rewrite app_nil_r. Qed.

Lemma emits_lift {A} (r : Exn + A) : emits P (lift r).
Proof. destruct r; [apply emits_raise | apply emits_ret]. Qed.

Lemma emits_emit e : P e -> emits P (emit e).
Proof. intros He st. exists [e]. split; [done | by constructor]. Qed.

Lemma emits_bind {A B} (m : M A) (f : A -> M B) :
  emits P m -> (forall a, emits P (f a)) -> emits P (m ≫= f).
Proof.
  intros Hm Hf st. unfold mbind, M_bind. specialize (Hm st).
  destruct (m st) as [[a|e|] st1]; simpl in *; [|done..].
  eapply extends_trans; [exact Hm | apply Hf].
Qed.

Lemma emits_try_except {A} (body : M A) (handler : Exn -> M A) :
  emits P body -> (forall e, emits P (handler e)) ->
  emits P (try_except body handler).
Proof.
  intros Hb Hh st. unfold try_except. specialize (Hb st).
  destruct (body st) as [[a|e|] st1]; simpl in *; [done| |done].
  destruct e; try (eapply extends_trans; [exact Hb | apply Hh]); done.
Qed.

Lemma emits_for_each {A B} (body : B -> A -> M B) l acc :
  (forall b a, emits P (body b a)) -> emits P (for_each body l acc).
Proof.
  intros Hb. revert acc. induction l as [|x l IH]; intros acc; simpl.
  - apply emits_ret.
  - apply emits_bind; auto.
Qed.

End LogFacts.

(** The rules, as hints for the two judgements. *)
Create HintDb emits discriminated.
#[export] Hint Resolve emits_ret emits_raise emits_out_of_fuel emits_get_fs
  emits_put_fs emits_lift emits_for_each : emits.

Ltac emits_step :=
  lazymatch goal with
  | |- emits _ (_ ≫= _) => apply emits_bind; [|intros ?]
  | |- emits _ (try_except _ _) => apply emits_try_except; [|intros ?]
  | |- emits _ (emit _) => apply emits_emit; simpl; try done
  | |- emits _ (print _) => apply emits_emit; simpl; try done
  | |- emits _ (if ?b then _ else _) => destruct b
  | |- emits _ (match ?x with _ => _ end) => destruct x
  | |- emits _ (let '(_, _) := ?x in _) => destruct x
  | |- emits _ _ => solve [eauto with emits]
  end.

Ltac emits_auto := repeat emits_step.

(** ** The events of one dispatch *)

Section DispatchEvents.

Context (env : Env) (P : Event -> Prop).

Lemma run_cmd_emits cmd check_error cwd_ :
  (forall line, P (Print line)) -> P (Run cmd cwd_) ->
  emits P (run_cmd env cmd check_error cwd_).
Proof.
  intros HP HR. unfold run_cmd, subprocess_run. emits_auto.
Qed.

Lemma check_tool_available_emits tool :
  (forall line, P (Print line)) -> P (Which tool) ->
  emits P (check_tool_available env tool).
Proof. intros HP HW. unfold check_tool_available. emits_auto. Qed.

Lemma mkdir_emits p : P (Mkdir p) -> emits P (mkdir p).
Proof. intros HM. unfold mkdir. emits_auto. Qed.

Lemma squashfs_tools_emits tools subdir p :
  (forall line, P (Print line)) -> (forall tool, P (Which tool)) ->
  (forall line, P (Run (Tool line) None)) ->
  emits P (squashfs_tools env tools subdir p).
Proof.
  intros HP HW HR. induction tools as [|tool rest IH]; simpl; [apply emits_ret|].
  apply emits_bind; [by apply check_tool_available_emits|]. intros [|]; [|done].
  apply emits_bind; [by apply run_cmd_emits|]. intros result.
  emits_auto.
Qed.

End DispatchEvents.

Lemma dispatch_emits env signature p d :
  emits (dispatch_event p) (dispatch env signature p d).
Proof.
  destruct signature; unfold dispatch; cbv zeta.
  - unfold gzip_body. emits_auto.
  - unfold tar_body. emits_auto.
  - apply emits_bind; [by apply emits_emit|]. intros _.
    apply emits_bind; [by apply mkdir_emits|]. intros _.
    apply emits_bind; [by apply squashfs_tools_emits|]. intros r.
    emits_auto.
  - apply emits_bind; [by apply emits_emit|]. intros _.
    apply emits_bind; [by apply mkdir_emits|]. intros _.
    apply emits_bind; [by apply check_tool_available_emits|]. intros avail.
    destruct avail; [|emits_auto].
    apply emits_bind; [by apply run_cmd_emits|]. intros result. emits_auto.
  - apply emits_bind; [by apply emits_emit|]. intros _.
    apply emits_bind; [by apply mkdir_emits|]. intros _.
    apply emits_bind; [by apply run_cmd_emits|]. intros result. emits_auto.
  - apply emits_ret.
Qed.

Lemma extract_emits env p d :
  emits (dispatch_event p) (extract_nested_archives env p d).
Proof.
  unfold extract_nested_archives.
  apply emits_bind; [by apply emits_emit|]. intros _.
  apply emits_bind; [by apply run_cmd_emits|]. intros file_cmd.
  destruct (succeeded file_cmd); [|apply emits_ret].
  apply emits_bind; [by apply emits_emit|]. intros _.
  apply dispatch_emits.
Qed.

(** ** The events of the walk *)

Lemma dispatch_walk_event max_depth current_depth p e :
  has_marker p = false -> dispatch_event p e -> walk_event max_depth current_depth e.
Proof. intros Hp. destruct e as [| |[q|]| | | | | | |]; simpl; try done. by intros ->. Qed.

Lemma walk_event_deeper max_depth current_depth e :
  walk_event max_depth (current_depth + 1) e -> walk_event max_depth current_depth e.
Proof. destruct e; simpl; try done. intros [? ?]. split; [lia|done]. Qed.

Section WalkEvents.

Context (env : Env).

Lemma extract_loop_emits max_depth fuel recurse current_depth w acc :
  (current_depth < max_depth)%Z ->
  (forall target, emits (walk_event max_depth current_depth) (recurse target)) ->
  emits (walk_event max_depth current_depth)
    (extract_loop env fuel recurse current_depth w acc).
Proof.
  intros Hlt Hrec. revert w acc.
  induction fuel as [|fuel IH]; intros w acc; simpl; [apply emits_out_of_fuel|].
  apply emits_bind; [apply emits_get_fs|]. intros t.
  destruct (walk_next env t w) as [[file_path w']|]; [|apply emits_ret].
  destruct (Fs.is_file t file_path); [|apply IH].
  destruct (has_marker file_path) eqn:Hm; [apply IH|].
  apply emits_bind; [apply emits_emit; simpl; split; [lia|done]|]. intros _.
  apply emits_bind.
  { eapply emits_mono; [|apply extract_emits].
    intros e. by apply dispatch_walk_event. }
  intros [target|]; [|apply IH].
  apply emits_bind; [apply Hrec|]. intros _. apply IH.
Qed.

Lemma recursive_extract_emits fuel directory max_depth current_depth :
  emits (walk_event max_depth current_depth)
    (recursive_extract env fuel directory max_depth current_depth).
Proof.
  revert directory current_depth.
  induction fuel as [|fuel IH]; intros directory current_depth; simpl;
    destruct (Z.leb_spec max_depth current_depth); try apply emits_ret;
    [apply emits_out_of_fuel|].
  apply emits_bind; [apply emits_get_fs|]. intros t.
  apply extract_loop_emits; [done|]. intros target.
  eapply emits_mono; [|apply IH]. apply walk_event_deeper.
Qed.

(** A call entered at or beyond the bound does nothing and returns
    [None]. *)
Lemma recursive_extract_at_bound fuel directory max_depth current_depth st :
  (max_depth <= current_depth)%Z ->
  recursive_extract env fuel directory max_depth current_depth st = (Ok PyNone, st).
Proof.
  intros H. destruct fuel; simpl;
    (destruct (Z.leb_spec max_depth current_depth); [done|lia]).
Qed.

Lemma extract_loop_returns_bool fuel recurse current_depth w acc st v :
  (extract_loop env fuel recurse current_depth w acc st).1 = Ok v ->
  exists b, v = PyBool b.
Proof.
  revert w acc st. induction fuel as [|fuel IH]; intros w acc st; simpl; [done|].
  unfold mbind, M_bind, get_fs.
  destruct (walk_next env (fs st) w) as [[file_path w']|]; simpl.
  2:{ intros [= <-]. eauto. }
  destruct (Fs.is_file (fs st) file_path); [|apply IH].
  destruct (has_marker file_path); [apply IH|]. simpl.
  destruct (extract_nested_archives env file_path (PathOps.parent file_path) _)
    as [[[target|]|e|] st1]; simpl; try done; [|apply IH].
  destruct (recurse target st1) as [[u|e|] st2]; simpl; try done. apply IH.
Qed.

(** A call entered below the bound, when it returns, returns a
    boolean. *)
Lemma recursive_extract_below_bound fuel directory max_depth current_depth st v :
  (current_depth < max_depth)%Z ->
  (recursive_extract env fuel directory max_depth current_depth st).1 = Ok v ->
  exists b, v = PyBool b.
Proof.
  intros H. destruct fuel; simpl;
    (destruct (Z.leb_spec max_depth current_depth); [lia|]); [done|].
  unfold mbind at 1, M_bind at 1, get_fs. apply extract_loop_returns_bool.
Qed.

End WalkEvents.

(** ** One dispatch, step by step *)

(** Unfolding the monad, to run a computation on a given state. *)
Ltac run_monad :=
  unfold mbind, M_bind, mret, M_ret, emit, print, get_fs, put_fs, lift, raise;
  simpl.

Section DispatchRuns.

Context (env : Env).

(** [extract_nested_archives] inspects the file and then runs the branch
    of its signature. *)
Lemma extract_nested_archives_run p d st :
  extract_nested_archives env p d st
  = dispatch env (classify env (fs st) p) p d
      (with_log st (inspection_log env (fs st) p)).
Proof.
  unfold extract_nested_archives, run_cmd, subprocess_run, classify,
    inspection_log, with_log.
  run_monad.
  destruct (returncode (inspect env (fs st) p) =? 0)%Z; simpl;
    by rewrite <- ?app_assoc.
Qed.

Lemma inspection_log_quiet t p :
  Forall (fun e => (exists line, e = Print line) \/ e = Run (FileB p) None)
    (inspection_log env t p).
Proof.
  unfold inspection_log.
  destruct (returncode (inspect env t p) =? 0)%Z; simpl;
    repeat (constructor; [first [by left; eexists | by right]|]);
    constructor.
Qed.

(** The gzip branch when the stream decodes. *)
Lemma dispatch_gzip_ok p d st f_in output_name f_out t1 payload :
  Fs.open_rb (fs st) p = inr f_in ->
  PathOps.with_suffix_empty p = Some output_name ->
  Fs.open_wb (fs st) output_name = inr (f_out, t1) ->
  gunzip env (Fs.content_at t1 f_in) = GzOk payload ->
  dispatch env Gzip p d st
  = (Ok (Some output_name),
     {| fs := <[f_out := File payload]> t1;
        log := log st ++ [ Print ("[INFO] Extracting gzip: " +:+ PathOps.str p);
                           OpenRead p; OpenWrite output_name ] |}).
Proof.
  intros Hin Hname Hout Hgz.
  unfold dispatch, try_except, gzip_body. run_monad.
  rewrite Hin, Hname. simpl. rewrite Hout. simpl. rewrite Hgz. simpl.
  by rewrite <- ?app_assoc.
Qed.

(** The gzip branch when the decoder raises: the output is left with
    what was decoded, and the outcome is "no extraction". *)
Lemma dispatch_gzip_err p d st f_in output_name f_out t1 partial e :
  Fs.open_rb (fs st) p = inr f_in ->
  PathOps.with_suffix_empty p = Some output_name ->
  Fs.open_wb (fs st) output_name = inr (f_out, t1) ->
  gunzip env (Fs.content_at t1 f_in) = GzErr partial e ->
  (forall c, e <> SystemExit c) ->
  dispatch env Gzip p d st
  = (Ok None,
     {| fs := <[f_out := File partial]> t1;
        log := log st ++ [ Print ("[INFO] Extracting gzip: " +:+ PathOps.str p);
                           OpenRead p; OpenWrite output_name;
                           Print ("[WARN] Failed to extract gzip: " +:+ exn_str e) ] |}).
Proof.
  intros Hin Hname Hout Hgz He.
  unfold dispatch, try_except, gzip_body. run_monad.
  rewrite Hin, Hname. simpl. rewrite Hout. simpl. rewrite Hgz. simpl.
  destruct e; try (by rewrite <- ?app_assoc). by destruct (He code).
Qed.

End DispatchRuns.

(** ** Opening files in the tree *)

Section OpenFacts.

Lemma node_at_div (t : FS) (d : Path) (c : string) : Fs.node_at t (d ++ [c]) = t !! (d ++ [c]).
Proof. by destruct d. Qed.

Lemma resolve_no_link (hops : nat) (t : FS) (p : Path) :
  (forall target, Fs.node_at t p <> Some (Symlink target)) ->
  Fs.resolve hops t p = Some p.
Proof.
  intros H. destruct hops; simpl;
    destruct (Fs.node_at t p) as [[| |target]|]; try done; by destruct (H target).
Qed.

Lemma dot_name_div (d : Path) (nm : string) :
  Fs.dot_name (d ++ [nm]) = String.eqb nm "." || String.eqb nm "..".
Proof. unfold Fs.dot_name. by rewrite name_div. Qed.

(** A regular file opens for reading as itself. *)
Lemma open_rb_file (t : FS) (d : Path) (nm c : string) :
  Fs.dot_name (d ++ [nm]) = false ->
  t !! (d ++ [nm]) = Some (File c) ->
  Fs.open_rb t (d ++ [nm]) = inr (d ++ [nm]).
Proof.
  intros Hdot H. unfold Fs.open_rb.
  rewrite resolve_no_link by (rewrite node_at_div, H; done).
  by rewrite Hdot, node_at_div, H.
Qed.

(** A regular file opens for writing as itself, emptied. *)
Lemma open_wb_file (t : FS) (d : Path) (nm c : string) :
  Fs.dot_name (d ++ [nm]) = false ->
  t !! (d ++ [nm]) = Some (File c) ->
  Fs.open_wb t (d ++ [nm]) = inr (d ++ [nm], <[d ++ [nm] := File EmptyString]> t).
Proof.
  intros Hdot H. unfold Fs.open_wb.
  rewrite resolve_no_link by (rewrite node_at_div, H; done).
  by rewrite Hdot, node_at_div, H.
Qed.

(** A free name in a directory opens for writing as a new empty file. *)
Lemma open_wb_new (t : FS) (d : Path) (nm : string) :
  Fs.dot_name (d ++ [nm]) = false ->
  t !! (d ++ [nm]) = None -> Fs.is_dir t d = true ->
  Fs.open_wb t (d ++ [nm]) = inr (d ++ [nm], <[d ++ [nm] := File EmptyString]> t).
Proof.
  intros Hdot H Hd. unfold Fs.open_wb.
  rewrite resolve_no_link by (rewrite node_at_div, H; done).
  rewrite Hdot, node_at_div, H, parent_div.
  unfold Fs.is_dir in Hd. by destruct (Fs.stat t d) as [[| |]|].
Qed.

(** The names [.] and [..] do not open for writing. *)
Lemma open_wb_dot (t : FS) (d : Path) (nm : string) :
  nm = "."%string \/ nm = ".."%string ->
  t !! (d ++ [nm]) = None ->
  exists e, Fs.open_wb t (d ++ [nm]) = inl e /\ forall c, e <> SystemExit c.
Proof.
  intros Hnm H. unfold Fs.open_wb.
  rewrite resolve_no_link by (rewrite node_at_div, H; done).
  rewrite dot_name_div. replace (String.eqb nm "." || String.eqb nm "..") with true
    by (destruct Hnm as [-> | ->]; reflexivity).
  unfold Fs.open_dot. destruct (Fs.stat t _) as [[| |]|]; eexists; split; done.
Qed.

(** A free name in a directory can be made a directory. *)
Lemma mkdir_exist_ok_new (t : FS) (d : Path) (c : string) :
  t !! (d ++ [c]) = None -> Fs.is_dir t d = true ->
  Fs.mkdir_exist_ok t (PathOps.div d c) = inr (<[PathOps.div d c := Dir]> t).
Proof.
  intros H Hd. unfold Fs.mkdir_exist_ok, PathOps.div.
  rewrite node_at_div, H, parent_div.
  unfold Fs.is_dir in Hd. by destruct (Fs.stat t d) as [[| |]|].
Qed.

(** A name taken by a regular file cannot. *)
Lemma mkdir_exist_ok_file (t : FS) (d : Path) (c content : string) :
  t !! (d ++ [c]) = Some (File content) ->
  Fs.mkdir_exist_ok t (PathOps.div d c) = inl FileExistsError.
Proof.
  intros H. unfold Fs.mkdir_exist_ok, PathOps.div, Fs.is_dir, Fs.stat.
  rewrite resolve_no_link by (rewrite node_at_div, H; done).
  by rewrite node_at_div, H.
Qed.


End OpenFacts.

(** The gzip branch always opens the source and then the path
    [with_suffix('')] gives, whatever happens next. *)
Lemma dispatch_gzip_opens env p d st f_in output_name :
  Fs.open_rb (fs st) p = inr f_in ->
  PathOps.with_suffix_empty p = Some output_name ->
  exists rest,
    log (dispatch env Gzip p d st).2
    = log st ++ [ Print ("[INFO] Extracting gzip: " +:+ PathOps.str p);
                  OpenRead p; OpenWrite output_name ] ++ rest.
Proof.
  intros Hin Hname.
  unfold dispatch, try_except, gzip_body. run_monad.
  rewrite Hin, Hname. simpl.
  destruct (Fs.open_wb (fs st) output_name) as [e|[f_out t1]]; simpl.
  - destruct e; simpl; rewrite <- ?app_assoc; simpl; eauto.
  - destruct (gunzip env (Fs.content_at t1 f_in)) as [payload|partial e]; simpl.
    + exists []. by rewrite <- ?app_assoc.
    + destruct e; simpl; rewrite <- ?app_assoc; simpl; eauto.
Qed.

(** The gzip branch, once both files are open: the output holds what was
    decoded from the source as it is after the output was emptied. *)
Lemma dispatch_gzip_writes env p d st f_in output_name f_out t1 :
  Fs.open_rb (fs st) p = inr f_in ->
  PathOps.with_suffix_empty p = Some output_name ->
  Fs.open_wb (fs st) output_name = inr (f_out, t1) ->
  fs (dispatch env Gzip p d st).2
  = <[f_out := File (decoded (gunzip env (Fs.content_at t1 f_in)))]> t1.
Proof.
  intros Hin Hname Hout.
  unfold dispatch, try_except, gzip_body. run_monad.
  rewrite Hin, Hname. simpl. rewrite Hout. simpl.
  destruct (gunzip env (Fs.content_at t1 f_in)) as [payload|partial e]; simpl; [done|].
  by destruct e.
Qed.

(** ** The squashfs branch, turn by turn *)

Section SquashfsRuns.

Context (env : Env).

Lemma squashfs_tools_cons tool rest subdir p st :
  squashfs_tools env (tool :: rest) subdir p st
  = let line := tool_line tool subdir p in
    let st1 := {| fs := attempt_fs env tool line (fs st);
                  log := log st ++ attempt_log env tool line (fs st) |} in
    if attempt_ok env tool line (fs st) then (Ok (Some subdir), st1)
    else squashfs_tools env rest subdir p st1.
Proof.
  unfold attempt_ok, attempt_fs, attempt_log, tool_line.
  cbn [squashfs_tools]. unfold check_tool_available, run_cmd, subprocess_run, succeeded.
  run_monad.
  destruct (which env (fs st) tool); simpl.
  - destruct (shell env _ None (fs st)) as [res t'] eqn:Hsh. simpl.
    destruct (returncode res =? 0)%Z; simpl; by rewrite <- ?app_assoc.
  - by rewrite <- ?app_assoc.
Qed.

Local Arguments squashfs_tools : simpl never.

(** The squashfs branch when the directory cannot be made: the
    exception of [mkdir] leaves [dispatch]. *)
Lemma dispatch_squashfs_mkdir_fails p d st e :
  Fs.mkdir_exist_ok (fs st) (PathOps.div d (PathOps.stem p +:+ "_squashfs")) = inl e ->
  dispatch env Squashfs p d st
  = (Raise e,
     with_log st [ Print ("[INFO] Found squashfs: " +:+ PathOps.str p);
                   Mkdir (PathOps.div d (PathOps.stem p +:+ "_squashfs")) ]).
Proof.
  intros Hmk. unfold dispatch, mkdir, with_log. run_monad. rewrite Hmk. simpl.
  by rewrite <- ?app_assoc.
Qed.

(** The squashfs branch once the directory is there. *)
Lemma dispatch_squashfs_run p d st t1 :
  let subdir := PathOps.div d (PathOps.stem p +:+ "_squashfs") in
  Fs.mkdir_exist_ok (fs st) subdir = inr t1 ->
  let line1 := unsquashfs_line subdir p in
  let line2 := sasquatch_line subdir p in
  let t2 := attempt_fs env "unsquashfs" line1 t1 in
  let head := [ Print ("[INFO] Found squashfs: " +:+ PathOps.str p); Mkdir subdir ]
              ++ attempt_log env "unsquashfs" line1 t1 in
  dispatch env Squashfs p d st
  = if attempt_ok env "unsquashfs" line1 t1 then
      (Ok (Some subdir), {| fs := t2; log := log st ++ head |})
    else if attempt_ok env "sasquatch" line2 t2 then
      (Ok (Some subdir),
       {| fs := attempt_fs env "sasquatch" line2 t2;
          log := log st ++ head ++ attempt_log env "sasquatch" line2 t2 |})
    else
      (Ok None,
       {| fs := attempt_fs env "sasquatch" line2 t2;
          log := log st ++ head ++ attempt_log env "sasquatch" line2 t2
                 ++ [Print ("[WARN] Could not extract squashfs file: " +:+ PathOps.str p)] |}).
Proof.
  intros subdir Hmk line1 line2 t2 head.
  unfold dispatch. fold subdir. unfold mkdir. run_monad. rewrite Hmk. simpl.
  rewrite squashfs_tools_cons. cbv zeta. simpl fs. simpl log.
  change (tool_line "unsquashfs" subdir p) with line1. fold t2.
  destruct (attempt_ok env "unsquashfs" line1 t1).
  { unfold head. by rewrite <- ?app_assoc. }
  rewrite squashfs_tools_cons. cbv zeta. simpl fs. simpl log.
  change (tool_line "sasquatch" subdir p) with line2.
  destruct (attempt_ok env "sasquatch" line2 t2); simpl;
    unfold head; by rewrite <- ?app_assoc.
Qed.

End SquashfsRuns.

(** ** The cpio branch *)

Section CpioRuns.

Context (env : Env).

Lemma dispatch_cpio_mkdir_fails p d st e :
  Fs.mkdir_exist_ok (fs st) (PathOps.div d (PathOps.stem p +:+ "_cpio")) = inl e ->
  dispatch env Cpio p d st
  = (Raise e,
     with_log st [ Print ("[INFO] Found cpio: " +:+ PathOps.str p);
                   Mkdir (PathOps.div d (PathOps.stem p +:+ "_cpio")) ]).
Proof.
  intros Hmk. unfold dispatch, mkdir, with_log. run_monad. rewrite Hmk. simpl.
  by rewrite <- ?app_assoc.
Qed.

Lemma dispatch_cpio_run p d st t1 :
  let subdir := PathOps.div d (PathOps.stem p +:+ "_cpio") in
  let line := cpio_line subdir p in
  Fs.mkdir_exist_ok (fs st) subdir = inr t1 ->
  dispatch env Cpio p d st
  = (Ok (if (returncode (shell env line None t1).1 =? 0)%Z then Some subdir else None),
     {| fs := (shell env line None t1).2;
        log := log st ++ [ Print ("[INFO] Found cpio: " +:+ PathOps.str p);
                           Mkdir subdir;
                           Print ("[CMD] " +:+ line);
                           Run (Tool line) None ] |}).
Proof.
  intros subdir line Hmk.
  unfold dispatch, mkdir, run_cmd, subprocess_run, succeeded. fold subdir line.
  run_monad. rewrite Hmk. simpl.
  destruct (shell env line None t1) as [res t'] eqn:Hsh. simpl.
  destruct (returncode res =? 0)%Z; simpl; by rewrite <- ?app_assoc.
Qed.

Lemma inspection_log_no_warning t p :
  existsb is_warning (inspection_log env t p) = false.
Proof.
  unfold inspection_log.
  by destruct (returncode (inspect env t p) =? 0)%Z.
Qed.

End CpioRuns.

(** ** The executable scan *)

Section ScanRuns.

Context (env : Env).

Lemma scan_file_run executables f st :
  exists evs,
    scan_file env executables f st
    = (Ok (if qualifies env (fs st) f then executables ++ [f] else executables),
       with_log st evs).
Proof.
  unfold scan_file, qualifies, run_cmd, subprocess_run, succeeded, with_log.
  run_monad.
  destruct (Fs.is_file (fs st) f); simpl.
  2:{ exists []. by rewrite app_nil_r; destruct st. }
  destruct (access_x env (fs st) f); simpl.
  2:{ exists []. by rewrite app_nil_r; destruct st. }
  destruct (returncode (inspect env (fs st) f) =? 0)%Z; simpl.
  2:{ eexists. by rewrite <- ?app_assoc. }
  destruct (is_executable_type _); simpl; eexists; by rewrite <- ?app_assoc.
Qed.

Lemma scan_files_run l executables st :
  exists evs,
    for_each (scan_file env) l executables st
    = (Ok (executables ++ List.filter (qualifies env (fs st)) l), with_log st evs).
Proof.
  revert executables st. induction l as [|f l IH]; intros executables st.
  - exists []. simpl. unfold with_log. rewrite !app_nil_r. by destruct st.
  - cbn [for_each]. unfold mbind, M_bind.
    destruct (scan_file_run executables f st) as [evs1 ->].
    destruct (IH (if qualifies env (fs st) f then executables ++ [f] else executables)
                (with_log st evs1)) as [evs2 ->].
    exists (evs1 ++ evs2). simpl.
    destruct (qualifies env (fs st) f); unfold with_log; simpl;
      by rewrite <- ?app_assoc.
Qed.

Lemma scan_root_run executables root_dir st :
  exists evs,
    scan_root env executables root_dir st
    = (Ok (executables ++ scanned env (fs st) root_dir), with_log st evs).
Proof.
  unfold scan_root, scanned. unfold mbind at 1, M_bind at 1, get_fs.
  destruct (Fs.exists_ (fs st) root_dir); simpl.
  - apply scan_files_run.
  - exists []. unfold with_log. rewrite !app_nil_r. by destruct st.
Qed.

Lemma scan_roots_run roots executables st :
  exists evs,
    for_each (scan_root env) roots executables st
    = (Ok (executables ++ flat_map (scanned env (fs st)) roots), with_log st evs).
Proof.
  revert executables st. induction roots as [|root roots IH]; intros executables st.
  - exists []. simpl. unfold with_log. rewrite !app_nil_r. by destruct st.
  - cbn [for_each]. unfold mbind, M_bind.
    destruct (scan_root_run executables root st) as [evs1 ->].
    destruct (IH (executables ++ scanned env (fs st) root) (with_log st evs1))
      as [evs2 ->].
    exists (evs1 ++ evs2). unfold with_log. simpl. by rewrite <- ?app_assoc.
Qed.

End ScanRuns.

(** ** The clean-up of the output directory *)

Section TreeListing.

Lemma elem_of_paths (t : FS) (p : Path) : p ∈ Fs.paths t <-> is_Some (t !! p).
Proof.
  unfold Fs.paths. rewrite list_elem_of_fmap. split.
  - intros ([q n] & -> & Hin). apply elem_of_map_to_list in Hin. by exists n.
  - intros [n Hn]. exists (p, n). split; [done|]. by apply elem_of_map_to_list.
Qed.

Lemma elem_of_iterdir (t : FS) (d p : Path) :
  p ∈ Fs.iterdir t d <-> (p <> [] /\ PathOps.parent p = d) /\ is_Some (t !! p).
Proof. unfold Fs.iterdir. by rewrite list_elem_of_filter, elem_of_paths. Qed.

Lemma NoDup_iterdir (t : FS) (d : Path) : NoDup (Fs.iterdir t d).
Proof. apply NoDup_filter, NoDup_fst_map_to_list. Qed.

(** Two entries of one directory: neither is above the other. *)
Lemma sibling_prefix (p q : Path) :
  p <> [] -> q <> [] -> PathOps.parent p = PathOps.parent q ->
  p `prefix_of` q -> p = q.
Proof.
  intros Hp Hq Hpar Hpre. apply prefix_length_eq; [done|].
  unfold PathOps.parent in Hpar. apply (f_equal length) in Hpar.
  destruct (exists_last Hp) as (p' & a & ->).
  destruct (exists_last Hq) as (q' & b & ->).
  rewrite !removelast_last in Hpar. rewrite !length_app. simpl. lia.
Qed.

Lemma is_dir_insert_dir (t : FS) (p : Path) : Fs.is_dir (<[p := Dir]> t) p = true.
Proof.
  assert (Hn : Fs.node_at (<[p := Dir]> t) p = Some Dir).
  { destruct p; [done|]. simpl. apply lookup_insert_eq. }
  unfold Fs.is_dir, Fs.stat.
  rewrite resolve_no_link by (by rewrite Hn). by rewrite Hn.
Qed.

(** When [mkdir(parents=True, exist_ok=True)] returns, the directory is
    there and what was in the tree still is. *)
Lemma mkdir_parents_from_spec (todo : list string) (done_ : Path) (t t' : FS) :
  Fs.is_dir t done_ = true ->
  Fs.mkdir_parents_from done_ todo t = inr t' ->
  Fs.is_dir t' (done_ ++ todo) = true
  /\ forall q n, t !! q = Some n -> t' !! q = Some n.
Proof.
  revert done_ t. induction todo as [|c todo IH]; intros done_ t Hdir; simpl.
  - intros [= <-]. by rewrite app_nil_r.
  - rewrite node_at_div.
    destruct (t !! (done_ ++ [c])) as [n|] eqn:Hp.
    + destruct (Fs.is_dir t (done_ ++ [c])) eqn:Hd; [|done].
      intros H. apply IH in H as [H1 H2]; [|done].
      by rewrite <- app_assoc in H1.
    + intros H. apply IH in H as [H1 H2]; [|apply is_dir_insert_dir].
      rewrite <- app_assoc in H1. split; [done|].
      intros q n Hq. apply H2. rewrite lookup_insert_ne; [done|congruence].
Qed.

Lemma mkdir_parents_spec (t t' : FS) (out : Path) :
  Fs.mkdir_parents t out = inr t' ->
  Fs.is_dir t' out = true /\ forall q n, t !! q = Some n -> t' !! q = Some n.
Proof. intros H. by apply (mkdir_parents_from_spec out []) in H. Qed.

End TreeListing.

Section CleanupRuns.

(** One turn of the loop on an entry that is there: it does not raise,
    it looks up and runs no tool, it leaves alone what is not below the
    entry, and a conflicting entry is gone afterwards. *)
Lemma cleanup_item_run (item : Path) (n : Node) (st : State) :
  item <> [] -> fs st !! item = Some n ->
  exists t' evs,
    cleanup_item tt item st = (Ok tt, {| fs := t'; log := log st ++ evs |})
    /\ Forall (fun e => ~ tool_event e) evs
    /\ (forall q, ~ item `prefix_of` q -> t' !! q = fs st !! q)
    /\ (conflicting (fs st) item = true ->
        t' !! item = None
        /\ (n <> Dir -> In (Unlink item) evs)).
Proof.
  intros Hne Hn. unfold cleanup_item.
  unfold mbind at 1, M_bind at 1, get_fs. cbv beta iota.
  change (Fs.is_symlink (fs st) item
          || Str.endswith (PathOps.name item) ".rar"
          || Str.endswith (PathOps.name item) ".bin")
    with (conflicting (fs st) item).
  destruct (conflicting (fs st) item) eqn:Hc; cbv iota beta.
  2:{ exists (fs st), []. rewrite app_nil_r. destruct st; simpl.
      repeat split; done. }
  assert (Hnode : Fs.node_at (fs st) item = Some n) by (by destruct item).
  destruct n as [c| |target].
  - (* a regular file *)
    assert (Fs.is_symlink (fs st) item = false) as -> by (unfold Fs.is_symlink; by rewrite Hnode).
    assert (Fs.is_file (fs st) item = true) as ->.
    { unfold Fs.is_file, Fs.stat. rewrite resolve_no_link by (by rewrite Hnode).
      by rewrite Hnode. }
    unfold unlink, Fs.unlink. run_monad. rewrite Hn. simpl.
    eexists _, _. split; [by rewrite <- ?app_assoc|].
    split; [repeat constructor; simpl; tauto|].
    split; [|split; [apply lookup_delete_eq | simpl; tauto]].
    intros q Hq. apply lookup_delete_ne. by intros ->.
  - (* a directory *)
    assert (Fs.is_symlink (fs st) item = false) as -> by (unfold Fs.is_symlink; by rewrite Hnode).
    assert (Fs.is_file (fs st) item = false) as ->.
    { unfold Fs.is_file, Fs.stat. rewrite resolve_no_link by (by rewrite Hnode).
      by rewrite Hnode. }
    unfold rmtree, Fs.rmtree. run_monad. rewrite Hn. simpl.
    eexists _, _. split; [by rewrite <- ?app_assoc|].
    split; [repeat constructor; simpl; tauto|].
    split; [|split; [|done]].
    + intros q Hq. rewrite map_lookup_filter.
      destruct (fs st !! q) as [m|]; [|done]. simpl.
      by rewrite option_guard_True.
    + apply map_lookup_filter_None. right. intros m _ Hp. by apply Hp.
  - (* a symbolic link *)
    assert (Fs.is_symlink (fs st) item = true) as -> by (unfold Fs.is_symlink; by rewrite Hnode).
    unfold unlink, Fs.unlink. run_monad. rewrite Hn. simpl.
    eexists _, _. split; [by rewrite <- ?app_assoc|].
    split; [repeat constructor; simpl; tauto|].
    split; [|split; [apply lookup_delete_eq | simpl; tauto]].
    intros q Hq. apply lookup_delete_ne. by intros ->.
Qed.

(** The loop over the entries of a directory [d], all of them there
    when it starts. *)
Lemma cleanup_loop_run (d : Path) (items : list Path) (st : State) :
  NoDup items ->
  (forall item, item ∈ items ->
     item <> [] /\ PathOps.parent item = d /\ is_Some (fs st !! item)) ->
  exists t' evs,
    for_each cleanup_item items tt st
    = (Ok tt, {| fs := t'; log := log st ++ evs |})
    /\ Forall (fun e => ~ tool_event e) evs
    /\ (forall q, (forall item, item ∈ items -> ~ item `prefix_of` q) ->
                  t' !! q = fs st !! q)
    /\ (forall item n, item ∈ items -> fs st !! item = Some n ->
          conflicting (fs st) item = true ->
          t' !! item = None /\ (n <> Dir -> In (Unlink item) evs)).
Proof.
  revert st. induction items as [|x l IH]; intros st Hnd Hall.
  - exists (fs st), []. simpl. rewrite app_nil_r. destruct st; simpl.
    split; [done|]. split; [constructor|]. split; [done|].
    intros item n Hin. by apply elem_of_nil in Hin.
  - apply NoDup_cons in Hnd as [Hx Hnd].
    destruct (Hall x) as (Hxne & Hxpar & [nx Hnx]); [by left|].
    destruct (cleanup_item_run x nx st Hxne Hnx)
      as (t1 & evs1 & Hrun1 & Hquiet1 & Hframe1 & Hgone1).
    assert (Hsib : forall y, y ∈ l -> ~ x `prefix_of` y /\ ~ y `prefix_of` x).
    { intros y Hy. destruct (Hall y) as (Hyne & Hypar & _); [by right|].
      split; intros Hp; apply sibling_prefix in Hp; try congruence;
        subst; contradiction. }
    set (st1 := {| fs := t1; log := log st ++ evs1 |}).
    destruct (IH st1 Hnd) as (t' & evs2 & Hrun2 & Hquiet2 & Hframe2 & Hgone2).
    { intros y Hy. destruct (Hall y) as (Hyne & Hypar & Hsome); [by right|].
      repeat split; try done. simpl.
      rewrite Hframe1; [done|]. by apply Hsib. }
    exists t', (evs1 ++ evs2). split; [|split; [|split]].
    + cbn [for_each]. unfold mbind, M_bind. rewrite Hrun1. fold st1.
      rewrite Hrun2. simpl. by rewrite <- app_assoc.
    + by apply Forall_app.
    + intros q Hq. rewrite Hframe2.
      * simpl. apply Hframe1. apply Hq. by left.
      * intros item Hin. apply Hq. by right.
    + intros item n Hin Hn Hc. apply elem_of_cons in Hin as [->|Hin].
      * rewrite Hnx in Hn. injection Hn as <-.
        destruct (Hgone1 Hc) as [Hnone Hunl]. split.
        -- rewrite Hframe2; [done|]. intros y Hy. by apply Hsib.
        -- intros Hd. apply in_app_iff. left. by apply Hunl.
      * assert (Hn1 : fs st1 !! item = Some n).
        { simpl. rewrite Hframe1; [done|]. by apply Hsib. }
        assert (Hc1 : conflicting (fs st1) item = true).
        { destruct (Hall item) as (Hine & _); [by right|].
          unfold conflicting, Fs.is_symlink in *.
          destruct item; [done|]. simpl in *. rewrite Hn1. by rewrite Hn in Hc. }
        destruct (Hgone2 item n Hin Hn1 Hc1) as [Hnone Hunl].
        split; [done|]. intros Hd. apply in_app_iff. right. by apply Hunl.
Qed.

(** [cleanup_output_dir] on a directory [out]. *)
Lemma cleanup_output_dir_run (out : Path) (st : State) :
  Fs.is_dir (fs st) out = true ->
  exists t' evs,
    cleanup_output_dir out st = (Ok tt, {| fs := t'; log := log st ++ evs |})
    /\ Forall (fun e => ~ tool_event e) evs
    /\ (forall item n, item <> [] -> PathOps.parent item = out ->
          fs st !! item = Some n -> conflicting (fs st) item = true ->
          t' !! item = None /\ (n <> Dir -> In (Unlink item) evs)).
Proof.
  intros Hdir.
  destruct (cleanup_loop_run out (Fs.iterdir (fs st) out) st)
    as (t' & evs & Hrun & Hquiet & _ & Hgone).
  { apply NoDup_iterdir. }
  { intros item Hin. apply elem_of_iterdir in Hin. tauto. }
  exists t', evs. split; [|split; [done|]].
  - unfold cleanup_output_dir. unfold mbind, M_bind, get_fs. by rewrite Hdir.
  - intros item n Hne Hpar Hn Hc. apply (Hgone item n); try done.
    apply elem_of_iterdir. by rewrite Hn.
Qed.

End CleanupRuns.

(** ** The driver up to the check for [binwalk] *)

Section DriverRuns.

Context (env : Env).

Lemma write_list_emits (P : Event -> Prop) p executables :
  P (OpenWrite p) -> emits P (write_list p executables).
Proof. intros HP. unfold write_list. emits_auto. Qed.

Lemma scan_executables_emits roots : emits (fun _ => True) (scan_executables env roots).
Proof.
  intros st. unfold scan_executables.
  destruct (scan_roots_run env roots [] st) as [evs ->].
  exists evs. split; [done|]. by apply Forall_forall.
Qed.

Lemma extract_root_emits fuel u root_dir :
  emits (fun _ => True) (extract_root env fuel u root_dir).
Proof.
  unfold extract_root.
  apply emits_bind; [by apply emits_emit|]. intros _.
  apply emits_bind; [apply emits_get_fs|]. intros t.
  destruct (Fs.exists_ t root_dir); [|apply emits_ret].
  apply emits_bind; [|intros; apply emits_ret].
  eapply emits_mono; [|apply recursive_extract_emits]. done.
Qed.


(** The driver, from its start to the look-up of [binwalk]. *)
Lemma unpack_firmware_run fuel fw out st t0 st1 :
  Fs.mkdir_parents (fs st) out = inr t0 ->
  cleanup_output_dir out
    {| fs := t0;
       log := log st ++ [ Print ("[INFO] Unpacking firmware: " +:+ PathOps.str fw);
                          Print ("[INFO] Output directory: " +:+ PathOps.str out);
                          Mkdir out ] |}
  = (Ok tt, st1) ->
  unpack_firmware env fuel fw out st
  = if which env (fs st1) "binwalk"
    then unpack_steps env fuel fw out (with_log st1 [Which "binwalk"])
    else (Raise (SystemExit 1),
          with_log st1
            [ Which "binwalk";
              Print "[ERROR] Required tool 'binwalk' is not available. Please install it." ]).
Proof.
  intros Hmk Hclean. unfold unpack_firmware, check_tool_available, with_log.
  run_monad. rewrite Hmk. simpl. rewrite <- !app_assoc. simpl.
  rewrite Hclean.
  destruct (which env (fs st1) "binwalk"); simpl; by rewrite <- ?app_assoc.
Qed.

End DriverRuns.

(** ** Fuel *)

Section Totality.

Lemma total_ret {A} (a : A) : total (mret a).
Proof. done. Qed.

Lemma total_raise {A} e : total (@raise A e).
Proof. done. Qed.

Lemma total_emit e : total (emit e).
Proof. done. Qed.

Lemma total_get_fs : total get_fs.
Proof. done. Qed.

Lemma total_put_fs t : total (put_fs t).
Proof. done. Qed.

Lemma total_lift {A} (r : Exn + A) : total (lift r).
Proof. by destruct r. Qed.

Lemma total_bind {A B} (m : M A) (f : A -> M B) :
total m -> (forall a, total (f a)) -> total (m ≫= f).
Proof.
intros Hm Hf st. unfold mbind, M_bind. specialize (Hm st).
destruct (m st) as [[a|e|] st1]; simpl in *; [apply Hf|done..].
Qed.

Lemma total_try_except {A} (body : M A) (handler : Exn -> M A) :
total body -> (forall e, total (handler e)) -> total (try_except body handler).
Proof.
intros Hb Hh st. unfold try_except. specialize (Hb st).
destruct (body st) as [[a|e|] st1]; simpl in *; [done| |done].
destruct e; try apply Hh; done.
Qed.

End Totality.

Ltac total_step :=
  lazymatch goal with
  | |- total (_ ≫= _) => apply total_bind; [|intros ?]
  | |- total (try_except _ _) => apply total_try_except; [|intros ?]
  | |- total (if ?b then _ else _) => destruct b
  | |- total (match ?x with _ => _ end) => destruct x
  | |- total (let '(_, _) := ?x in _) => destruct x
  | |- total _ =>
      first [ apply total_ret | apply total_raise | apply total_emit
            | apply total_get_fs | apply total_put_fs | apply total_lift ]
  end.

Ltac total_auto := repeat total_step.

Section WalkTerminates.

Context (env : Env).

Lemma run_cmd_total cmd check_error cwd_ : total (run_cmd env cmd check_error cwd_).
Proof. unfold run_cmd, subprocess_run, print. total_auto. Qed.

Lemma check_tool_available_total tool : total (check_tool_available env tool).
Proof. unfold check_tool_available, print. total_auto. Qed.

Lemma squashfs_tools_total tools subdir p : total (squashfs_tools env tools subdir p).
Proof.
induction tools as [|tool rest IH]; simpl; [apply total_ret|].
apply total_bind; [apply check_tool_available_total|]. intros [|]; [|done].
apply total_bind; [apply run_cmd_total|]. intros result.
unfold print. total_auto. exact IH.
Qed.

Lemma dispatch_total signature p d : total (dispatch env signature p d).
Proof.
destruct signature; unfold dispatch; cbv zeta.
- unfold gzip_body, print. total_auto.
- unfold tar_body, print. total_auto.
- unfold mkdir, print.
  apply total_bind; [apply total_emit|]. intros _.
  apply total_bind; [total_auto|]. intros _.
  apply total_bind; [apply squashfs_tools_total|]. intros r. total_auto.
- unfold mkdir, print.
  apply total_bind; [apply total_emit|]. intros _.
  apply total_bind; [total_auto|]. intros _.
  apply total_bind; [apply check_tool_available_total|]. intros [|]; [|total_auto].
  apply total_bind; [apply run_cmd_total|]. intros result. total_auto.
- unfold mkdir, print.
  apply total_bind; [apply total_emit|]. intros _.
  apply total_bind; [total_auto|]. intros _.
  apply total_bind; [apply run_cmd_total|]. intros result. total_auto.
- apply total_ret.
Qed.

Lemma extract_nested_archives_total p d : total (extract_nested_archives env p d).
Proof.
intros st. rewrite extract_nested_archives_run. apply dispatch_total.
Qed.

(** The walk yields finitely many paths: each step makes the walker
  smaller, whatever the tree. *)
Context (size : Walker env -> nat).
Hypothesis walk_next_smaller :
forall t w p w', walk_next env t w = Some (p, w') -> size w' < size w.

(** With fuel enough the loop gives a result, and more fuel, for the loop
  or for the calls it makes, gives the same. *)
Lemma extract_loop_settles (recurse : nat -> Path -> M PyVal) current_depth :
(forall target st, exists F r, r.1 <> OutOfFuel
                   /\ forall g, F <= g -> recurse g target st = r) ->
forall n w acc st, size w <= n ->
  exists F r, r.1 <> OutOfFuel
    /\ forall f g, F <= f -> F <= g ->
         extract_loop env f (recurse g) current_depth w acc st = r.
Proof.
intros Hrec. induction n as [|n IH]; intros w acc st Hsize.
- (* the walker is exhausted *)
  destruct (walk_next env (fs st) w) as [[p w']|] eqn:Hnext.
  { apply walk_next_smaller in Hnext. lia. }
  exists 1, (Ok (PyBool acc), st). split; [done|].
  intros [|f] g Hf _; [lia|]. simpl. unfold mbind, M_bind, get_fs. by rewrite Hnext.
- destruct (walk_next env (fs st) w) as [[p w']|] eqn:Hnext.
  2:{ exists 1, (Ok (PyBool acc), st). split; [done|].
      intros [|f] g Hf _; [lia|]. simpl. unfold mbind, M_bind, get_fs. by rewrite Hnext. }
  assert (Hw' : size w' <= n) by (apply walk_next_smaller in Hnext; lia).
  assert (Hskip : forall acc' st',
    exists F r, r.1 <> OutOfFuel
      /\ forall f g, F <= f -> F <= g ->
           extract_loop env f (recurse g) current_depth w' acc' st' = r)
    by (intros; by apply IH).
  destruct (Fs.is_file (fs st) p && negb (has_marker p)) eqn:Hvisit.
  2:{ destruct (Hskip acc st) as (F & r & Hr & Hrun).
      exists (S F), r. split; [done|].
      intros [|f] g Hf Hg; [lia|]. simpl. unfold mbind at 1, M_bind at 1, get_fs.
      rewrite Hnext. cbv beta iota.
      destruct (Fs.is_file (fs st) p); [|apply Hrun; lia].
      destruct (has_marker p); [apply Hrun; lia|done]. }
  apply andb_true_iff in Hvisit as [Hfile Hmark]. apply negb_true_iff in Hmark.
  set (st0 := {| fs := fs st; log := log st ++ [Visit current_depth p] |}).
  pose proof (extract_nested_archives_total p (PathOps.parent p) st0) as Htot.
  destruct (extract_nested_archives env p (PathOps.parent p) st0)
    as [[[target|]|e|] st1] eqn:Hdisp; [| | |done].
  + (* a target: the call, then the rest of the loop *)
    destruct (Hrec target st1) as (Ft & [[v|e|] st2] & Hrt & Hrunt); [| |done].
    * destruct (Hskip true st2) as (F & r & Hr & Hrun).
      exists (S (Ft + F)), r. split; [done|].
      intros [|f] g Hf Hg; [lia|]. simpl. unfold mbind, M_bind, get_fs, emit.
      rewrite Hnext, Hfile, Hmark. fold st0. rewrite Hdisp.
      rewrite Hrunt by lia. apply Hrun; lia.
    * exists (S Ft), (Raise e, st2). split; [done|].
      intros [|f] g Hf Hg; [lia|]. simpl. unfold mbind, M_bind, get_fs, emit.
      rewrite Hnext, Hfile, Hmark. fold st0. rewrite Hdisp.
      by rewrite Hrunt by lia.
  + destruct (Hskip acc st1) as (F & r & Hr & Hrun).
    exists (S F), r. split; [done|].
    intros [|f] g Hf Hg; [lia|]. simpl. unfold mbind, M_bind, get_fs, emit.
    rewrite Hnext, Hfile, Hmark. fold st0. rewrite Hdisp. apply Hrun; lia.
  + exists 1, (Raise e, st1). split; [done|].
    intros [|f] g Hf Hg; [lia|]. simpl. unfold mbind, M_bind, get_fs, emit.
    rewrite Hnext, Hfile, Hmark. fold st0. by rewrite Hdisp.
Qed.

Lemma recursive_extract_settles max_depth (k : nat) :
forall directory current_depth st,
  (max_depth - current_depth <= Z.of_nat k)%Z ->
  exists F r, r.1 <> OutOfFuel
    /\ forall g, F <= g ->
         recursive_extract env g directory max_depth current_depth st = r.
Proof.
induction k as [|k IH]; intros directory current_depth st Hk.
- exists 0, (Ok PyNone, st). split; [done|].
  intros g _. apply recursive_extract_at_bound. lia.
- destruct (Z.leb_spec max_depth current_depth) as [Hle|Hlt].
  { exists 0, (Ok PyNone, st). split; [done|].
    intros g _. by apply recursive_extract_at_bound. }
  destruct (extract_loop_settles
              (fun g target => recursive_extract env g target max_depth (current_depth + 1))
              current_depth
              (fun target st' => IH target (current_depth + 1)%Z st' ltac:(lia))
              (size (walk_start env (fs st) directory))
              (walk_start env (fs st) directory) false st (le_n _))
    as (F & r & Hr & Hrun).
  exists (S F), r. split; [done|].
  intros [|g] Hg; [lia|]. simpl.
  destruct (Z.leb_spec max_depth current_depth); [lia|].
  unfold mbind, M_bind, get_fs. apply Hrun; lia.
Qed.

(** With a walk that yields finitely many paths, [recursive_extract]
  returns or raises: there is an amount of fuel from which on the result
  is the same and is not "out of fuel". *)
Theorem recursive_extract_terminates directory max_depth current_depth st :
exists fuel r, r.1 <> OutOfFuel
  /\ forall fuel', fuel <= fuel' ->
       recursive_extract env fuel' directory max_depth current_depth st = r.
Proof.
apply (recursive_extract_settles max_depth
         (Z.to_nat (max_depth - current_depth))). lia.
Qed.

End WalkTerminates.

(** ** The marker test and the classifier, spelled out *)

Lemma has_marker_iff (p : Path) :
  has_marker p = true <->
  Str.contains "_squashfs" (PathOps.str p) = true
  \/ Str.contains "_jffs2" (PathOps.str p) = true
  \/ Str.contains "_cpio" (PathOps.str p) = true
  \/ Str.contains ".extracted" (PathOps.str p) = true.
Proof.
  unfold has_marker, Str.any_in, markers. cbn [existsb].
  rewrite !orb_true_iff. intuition congruence.
Qed.

(** An inspection that fails gives [Unknown], and so does an output in
    which no rule finds its words. *)
Lemma classify_unknown (env : Env) (t : FS) (p : Path) :
  classify env t p = Unknown <->
  (returncode (inspect env t p) =? 0)%Z = false
  \/ signature_of (Str.lower (stdout (inspect env t p))) = Unknown.
Proof.
  unfold classify. destruct (returncode (inspect env t p) =? 0)%Z; intuition congruence.
Qed.

(** ** The dispatch in a world, step by step *)

Section GenRuns.

Context (w : World).

(** [run_cmd] with [check_error=False]: the exception of the run leaves
    it, a completed process is given back whatever its status. *)
Lemma gen_run_cmd_unchecked (cmd : Cmd) (cwd_ : option Path) (st : State) :
  Gen.run_cmd w cmd false cwd_ st
  = (match (run w cmd cwd_ (fs st)).1 with
     | inl e => Raise e
     | inr res => Ok (Some res)
     end,
     {| fs := (run w cmd cwd_ (fs st)).2;
        log := log st ++ [Print ("[CMD] " +:+ cmd_line cmd); Run cmd cwd_] |}).
Proof.
  unfold Gen.run_cmd, Gen.subprocess_run. run_monad.
  destruct (run w cmd cwd_ (fs st)) as [[e|res] t']; simpl; by rewrite <- ?app_assoc.
Qed.

(** [extract_nested_archives] inspects the file and then, when the run
    has not raised, goes into the branch of the signature, in the tree
    the inspection has left. *)
Lemma gen_extract_nested_archives_run (p d : Path) (st : State) :
  Gen.extract_nested_archives w p d st
  = match (gen_classify w (fs st) p).1 with
    | inl e =>
        (Raise e,
         {| fs := (gen_classify w (fs st) p).2;
            log := log st ++ gen_inspection_log w (fs st) p |})
    | inr signature =>
        Gen.dispatch w signature p d
          {| fs := (gen_classify w (fs st) p).2;
             log := log st ++ gen_inspection_log w (fs st) p |}
    end.
Proof.
  unfold Gen.extract_nested_archives, Gen.run_cmd, Gen.subprocess_run, succeeded,
    gen_classify, gen_inspection_log.
  run_monad.
  destruct (run w (FileB p) None (fs st)) as [[e|res] t0]; simpl.
  - by rewrite <- ?app_assoc.
  - destruct (returncode res =? 0)%Z; simpl; by rewrite <- ?app_assoc.
Qed.

(** The gzip and the tar branch make no run: they are those of the
    base. *)
Lemma gen_dispatch_gzip (p d : Path) :
  Gen.dispatch w Gzip p d = dispatch (base w) Gzip p d.
Proof. reflexivity. Qed.

Lemma gen_dispatch_tar (p d : Path) :
  Gen.dispatch w Tar p d = dispatch (base w) Tar p d.
Proof. reflexivity. Qed.

Lemma gen_squashfs_tools_cons (tool : string) (rest : list string)
    (subdir p : Path) (st : State) :
  Gen.squashfs_tools w (tool :: rest) subdir p st
  = let line := tool_line tool subdir p in
    let st1 := {| fs := gen_attempt_fs w tool line (fs st);
                  log := log st ++ gen_attempt_log w tool line (fs st) |} in
    match gen_attempt w tool line (fs st) with
    | Succeeded => (Ok (Some subdir), st1)
    | Raised e => (Raise e, st1)
    | Absent | Failed => Gen.squashfs_tools w rest subdir p st1
    end.
Proof.
  unfold gen_attempt, gen_attempt_fs, gen_attempt_log, tool_line.
  cbn [Gen.squashfs_tools].
  unfold check_tool_available, Gen.run_cmd, Gen.subprocess_run, succeeded.
  run_monad.
  destruct (which (base w) (fs st) tool); simpl.
  - destruct (run w (Tool _) None (fs st)) as [[e|res] t']; simpl.
    + by rewrite <- ?app_assoc.
    + destruct (returncode res =? 0)%Z; simpl; by rewrite <- ?app_assoc.
  - by rewrite <- ?app_assoc.
Qed.

End GenRuns.

Section GenBranches.

Context (w : World).

Local Arguments Gen.squashfs_tools : simpl never.

(** The squashfs branch when the directory cannot be made. *)
Lemma gen_dispatch_squashfs_mkdir_fails (p d : Path) (st : State) (e : Exn) :
  Fs.mkdir_exist_ok (fs st) (PathOps.div d (PathOps.stem p +:+ "_squashfs")) = inl e ->
  Gen.dispatch w Squashfs p d st
  = (Raise e,
     with_log st [ Print ("[INFO] Found squashfs: " +:+ PathOps.str p);
                   Mkdir (PathOps.div d (PathOps.stem p +:+ "_squashfs")) ]).
Proof.
  intros Hmk. unfold Gen.dispatch, mkdir, with_log. run_monad. rewrite Hmk. simpl.
  by rewrite <- ?app_assoc.
Qed.

(** The squashfs branch once the directory is there: the two attempts
    in turn. *)
Lemma gen_dispatch_squashfs_run (p d : Path) (st : State) (t1 : FS) :
  let subdir := PathOps.div d (PathOps.stem p +:+ "_squashfs") in
  Fs.mkdir_exist_ok (fs st) subdir = inr t1 ->
  let line1 := unsquashfs_line subdir p in
  let line2 := sasquatch_line subdir p in
  let t2 := gen_attempt_fs w "unsquashfs" line1 t1 in
  let t3 := gen_attempt_fs w "sasquatch" line2 t2 in
  let head := [ Print ("[INFO] Found squashfs: " +:+ PathOps.str p); Mkdir subdir ]
              ++ gen_attempt_log w "unsquashfs" line1 t1 in
  let both := head ++ gen_attempt_log w "sasquatch" line2 t2 in
  Gen.dispatch w Squashfs p d st
  = match gen_attempt w "unsquashfs" line1 t1 with
    | Succeeded => (Ok (Some subdir), {| fs := t2; log := log st ++ head |})
    | Raised e => (Raise e, {| fs := t2; log := log st ++ head |})
    | Absent | Failed =>
        match gen_attempt w "sasquatch" line2 t2 with
        | Succeeded => (Ok (Some subdir), {| fs := t3; log := log st ++ both |})
        | Raised e => (Raise e, {| fs := t3; log := log st ++ both |})
        | Absent | Failed =>
            (Ok None,
             {| fs := t3;
                log := log st ++ both
                       ++ [Print ("[WARN] Could not extract squashfs file: "
                                  +:+ PathOps.str p)] |})
        end
    end.
Proof.
  intros subdir Hmk line1 line2 t2 t3 head both.
  unfold Gen.dispatch. fold subdir. unfold mkdir. run_monad. rewrite Hmk. simpl.
  rewrite gen_squashfs_tools_cons. cbv zeta. simpl fs. simpl log.
  change (tool_line "unsquashfs" subdir p) with line1. fold t2.
  destruct (gen_attempt w "unsquashfs" line1 t1);
    [ | unfold head; simpl; by rewrite <- ?app_assoc
      | | unfold head; simpl; by rewrite <- ?app_assoc ];
    (rewrite gen_squashfs_tools_cons; cbv zeta; simpl fs; simpl log;
     change (tool_line "sasquatch" subdir p) with line2; fold t3;
     destruct (gen_attempt w "sasquatch" line2 t2); simpl; unfold both, head;
     by rewrite <- ?app_assoc).
Qed.

Lemma gen_dispatch_jffs2_mkdir_fails (p d : Path) (st : State) (e : Exn) :
  Fs.mkdir_exist_ok (fs st) (PathOps.div d (PathOps.stem p +:+ "_jffs2")) = inl e ->
  Gen.dispatch w Jffs2 p d st
  = (Raise e,
     with_log st [ Print ("[INFO] Found jffs2: " +:+ PathOps.str p);
                   Mkdir (PathOps.div d (PathOps.stem p +:+ "_jffs2")) ]).
Proof.
  intros Hmk. unfold Gen.dispatch, mkdir, with_log. run_monad. rewrite Hmk. simpl.
  by rewrite <- ?app_assoc.
Qed.

(** The jffs2 branch once the directory is there. *)
Lemma gen_dispatch_jffs2_run (p d : Path) (st : State) (t1 : FS) :
  let subdir := PathOps.div d (PathOps.stem p +:+ "_jffs2") in
  let line := jefferson_line subdir p in
  Fs.mkdir_exist_ok (fs st) subdir = inr t1 ->
  Gen.dispatch w Jffs2 p d st
  = if which (base w) t1 "jefferson" then
      (match (run w (Tool line) None t1).1 with
       | inl e => Raise e
       | inr res => Ok (if (returncode res =? 0)%Z then Some subdir else None)
       end,
       {| fs := (run w (Tool line) None t1).2;
          log := log st ++ [ Print ("[INFO] Found jffs2: " +:+ PathOps.str p);
                             Mkdir subdir;
                             Which "jefferson";
                             Print ("[CMD] " +:+ line);
                             Run (Tool line) None ] |})
    else
      (Ok None,
       {| fs := t1;
          log := log st ++ [ Print ("[INFO] Found jffs2: " +:+ PathOps.str p);
                             Mkdir subdir;
                             Which "jefferson";
                             Print "[ERROR] Required tool 'jefferson' is not available. Please install it.";
                             Print "[WARN] jefferson not available for jffs2 extraction" ] |}).
Proof.
  intros subdir line Hmk.
  unfold Gen.dispatch, mkdir, check_tool_available, Gen.run_cmd, Gen.subprocess_run,
    succeeded.
  fold subdir line. run_monad. rewrite Hmk. simpl.
  destruct (which (base w) t1 "jefferson"); simpl.
  - destruct (run w (Tool line) None t1) as [[e|res] t']; simpl.
    + by rewrite <- ?app_assoc.
    + destruct (returncode res =? 0)%Z; simpl; by rewrite <- ?app_assoc.
  - by rewrite <- ?app_assoc.
Qed.

Lemma gen_dispatch_cpio_mkdir_fails (p d : Path) (st : State) (e : Exn) :
  Fs.mkdir_exist_ok (fs st) (PathOps.div d (PathOps.stem p +:+ "_cpio")) = inl e ->
  Gen.dispatch w Cpio p d st
  = (Raise e,
     with_log st [ Print ("[INFO] Found cpio: " +:+ PathOps.str p);
                   Mkdir (PathOps.div d (PathOps.stem p +:+ "_cpio")) ]).
Proof.
  intros Hmk. unfold Gen.dispatch, mkdir, with_log. run_monad. rewrite Hmk. simpl.
  by rewrite <- ?app_assoc.
Qed.

(** The cpio branch once the directory is there. *)
Lemma gen_dispatch_cpio_run (p d : Path) (st : State) (t1 : FS) :
  let subdir := PathOps.div d (PathOps.stem p +:+ "_cpio") in
  let line := cpio_line subdir p in
  Fs.mkdir_exist_ok (fs st) subdir = inr t1 ->
  Gen.dispatch w Cpio p d st
  = (match (run w (Tool line) None t1).1 with
     | inl e => Raise e
     | inr res => Ok (if (returncode res =? 0)%Z then Some subdir else None)
     end,
     {| fs := (run w (Tool line) None t1).2;
        log := log st ++ [ Print ("[INFO] Found cpio: " +:+ PathOps.str p);
                           Mkdir subdir;
                           Print ("[CMD] " +:+ line);
                           Run (Tool line) None ] |}).
Proof.
  intros subdir line Hmk.
  unfold Gen.dispatch, mkdir, Gen.run_cmd, Gen.subprocess_run, succeeded.
  fold subdir line. run_monad. rewrite Hmk. simpl.
  destruct (run w (Tool line) None t1) as [[e|res] t']; simpl.
  - by rewrite <- ?app_assoc.
  - destruct (returncode res =? 0)%Z; simpl; by rewrite <- ?app_assoc.
Qed.

(** What the inspection adds to the log: lines and its one run. *)
Lemma gen_inspection_log_quiet (t : FS) (p : Path) :
  Forall (fun e => (exists line, e = Print line) \/ e = Run (FileB p) None)
    (gen_inspection_log w t p).
Proof.
  unfold gen_inspection_log.
  destruct (run w (FileB p) None t).1 as [e|res]; [|destruct (returncode res =? 0)%Z];
    simpl; repeat (constructor; [first [by left; eexists | by right]|]); constructor.
Qed.

Lemma gen_inspection_log_no_warning (t : FS) (p : Path) :
  existsb is_warning (gen_inspection_log w t p) = false.
Proof.
  unfold gen_inspection_log.
  destruct (run w (FileB p) None t).1 as [e|res]; [|destruct (returncode res =? 0)%Z];
    reflexivity.
Qed.

End GenBranches.

(** ** The quiet world

    In the quiet world of an environment the dispatch is the one of the
    first part. *)

Section QuietWorld.

Context (env : Env).

Lemma bind_ext {A B} (m m' : M A) (f f' : A -> M B) (st : State) :
  m st = m' st -> (forall a st1, f a st1 = f' a st1) -> (m ≫= f) st = (m' ≫= f') st.
Proof.
  intros Hm Hf. unfold mbind, M_bind. rewrite Hm.
  destruct (m' st) as [[a|e|] st1]; [apply Hf|done..].
Qed.

Lemma quiet_run_cmd (cmd : Cmd) (check_error : bool) (cwd_ : option Path) (st : State) :
  Gen.run_cmd (quiet env) cmd check_error cwd_ st = run_cmd env cmd check_error cwd_ st.
Proof.
  unfold Gen.run_cmd, run_cmd. apply bind_ext; [done|]. intros _ st1.
  apply bind_ext; [|done].
  unfold Gen.subprocess_run, subprocess_run. run_monad.
  destruct cmd as [p|line]; simpl; [done|].
  by destruct (shell env line cwd_ (fs st1)) as [res t'].
Qed.

Lemma quiet_squashfs_tools (tools : list string) (subdir p : Path) (st : State) :
  Gen.squashfs_tools (quiet env) tools subdir p st = squashfs_tools env tools subdir p st.
Proof.
  revert st. induction tools as [|tool rest IH]; intros st; [done|].
  cbn [Gen.squashfs_tools squashfs_tools]. apply bind_ext; [done|].
  intros [|] st1; [|apply IH].
  apply bind_ext; [apply quiet_run_cmd|]. intros result st2.
  destruct (succeeded result); [done|]. apply bind_ext; [done|]. intros _ st3. apply IH.
Qed.

Lemma quiet_dispatch (signature : FormatSignature) (p d : Path) (st : State) :
  Gen.dispatch (quiet env) signature p d st = dispatch env signature p d st.
Proof.
  destruct signature; try done; unfold Gen.dispatch, dispatch; cbv zeta.
  - apply bind_ext; [done|]. intros _ st1. apply bind_ext; [done|]. intros _ st2.
    apply bind_ext; [apply quiet_squashfs_tools|done].
  - apply bind_ext; [done|]. intros _ st1. apply bind_ext; [done|]. intros _ st2.
    apply bind_ext; [done|]. intros [|] st3; [|done].
    apply bind_ext; [apply quiet_run_cmd|done].
  - apply bind_ext; [done|]. intros _ st1. apply bind_ext; [done|]. intros _ st2.
    apply bind_ext; [apply quiet_run_cmd|done].
Qed.

Lemma quiet_extract_nested_archives (p d : Path) (st : State) :
  Gen.extract_nested_archives (quiet env) p d st = extract_nested_archives env p d st.
Proof.
  unfold Gen.extract_nested_archives, extract_nested_archives.
  apply bind_ext; [done|]. intros _ st1.
  apply bind_ext; [apply quiet_run_cmd|]. intros file_cmd st2.
  destruct (succeeded file_cmd); [|done].
  apply bind_ext; [done|]. intros _ st3. apply quiet_dispatch.
Qed.

Lemma quiet_classify (t : FS) (p : Path) :
  gen_classify (quiet env) t p = (inr (classify env t p), t).
Proof. reflexivity. Qed.

End QuietWorld.

(** ** Names that are not [.] or [..] *)

Section DotNames.

Lemma dot_name_plain (d : Path) (nm : string) :
  nm <> "."%string -> nm <> ".."%string -> Fs.dot_name (d ++ [nm]) = false.
Proof.
  intros H1 H2. rewrite dot_name_div.
  destruct (String.eqb_spec nm ".") as [|_]; [done|].
  by destruct (String.eqb_spec nm "..") as [|_].
Qed.


End DotNames.

(** * The claims *)

(** C1. In every run of the recursive extraction pass, a path whose string
    contains one of the markers [_squashfs], [_jffs2], [_cpio],
    [.extracted] is never handed to [extract_nested_archives] and never
    inspected: among the events the pass adds to the log there is no visit
    and no [file -b] of such a path, at any depth and whether the pass
    ends, raises or runs out of fuel. *)
Theorem marked_paths_are_never_visited
    env fuel directory max_depth current_depth st :
  exists evs,
    log (recursive_extract env fuel directory max_depth current_depth st).2
      = log st ++ evs
    /\ forall p, has_marker p = true ->
         (forall depth, ~ In (Visit depth p) evs)
         /\ (forall cwd_, ~ In (Run (FileB p) cwd_) evs).
Proof.
  destruct (recursive_extract_emits env fuel directory max_depth current_depth st)
    as (evs & Hlog & Hall).
  exists evs. split; [done|]. intros p Hp.
  rewrite Forall_forall in Hall.
  split; [intros depth Hin | intros c Hin];
    apply list_elem_of_In, Hall in Hin; simpl in Hin;
    [destruct Hin as [_ Hin]|]; congruence.
Qed.

(** C2. The depth at which a file is visited is below the maximum depth
    the call was given, and a call entered when the current depth has
    reached the maximum returns at once: the tree and the log are as they
    were, so nothing was classified, dispatched or walked. *)
Theorem visits_stay_below_max_depth
    env fuel directory max_depth current_depth st :
  ((max_depth <= current_depth)%Z ->
     recursive_extract env fuel directory max_depth current_depth st
     = (Ok PyNone, st))
  /\ exists evs,
       log (recursive_extract env fuel directory max_depth current_depth st).2
         = log st ++ evs
       /\ forall depth p, In (Visit depth p) evs ->
            (current_depth <= depth < max_depth)%Z.
Proof.
  split; [apply recursive_extract_at_bound|].
  destruct (recursive_extract_emits env fuel directory max_depth current_depth st)
    as (evs & Hlog & Hall).
  exists evs. split; [done|]. intros depth p Hin.
  rewrite Forall_forall in Hall.
  apply list_elem_of_In, Hall in Hin. simpl in Hin. tauto.
Qed.

(** C8, as the code has it. A call entered at or beyond the depth bound
    takes the bare [return] and gives [None], which is no boolean; only a
    call entered below the bound gives a boolean when it returns. *)
Theorem return_value_is_none_at_the_bound
    env fuel directory max_depth current_depth st :
  ((max_depth <= current_depth)%Z ->
     recursive_extract env fuel directory max_depth current_depth st
     = (Ok PyNone, st))
  /\ ((current_depth < max_depth)%Z ->
      forall v,
        (recursive_extract env fuel directory max_depth current_depth st).1 = Ok v ->
        exists b, v = PyBool b).
Proof.
  split; [apply recursive_extract_at_bound|].
  intros H v. by apply recursive_extract_below_bound.
Qed.

(** C4, as the code has it. In the cpio branch the directory is made
    outside any [try]: when [mkdir] raises (a file of that name is in the
    way, say), the exception leaves [extract_nested_archives]; and when
    the directory is there and [cpio] exits with a code other than 0, the
    outcome is "no extraction" and no warning is printed. *)
Theorem cpio_dispatch_raises_or_fails_silently
    (env : Env) (p d : Path) (st : State) :
  classify env (fs st) p = Cpio ->
  let subdir := PathOps.div d (PathOps.stem p +:+ "_cpio") in
  let r := (extract_nested_archives env p d st).1 in
  let st' := (extract_nested_archives env p d st).2 in
  (forall e, Fs.mkdir_exist_ok (fs st) subdir = inl e -> r = Raise e)
  /\ (forall t1, Fs.mkdir_exist_ok (fs st) subdir = inr t1 ->
      (returncode (shell env (cpio_line subdir p) None t1).1 =? 0)%Z = false ->
      r = Ok None
      /\ exists evs, log st' = log st ++ evs /\ existsb is_warning evs = false).
Proof.
  intros Hsig subdir r st'. subst r st'.
  rewrite extract_nested_archives_run, Hsig. split.
  - intros e Hmk.
    by rewrite (dispatch_cpio_mkdir_fails env p d
                  (with_log st (inspection_log env (fs st) p)) e Hmk).
  - intros t1 Hmk Hrc.
    pose proof (dispatch_cpio_run env p d
                  (with_log st (inspection_log env (fs st) p)) t1 Hmk) as Hrun.
    cbv zeta in Hrun. fold subdir in Hrun. rewrite Hrun, Hrc. simpl.
    split; [done|]. eexists. split; [by rewrite <- app_assoc|].
    rewrite existsb_app, inspection_log_no_warning. reflexivity.
Qed.




(** C6, as the code has it. For a file of signature Squashfs, the
    directory [<stem>_squashfs] is made before any tool is looked up or
    run. Once it is there, [unsquashfs] comes first: when it is installed
    and its run gives back an exit status of 0 the outcome is the
    directory and [sasquatch] is not touched; when it is missing or its
    run gives back another exit status, [sasquatch] is looked up next,
    run when it is installed, and the outcome is the directory when it
    exits with 0 and "no extraction" when it is missing or exits with
    another status. The run of a tool is outside any [try]: when the run
    of [unsquashfs] raises, the exception leaves
    [extract_nested_archives] and [sasquatch] is not looked up; when the
    run of [sasquatch] raises, the exception leaves it as well. *)
Theorem squashfs_falls_back_unless_a_run_raises (w : World) (p d : Path) (st : State) :
  (gen_classify w (fs st) p).1 = inr Squashfs ->
  let t0 := (gen_classify w (fs st) p).2 in
  let subdir := PathOps.div d (PathOps.stem p +:+ "_squashfs") in
  let line1 := unsquashfs_line subdir p in
  let line2 := sasquatch_line subdir p in
  let r := (Gen.extract_nested_archives w p d st).1 in
  let st' := (Gen.extract_nested_archives w p d st).2 in
  exists pre post,
    log st' = log st ++ pre ++ Mkdir subdir :: post
    /\ Forall (fun e => ~ tool_event e) pre
    /\ forall t1, Fs.mkdir_exist_ok t0 subdir = inr t1 ->
         let t2 := gen_attempt_fs w "unsquashfs" line1 t1 in
         match gen_attempt w "unsquashfs" line1 t1 with
         | Succeeded =>
             r = Ok (Some subdir)
             /\ post = gen_attempt_log w "unsquashfs" line1 t1
             /\ ~ In (Which "sasquatch") post
         | Raised e =>
             r = Raise e
             /\ post = gen_attempt_log w "unsquashfs" line1 t1
             /\ ~ In (Which "sasquatch") post
         | Absent | Failed =>
             exists tail,
               post = gen_attempt_log w "unsquashfs" line1 t1
                      ++ gen_attempt_log w "sasquatch" line2 t2 ++ tail
               /\ In (Which "sasquatch") post
               /\ (which (base w) t2 "sasquatch" = true ->
                   In (Run (Tool line2) None) post)
               /\ r = match gen_attempt w "sasquatch" line2 t2 with
                      | Succeeded => Ok (Some subdir)
                      | Raised e => Raise e
                      | Absent | Failed => Ok None
                      end
         end.
Proof.
  intros Hsig t0 subdir line1 line2 r st'. subst r st'.
  rewrite gen_extract_nested_archives_run, Hsig. fold t0.
  set (st0 := {| fs := t0; log := log st ++ gen_inspection_log w (fs st) p |}).
  exists (gen_inspection_log w (fs st) p
          ++ [Print ("[INFO] Found squashfs: " +:+ PathOps.str p)]).
  assert (Hpre : Forall (fun e => ~ tool_event e)
                   (gen_inspection_log w (fs st) p
                    ++ [Print ("[INFO] Found squashfs: " +:+ PathOps.str p)])).
  { apply Forall_app. split; [|constructor; [simpl; tauto | constructor]].
    eapply Forall_impl; [apply gen_inspection_log_quiet|].
    intros e [[line ->]| ->]; simpl; tauto. }
  destruct (Fs.mkdir_exist_ok t0 subdir) as [e|t1] eqn:Hmk.
  - rewrite (gen_dispatch_squashfs_mkdir_fails w p d st0 e Hmk).
    exists []. simpl. split; [by rewrite <- ?app_assoc|]. split; [done|]. done.
  - pose proof (gen_dispatch_squashfs_run w p d st0 t1 Hmk) as Hrun.
    cbv zeta in Hrun. fold subdir line1 line2 in Hrun. rewrite Hrun. clear Hrun.
    set (t2 := gen_attempt_fs w "unsquashfs" line1 t1).
    assert (Honly : ~ In (Which "sasquatch") (gen_attempt_log w "unsquashfs" line1 t1)).
    { unfold gen_attempt_log.
      destruct (which (base w) t1 "unsquashfs"); simpl;
        [destruct (run w (Tool line1) None t1).1; simpl|]; intuition congruence. }
    assert (Hin : forall tail,
               In (Which "sasquatch")
                 (gen_attempt_log w "unsquashfs" line1 t1
                  ++ gen_attempt_log w "sasquatch" line2 t2 ++ tail)).
    { intros tail. rewrite !in_app_iff. right. left. unfold gen_attempt_log. by left. }
    assert (Hran : forall tail, which (base w) t2 "sasquatch" = true ->
               In (Run (Tool line2) None)
                 (gen_attempt_log w "unsquashfs" line1 t1
                  ++ gen_attempt_log w "sasquatch" line2 t2 ++ tail)).
    { intros tail Hw. rewrite !in_app_iff. right. left. unfold gen_attempt_log.
      rewrite Hw. simpl. tauto. }
    destruct (gen_attempt w "unsquashfs" line1 t1) eqn:Hfirst.
    + destruct (gen_attempt w "sasquatch" line2 t2) eqn:Hsecond;
        [ exists (gen_attempt_log w "unsquashfs" line1 t1
                  ++ gen_attempt_log w "sasquatch" line2 t2
                  ++ [Print ("[WARN] Could not extract squashfs file: " +:+ PathOps.str p)])
        | exists (gen_attempt_log w "unsquashfs" line1 t1
                  ++ gen_attempt_log w "sasquatch" line2 t2 ++ [])
        | exists (gen_attempt_log w "unsquashfs" line1 t1
                  ++ gen_attempt_log w "sasquatch" line2 t2
                  ++ [Print ("[WARN] Could not extract squashfs file: " +:+ PathOps.str p)])
        | exists (gen_attempt_log w "unsquashfs" line1 t1
                  ++ gen_attempt_log w "sasquatch" line2 t2 ++ []) ];
        (split; [simpl; by rewrite <- ?app_assoc, ?app_nil_r|]; split; [done|];
         intros t1' [= <-]; cbv zeta; rewrite Hfirst; eexists; fold t2; rewrite Hsecond; auto).
    + exists (gen_attempt_log w "unsquashfs" line1 t1).
      split; [simpl; by rewrite <- ?app_assoc|]. split; [done|].
      intros t1' [= <-]. cbv zeta. by rewrite Hfirst.
    + destruct (gen_attempt w "sasquatch" line2 t2) eqn:Hsecond;
        [ exists (gen_attempt_log w "unsquashfs" line1 t1
                  ++ gen_attempt_log w "sasquatch" line2 t2
                  ++ [Print ("[WARN] Could not extract squashfs file: " +:+ PathOps.str p)])
        | exists (gen_attempt_log w "unsquashfs" line1 t1
                  ++ gen_attempt_log w "sasquatch" line2 t2 ++ [])
        | exists (gen_attempt_log w "unsquashfs" line1 t1
                  ++ gen_attempt_log w "sasquatch" line2 t2
                  ++ [Print ("[WARN] Could not extract squashfs file: " +:+ PathOps.str p)])
        | exists (gen_attempt_log w "unsquashfs" line1 t1
                  ++ gen_attempt_log w "sasquatch" line2 t2 ++ []) ];
        (split; [simpl; by rewrite <- ?app_assoc, ?app_nil_r|]; split; [done|];
         intros t1' [= <-]; cbv zeta; rewrite Hfirst; eexists; fold t2; rewrite Hsecond; auto).
    + exists (gen_attempt_log w "unsquashfs" line1 t1).
      split; [simpl; by rewrite <- ?app_assoc|]. split; [done|].
      intros t1' [= <-]. cbv zeta. by rewrite Hfirst.
Qed.

(** C7, as the code has it. For a file of signature [Unknown] (the
    inspection ran and failed, or its output matches no rule)
    [extract_nested_archives] returns [None], and all it has done is to
    print and to run the one command line [file -b '<path>']: the tree
    afterwards is the tree that run has left. It is the tree of before
    when the run has only read; the command line goes through the shell
    with the path not escaped, so that it is the path that decides what
    the run does. *)
Theorem unknown_signature_leaves_the_tree_to_the_inspection
    (w : World) (p d : Path) (st : State) :
  (gen_classify w (fs st) p).1 = inr Unknown ->
  Gen.extract_nested_archives w p d st
  = (Ok None,
     {| fs := (run w (FileB p) None (fs st)).2;
        log := log st ++ gen_inspection_log w (fs st) p |})
  /\ Forall (fun e => (exists line, e = Print line) \/ e = Run (FileB p) None)
       (gen_inspection_log w (fs st) p)
  /\ ((run w (FileB p) None (fs st)).2 = fs st ->
      fs (Gen.extract_nested_archives w p d st).2 = fs st).
Proof.
  intros Hsig. rewrite gen_extract_nested_archives_run, Hsig.
  split; [done|]. split; [apply gen_inspection_log_quiet|]. done.
Qed.

(** C9. For a regular file [d/nm] of signature Gzip, the path opened for
    writing is [with_suffix('')] of the source, that is the directory [d]
    with the stem of the name, and the name itself is never looked at.
    Where the stem differs from the name, as for [foo.tar], whose stem is
    [foo], and the file of that name in [d] is free or a regular file,
    this file ends holding what the decoder makes of the content of the
    source, everything else in the tree is as the inspection has left it,
    and its path is returned when the content decodes. A name without a
    dot gives the source path itself: the source is emptied before it is
    read, it ends holding what the decoder makes of an empty file, and
    its own path is returned when an empty file decodes. *)
Theorem gzip_output_name_is_the_stem
    (w : World) (t : FS) (lg : list Event) (d : Path) (nm c : string) :
  nm <> EmptyString -> nm <> "."%string -> nm <> ".."%string ->
  let p := d ++ [nm] in
  let t0 := (gen_classify w t p).2 in
  (gen_classify w t p).1 = inr Gzip ->
  t0 !! p = Some (File c) ->
  let r := (Gen.extract_nested_archives w p d {| fs := t; log := lg |}).1 in
  let st' := (Gen.extract_nested_archives w p d {| fs := t; log := lg |}).2 in
  let out := d ++ [PathOps.stem p] in
  PathOps.with_suffix_empty p = Some out
  /\ In (OpenWrite out) (log st')
  /\ (nm = "foo.tar"%string -> PathOps.stem p = "foo"%string)
  /\ (PathOps.stem p <> nm ->
      Fs.dot_name out = false ->
      (t0 !! out = None /\ Fs.is_dir t0 d = true) \/ (exists c', t0 !! out = Some (File c')) ->
      fs st' = <[out := File (decoded (gunzip (base w) c))]> t0
      /\ (forall payload, gunzip (base w) c = GzOk payload -> r = Ok (Some out))
      /\ (forall partial e, gunzip (base w) c = GzErr partial e ->
          (forall code, e <> SystemExit code) -> r = Ok None))
  /\ (Str.contains "." nm = false ->
      PathOps.stem p = nm
      /\ fs st' = <[p := File (decoded (gunzip (base w) EmptyString))]> t0
      /\ (forall payload, gunzip (base w) EmptyString = GzOk payload -> r = Ok (Some p))
      /\ (forall partial e, gunzip (base w) EmptyString = GzErr partial e ->
          (forall code, e <> SystemExit code) -> r = Ok None)).
Proof.
  intros Hnm Hdot1 Hdot2 p t0 Hsig Hfile r st' out.
  assert (Hname : PathOps.with_suffix_empty p = Some out).
  { unfold p, out. rewrite with_suffix_empty_stem by (by rewrite name_div).
    by rewrite parent_div. }
  assert (Hin : Fs.open_rb t0 p = inr p)
    by (apply (open_rb_file _ _ _ c); [by apply dot_name_plain | done]).
  assert (Hrun : Gen.extract_nested_archives w p d {| fs := t; log := lg |}
                 = dispatch (base w) Gzip p d
                     {| fs := t0; log := lg ++ gen_inspection_log w t p |}).
  { rewrite gen_extract_nested_archives_run. simpl fs. rewrite Hsig.
    by rewrite gen_dispatch_gzip. }
  assert (Hcontent : forall src,
            Fs.open_wb t0 out = inr (out, <[out := File EmptyString]> t0) ->
            Fs.content_at (<[out := File EmptyString]> t0) p = src ->
            fs st' = <[out := File (decoded (gunzip (base w) src))]> t0
            /\ (forall payload, gunzip (base w) src = GzOk payload -> r = Ok (Some out))
            /\ (forall partial e, gunzip (base w) src = GzErr partial e ->
                (forall code, e <> SystemExit code) -> r = Ok None)).
  { intros src Hout Hread. unfold st', r. rewrite Hrun. split; [|split].
    - erewrite dispatch_gzip_writes; [| exact Hin | exact Hname | exact Hout].
      by rewrite Hread, insert_insert_eq.
    - intros payload Hgz.
      erewrite dispatch_gzip_ok; [done | exact Hin | exact Hname | exact Hout |].
      by rewrite Hread.
    - intros partial e Hgz He.
      erewrite dispatch_gzip_err; [done | exact Hin | exact Hname | exact Hout | | exact He].
      by rewrite Hread. }
  split; [done|]. split; [|split; [|split]].
  - unfold st'. rewrite Hrun.
    destruct (dispatch_gzip_opens (base w) p d
                {| fs := t0; log := lg ++ gen_inspection_log w t p |}
                p out Hin Hname) as [rest ->].
    rewrite !in_app_iff. right. left. simpl. tauto.
  - intros ->. apply (stem_ext d "foo" ".tar"); [done | done | simpl; lia].
  - intros Hstem Hplain Hfree. apply Hcontent.
    + destruct Hfree as [[Hnone Hdir]|[c' Hc']];
        [by apply open_wb_new | by eapply open_wb_file].
    + unfold Fs.content_at. rewrite lookup_insert_ne, Hfile; [done|].
      unfold out, p. intros Heq. apply app_inv_head in Heq. by injection Heq.
  - intros Hdot.
    assert (Hstem : PathOps.stem p = nm).
    { pose proof (with_suffix_empty_no_dot d nm Hnm Hdot) as H.
      fold p in H. rewrite Hname in H. injection H as H.
      by apply app_inv_head in H as [= ->]. }
    split; [done|].
    assert (Hsame : out = p) by (unfold out; by rewrite Hstem).
    rewrite <- Hsame. apply Hcontent.
    + rewrite Hsame. apply (open_wb_file _ _ _ c); [by apply dot_name_plain | done].
    + rewrite Hsame. unfold Fs.content_at. by rewrite lookup_insert_eq.
Qed.

(** * The claims at work in the laboratory *)

Lemma marked_paths_are_never_visited_witness :
  exists evs,
    log (recursive_extract (Lab.env ["sasquatch"]) 50 ["out"; "_fw"] 5 0
           (initial Lab.tree)).2 = [] ++ evs
    /\ (forall depth, ~ In (Visit depth ["out"; "_fw"; "prev_cpio"; "sh"]) evs).
Proof.
  destruct (marked_paths_are_never_visited (Lab.env ["sasquatch"]) 50
              ["out"; "_fw"] 5 0 (initial Lab.tree)) as (evs & Hlog & Hskip).
  exists evs. split; [exact Hlog|].
  apply (Hskip ["out"; "_fw"; "prev_cpio"; "sh"]). vm_compute. reflexivity.
Defined.

Lemma visits_stay_below_max_depth_witness :
  (5 <= 5)%Z
  /\ recursive_extract (Lab.env []) 50 ["out"; "_fw"] 5 5 (initial Lab.tree)
     = (Ok PyNone, initial Lab.tree).
Proof.
  split; [lia|].
  apply (proj1 (visits_stay_below_max_depth (Lab.env []) 50 ["out"; "_fw"] 5 5
                  (initial Lab.tree))).
  lia.
Defined.

Lemma return_value_is_none_at_the_bound_witness :
  (0 <= 0)%Z
  /\ recursive_extract (Lab.env []) 50 ["out"; "_fw"] 0 0 (initial Lab.tree)
     = (Ok PyNone, initial Lab.tree).
Proof.
  split; [lia|].
  apply (proj1 (return_value_is_none_at_the_bound (Lab.env []) 50 ["out"; "_fw"] 0 0
                  (initial Lab.tree))).
  lia.
Defined.


Lemma cpio_dispatch_raises_or_fails_silently_witness :
  (extract_nested_archives (Lab.env []) ["out"; "_fw"; "init.cpio"]
     ["out"; "_fw"] (initial Lab.tree_in_the_way)).1 = Raise FileExistsError
  /\ (extract_nested_archives (Lab.env []) ["out"; "_fw"; "init.cpio"]
        ["out"; "_fw"] (initial Lab.tree)).1 = Ok None.
Proof.
  split.
  - assert (Hsig : classify (Lab.env []) (fs (initial Lab.tree_in_the_way))
                     ["out"; "_fw"; "init.cpio"] = Cpio)
      by (vm_compute; reflexivity).
    pose proof (cpio_dispatch_raises_or_fails_silently (Lab.env [])
                  ["out"; "_fw"; "init.cpio"] ["out"; "_fw"]
                  (initial Lab.tree_in_the_way) Hsig) as H.
    cbv zeta in H. destruct H as [H _]. apply H.
    apply (mkdir_exist_ok_file _ ["out"; "_fw"] "init_cpio" "in the way").
    vm_compute. reflexivity.
  - assert (Hsig : classify (Lab.env []) (fs (initial Lab.tree))
                     ["out"; "_fw"; "init.cpio"] = Cpio)
      by (vm_compute; reflexivity).
    pose proof (cpio_dispatch_raises_or_fails_silently (Lab.env [])
                  ["out"; "_fw"; "init.cpio"] ["out"; "_fw"]
                  (initial Lab.tree) Hsig) as H.
    cbv zeta in H. destruct H as [_ H].
    assert (Hmk : Fs.mkdir_exist_ok Lab.tree (PathOps.div ["out"; "_fw"] "init_cpio")
                  = inr (<[PathOps.div ["out"; "_fw"] "init_cpio" := Dir]> Lab.tree))
      by (apply mkdir_exist_ok_new; vm_compute; reflexivity).
    apply (H _ Hmk). reflexivity.
Defined.



(** A walk that goes down: the archive of [Lab.nested] unpacks into its
    own directory, so each call walks that directory again one level
    deeper; both files are visited at the depths 0 to 4 and at no other. *)
Example lab_walk_stops_at_the_bound :
  (recursive_extract (Lab.env []) 200 ["r"] 5 0 (initial Lab.nested)).1
    = Ok (PyBool true)
  /\ Lab.visit_depths
       (log (recursive_extract (Lab.env []) 200 ["r"] 5 0 (initial Lab.nested)).2)
     = [0; 1; 2; 3; 4; 4; 3; 2; 1; 0]%Z.
Proof. vm_compute. split; reflexivity. Qed.

(** The walk of the laboratory lists a directory once, so it ends: there
    the recursive pass needs no more than some finite fuel. *)
Corollary lab_recursive_extract_terminates
    (installed : list string) (directory : Path) (max_depth current_depth : Z)
    (st : State) :
  exists fuel r, r.1 <> OutOfFuel
    /\ forall fuel', fuel <= fuel' ->
         recursive_extract (Lab.env installed) fuel' directory
           max_depth current_depth st = r.
Proof.
  apply (recursive_extract_terminates (Lab.env installed)
           (fun w : list Path => length w)).
  intros t [|q w] p w'; simpl; [done|]. intros [= _ <-]. lia.
Qed.

Lemma unknown_signature_leaves_the_tree_to_the_inspection_witness :
  (Gen.extract_nested_archives (Worlds.shell_world [])
     ["srv"; "in"; Worlds.quoting_name] ["srv"; "in"] (initial Worlds.inbox)).1
  = Ok None
  /\ Worlds.inbox !! ["home"; "pwned"] = None
  /\ fs (Gen.extract_nested_archives (Worlds.shell_world [])
           ["srv"; "in"; Worlds.quoting_name] ["srv"; "in"] (initial Worlds.inbox)).2
     !! ["home"; "pwned"] = Some (File "").
Proof.
  assert (Hsig : (gen_classify (Worlds.shell_world []) (fs (initial Worlds.inbox))
                    ["srv"; "in"; Worlds.quoting_name]).1 = inr Unknown)
    by (vm_compute; reflexivity).
  destruct (unknown_signature_leaves_the_tree_to_the_inspection (Worlds.shell_world [])
              ["srv"; "in"; Worlds.quoting_name] ["srv"; "in"]
              (initial Worlds.inbox) Hsig) as (Hcall & _ & _).
  rewrite Hcall. simpl fst. simpl snd. simpl fs.
  split; [reflexivity|]. split; vm_compute; reflexivity.
Defined.


Lemma gzip_output_name_is_the_stem_witness :
  PathOps.stem (["dl"] ++ ["foo.tar"]) = "foo"
  /\ fs (Gen.extract_nested_archives (quiet (Lab.env [])) (["dl"] ++ ["foo.tar"]) ["dl"]
           {| fs := Worlds.downloads; log := [] |}).2
     = <[["dl"] ++ ["foo"] := File "ustar...."]> Worlds.downloads
  /\ (Gen.extract_nested_archives (quiet (Lab.env [])) (["dl"] ++ ["foo.tar"]) ["dl"]
        {| fs := Worlds.downloads; log := [] |}).1
     = Ok (Some (["dl"] ++ ["foo"])).
Proof.
  pose proof (gzip_output_name_is_the_stem (quiet (Lab.env [])) Worlds.downloads []
                ["dl"] "foo.tar" "GZ:ustar....") as H.
  cbv zeta in H.
  assert (Hnm : "foo.tar"%string <> EmptyString) by discriminate.
  assert (Hdot1 : "foo.tar"%string <> "."%string) by discriminate.
  assert (Hdot2 : "foo.tar"%string <> ".."%string) by discriminate.
  assert (Hsig : (gen_classify (quiet (Lab.env [])) Worlds.downloads
                    (["dl"] ++ ["foo.tar"])).1 = inr Gzip)
    by (vm_compute; reflexivity).
  assert (Hfile : (gen_classify (quiet (Lab.env [])) Worlds.downloads
                     (["dl"] ++ ["foo.tar"])).2
                  !! (["dl"] ++ ["foo.tar"]) = Some (File "GZ:ustar...."))
    by (vm_compute; reflexivity).
  destruct (H Hnm Hdot1 Hdot2 Hsig Hfile) as (_ & _ & Hfoo & Hdotted & _).
  pose proof (Hfoo eq_refl) as Hstem.
  rewrite Hstem in Hdotted.
  assert (Hne : "foo"%string <> "foo.tar"%string) by discriminate.
  assert (Hplain : Fs.dot_name (["dl"] ++ ["foo"]) = false) by reflexivity.
  assert (Hnone : (gen_classify (quiet (Lab.env [])) Worlds.downloads
                     (["dl"] ++ ["foo.tar"])).2 !! (["dl"] ++ ["foo"]) = None)
    by (vm_compute; reflexivity).
  assert (Hdir : Fs.is_dir (gen_classify (quiet (Lab.env [])) Worlds.downloads
                              (["dl"] ++ ["foo.tar"])).2 ["dl"] = true)
    by (vm_compute; reflexivity).
  destruct (Hdotted Hne Hplain (or_introl (conj Hnone Hdir))) as (Hfs & Hok & _).
  split; [exact Hstem|]. split; [exact Hfs|].
  apply (Hok "ustar...."%string). reflexivity.
Defined.

Lemma squashfs_falls_back_unless_a_run_raises_witness :
  exists pre post,
    log (Gen.extract_nested_archives (Worlds.garbled ["unsquashfs"; "sasquatch"])
           ["out"; "_fw"; "rootfs"] ["out"; "_fw"] (initial Lab.tree)).2
    = [] ++ pre ++ Mkdir (PathOps.div ["out"; "_fw"] "rootfs_squashfs") :: post
    /\ ~ In (Which "sasquatch") post
    /\ (Gen.extract_nested_archives (Worlds.garbled ["unsquashfs"; "sasquatch"])
          ["out"; "_fw"; "rootfs"] ["out"; "_fw"] (initial Lab.tree)).1
       = Raise (Failure "UnicodeDecodeError"
                  "'utf-8' codec can't decode byte 0xff in position 0: invalid start byte").
Proof.
  assert (Hsig : (gen_classify (Worlds.garbled ["unsquashfs"; "sasquatch"])
                    (fs (initial Lab.tree)) ["out"; "_fw"; "rootfs"]).1 = inr Squashfs)
    by (vm_compute; reflexivity).
  pose proof (squashfs_falls_back_unless_a_run_raises
                (Worlds.garbled ["unsquashfs"; "sasquatch"])
                ["out"; "_fw"; "rootfs"] ["out"; "_fw"] (initial Lab.tree) Hsig) as H.
  cbv zeta in H. destruct H as (pre & post & Hlog & _ & Hrun).
  exists pre, post. split; [exact Hlog|].
  assert (Hmk : Fs.mkdir_exist_ok Lab.tree (PathOps.div ["out"; "_fw"] "rootfs_squashfs")
                = inr (<[PathOps.div ["out"; "_fw"] "rootfs_squashfs" := Dir]> Lab.tree))
    by (apply mkdir_exist_ok_new; vm_compute; reflexivity).
  specialize (Hrun _ Hmk).
  destruct Hrun as (Hr & _ & Hnot).
  split; [exact Hnot | exact Hr].
Defined.

(** * Further properties of the code *)

(** ** Markers along a path *)

Section MarkerFacts.

Lemma prefix_app (x s t : string) :
  String.prefix x s = true -> String.prefix x (s +:+ t) = true.
Proof.
  revert s. induction x as [|a x IH]; intros [|b s]; simpl; try done.
  - by destruct t.
  - destruct (ascii_dec a b); [apply IH|done].
Qed.

Lemma contains_app_l (x s t : string) :
  Str.contains x s = true -> Str.contains x (s +:+ t) = true.
Proof.
  induction s as [|b s IH].
  - simpl. rewrite orb_false_r. intros H. destruct x; [by destruct t|done].
  - change (String b s +:+ t) with (String b (s +:+ t)).
    cbn [Str.contains]. rewrite !orb_true_iff. intros [H|H].
    + left. by apply (prefix_app x (String b s) t).
    + right. by apply IH.
Qed.

Lemma contains_app_r (x s t : string) :
  Str.contains x t = true -> Str.contains x (s +:+ t) = true.
Proof.
  intros H. induction s as [|b s IH]; [done|].
  change (String b s +:+ t) with (String b (s +:+ t)).
  cbn [Str.contains]. rewrite IH. apply orb_true_r.
Qed.

Lemma prefix_refl (x : string) : String.prefix x x = true.
Proof. induction x as [|a x IH]; simpl; [done|]. by destruct (ascii_dec a a). Qed.

Lemma contains_refl (x : string) : Str.contains x x = true.
Proof. destruct x; simpl; [done|]. rewrite prefix_refl. by destruct (ascii_dec a a). Qed.

Lemma any_in_app_l (xs : list string) (s t : string) :
  Str.any_in xs s = true -> Str.any_in xs (s +:+ t) = true.
Proof.
  unfold Str.any_in. rewrite !existsb_exists.
  intros (x & Hin & Hx). exists x. split; [done|]. by apply contains_app_l.
Qed.

Lemma any_in_app_r (xs : list string) (s t : string) :
  Str.any_in xs t = true -> Str.any_in xs (s +:+ t) = true.
Proof.
  unfold Str.any_in. rewrite !existsb_exists.
  intros (x & Hin & Hx). exists x. split; [done|]. by apply contains_app_r.
Qed.

Lemma str_app_assoc (a b c : string) : (a +:+ b) +:+ c = a +:+ (b +:+ c).
Proof.
  induction a as [|x a IH]; [done|].
  change (String x ((a +:+ b) +:+ c) = String x (a +:+ (b +:+ c))). by rewrite IH.
Qed.

Lemma join_div (a : string) (d : Path) (c : string) :
  Str.join "/" ((a :: d) ++ [c]) = Str.join "/" (a :: d) +:+ "/" +:+ c.
Proof.
  revert a. induction d as [|b d IH]; intros a; [done|].
  change (Str.join "/" ((a :: b :: d) ++ [c]))
    with (a +:+ "/" +:+ Str.join "/" ((b :: d) ++ [c])).
  rewrite IH.
  change (Str.join "/" (a :: b :: d)) with (a +:+ "/" +:+ Str.join "/" (b :: d)).
  by rewrite !str_app_assoc.
Qed.

Lemma str_div (d : Path) (c : string) :
  PathOps.str (d ++ [c])
  = match d with
    | [] => "/" +:+ c
    | _ => PathOps.str d +:+ "/" +:+ c
    end.
Proof.
  unfold PathOps.str. destruct d as [|a d]; [done|].
  by rewrite join_div, !str_app_assoc.
Qed.

Lemma has_marker_div (d : Path) (c : string) :
  has_marker d = true -> has_marker (d ++ [c]) = true.
Proof.
  unfold has_marker. rewrite str_div. destruct d as [|a d]; [done|].
  apply any_in_app_l.
Qed.

Lemma has_marker_name (d : Path) (c : string) :
  Str.any_in markers c = true -> has_marker (d ++ [c]) = true.
Proof.
  unfold has_marker. rewrite str_div. intros H.
  destruct d as [|a d]; [by apply any_in_app_r|].
  apply any_in_app_r. by apply any_in_app_r.
Qed.

(** A marker in a path marks everything below it: the test is on the
    whole path string. *)
Lemma has_marker_prefix (d p : Path) :
  has_marker d = true -> d `prefix_of` p -> has_marker p = true.
Proof.
  intros Hd [rest ->]. induction rest as [|c rest IH] using rev_ind.
  - by rewrite app_nil_r.
  - rewrite app_assoc. by apply has_marker_div.
Qed.

Lemma contains_drop (x s : string) (n : nat) :
  Str.contains x (Str.drop n s) = true -> Str.contains x s = true.
Proof.
  revert s. induction n as [|n IH]; intros [|b s]; simpl; try done.
  intros H. rewrite (IH s H). apply orb_true_r.
Qed.

Lemma endswith_contains (s x : string) :
  Str.endswith s x = true -> Str.contains x s = true.
Proof.
  unfold Str.endswith. rewrite andb_true_iff. intros [H _].
  apply String.eqb_eq in H.
  apply (contains_drop x s (String.length s - String.length x)).
  rewrite H. apply contains_refl.
Qed.

End MarkerFacts.

(** X7. The marker test is on the whole path string: a path with a
    marker in any of its components is marked, so a file is skipped for
    the name of a directory above it as it is for its own. *)
Theorem marker_in_a_component_marks_the_path (p : Path) (c : string) :
  In c p -> Str.any_in markers c = true -> has_marker p = true.
Proof.
  intros Hin Hc. apply in_split in Hin as (l1 & l2 & ->).
  apply (has_marker_prefix (l1 ++ [c])).
  - by apply has_marker_name.
  - exists l2. by rewrite <- app_assoc.
Qed.

(** ** Walks that visit nothing *)

Section IdleWalks.

Context (env : Env).

(** A loop over a walk that yields marked paths only. *)
Lemma extract_loop_all_marked (I : Walker env -> Prop) fuel recurse current_depth
    (w : Walker env) acc st :
  I w ->
  (forall t w p w', I w -> walk_next env t w = Some (p, w') ->
                    has_marker p = true /\ I w') ->
  (extract_loop env fuel recurse current_depth w acc st).2 = st
  /\ ((extract_loop env fuel recurse current_depth w acc st).1 = Ok (PyBool acc)
      \/ (extract_loop env fuel recurse current_depth w acc st).1 = OutOfFuel).
Proof.
  intros Hw Hstep. revert w Hw.
  induction fuel as [|fuel IH]; intros w Hw; simpl; [by auto|].
  unfold mbind, M_bind, get_fs.
  destruct (walk_next env (fs st) w) as [[p w']|] eqn:Hnext; simpl; [|by auto].
  destruct (Hstep _ _ _ _ Hw Hnext) as [Hp Hw'].
  rewrite Hp. destruct (Fs.is_file (fs st) p); by apply IH.
Qed.

End IdleWalks.

(** The walk of a marked directory, when it yields only what is below
    the directory. *)
Lemma recursive_extract_marked
    (env : Env) (I : Walker env -> Prop) (fuel : nat) (directory : Path)
    (max_depth current_depth : Z) (st : State) :
  has_marker directory = true ->
  I (walk_start env (fs st) directory) ->
  (forall t w p w', I w -> walk_next env t w = Some (p, w') ->
                    directory `prefix_of` p /\ I w') ->
  (recursive_extract env fuel directory max_depth current_depth st).2 = st
  /\ ((recursive_extract env fuel directory max_depth current_depth st).1 = Ok PyNone
      \/ (recursive_extract env fuel directory max_depth current_depth st).1
         = Ok (PyBool false)
      \/ (recursive_extract env fuel directory max_depth current_depth st).1
         = OutOfFuel).
Proof.
  intros Hmark Hstart Hstep.
  destruct fuel as [|fuel]; simpl;
    destruct (Z.leb_spec max_depth current_depth); try by auto.
  unfold mbind at 1 2 3 4, M_bind at 1 2 3 4, get_fs.
  destruct (extract_loop_all_marked env I fuel
              (fun target => recursive_extract env fuel target max_depth (current_depth + 1))
              current_depth (walk_start env (fs st) directory) false st Hstart)
    as [Hst Hr].
  { intros t w p w' Hw Hnext. destruct (Hstep t w p w' Hw Hnext) as [Hpre Hw'].
    split; [|done]. by apply (has_marker_prefix directory). }
  split; [done|]. tauto.
Qed.

(** X8. A directory whose own path carries a marker is never unpacked:
    when the walk yields only paths below it, [recursive_extract] on it
    leaves the tree and the log as they are and reports that nothing was
    extracted. The marked names include the output directories of the
    squashfs, jffs2 and cpio branches and every [*.extracted] root. *)
Theorem marked_directory_is_never_unpacked
    (env : Env) (I : Walker env -> Prop) (fuel : nat) (directory : Path)
    (max_depth current_depth : Z) (st : State) :
  has_marker directory = true ->
  I (walk_start env (fs st) directory) ->
  (forall t w p w', I w -> walk_next env t w = Some (p, w') ->
                    directory `prefix_of` p /\ I w') ->
  (recursive_extract env fuel directory max_depth current_depth st).2 = st
  /\ ((recursive_extract env fuel directory max_depth current_depth st).1 = Ok PyNone
      \/ (recursive_extract env fuel directory max_depth current_depth st).1
         = Ok (PyBool false)
      \/ (recursive_extract env fuel directory max_depth current_depth st).1
         = OutOfFuel).
Proof. apply recursive_extract_marked. Qed.

Section ListingFacts.

Lemma rglob_below (t : FS) (d : Path) :
  Forall (fun p => d `prefix_of` p) (Fs.rglob t d).
Proof.
  unfold Fs.rglob. destruct (Fs.is_dir t d); [|constructor].
  apply Forall_forall. intros p Hin. apply list_elem_of_filter in Hin. tauto.
Qed.

End ListingFacts.

(** ** The jffs2 and the tar branch *)

Section MoreRuns.

Context (env : Env).

Lemma dispatch_jffs2_mkdir_fails (p d : Path) (st : State) (e : Exn) :
  Fs.mkdir_exist_ok (fs st) (PathOps.div d (PathOps.stem p +:+ "_jffs2")) = inl e ->
  dispatch env Jffs2 p d st
  = (Raise e,
     with_log st [ Print ("[INFO] Found jffs2: " +:+ PathOps.str p);
                   Mkdir (PathOps.div d (PathOps.stem p +:+ "_jffs2")) ]).
Proof.
  intros Hmk. unfold dispatch, mkdir, with_log. run_monad. rewrite Hmk. simpl.
  by rewrite <- ?app_assoc.
Qed.

Lemma dispatch_jffs2_run (p d : Path) (st : State) (t1 : FS) :
  let subdir := PathOps.div d (PathOps.stem p +:+ "_jffs2") in
  let line := jefferson_line subdir p in
  Fs.mkdir_exist_ok (fs st) subdir = inr t1 ->
  dispatch env Jffs2 p d st
  = if which env t1 "jefferson" then
      (Ok (if (returncode (shell env line None t1).1 =? 0)%Z then Some subdir else None),
       {| fs := (shell env line None t1).2;
          log := log st ++ [ Print ("[INFO] Found jffs2: " +:+ PathOps.str p);
                             Mkdir subdir;
                             Which "jefferson";
                             Print ("[CMD] " +:+ line);
                             Run (Tool line) None ] |})
    else
      (Ok None,
       {| fs := t1;
          log := log st ++ [ Print ("[INFO] Found jffs2: " +:+ PathOps.str p);
                             Mkdir subdir;
                             Which "jefferson";
                             Print "[ERROR] Required tool 'jefferson' is not available. Please install it.";
                             Print "[WARN] jefferson not available for jffs2 extraction" ] |}).
Proof.
  intros subdir line Hmk.
  unfold dispatch, mkdir, check_tool_available, run_cmd, subprocess_run, succeeded.
  fold subdir line. run_monad. rewrite Hmk. simpl.
  destruct (which env t1 "jefferson"); simpl.
  - destruct (shell env line None t1) as [res t'] eqn:Hsh. simpl.
    destruct (returncode res =? 0)%Z; simpl; by rewrite <- ?app_assoc.
  - by rewrite <- ?app_assoc.
Qed.


End MoreRuns.


(** X6. The outcome of the squashfs, jffs2 and cpio branches, when there
    is one, is the directory [<stem>_squashfs], [<stem>_jffs2] or
    [<stem>_cpio] in [extract_dir], and its path is a marked one: the walk
    that is started on it next skips every file in it. *)
Theorem filesystem_outcomes_are_marked
    (env : Env) (p d target : Path) (st : State) :
  classify env (fs st) p = Squashfs \/ classify env (fs st) p = Jffs2
  \/ classify env (fs st) p = Cpio ->
  (extract_nested_archives env p d st).1 = Ok (Some target) ->
  (exists mark, In mark ["_squashfs"; "_jffs2"; "_cpio"]
                /\ target = PathOps.div d (PathOps.stem p +:+ mark))
  /\ has_marker target = true.
Proof.
  intros Hsig Hres.
  assert (Hmarked : forall mark, In mark ["_squashfs"; "_jffs2"; "_cpio"] ->
            has_marker (PathOps.div d (PathOps.stem p +:+ mark)) = true).
  { intros mark Hin. apply has_marker_name, any_in_app_r.
    simpl in Hin. destruct Hin as [<-|[<-|[<-|[]]]]; reflexivity. }
  assert (Hgoal : exists mark, In mark ["_squashfs"; "_jffs2"; "_cpio"]
                   /\ target = PathOps.div d (PathOps.stem p +:+ mark)).
  { rewrite extract_nested_archives_run in Hres.
    set (st0 := with_log st (inspection_log env (fs st) p)) in *.
    destruct Hsig as [Hsig|[Hsig|Hsig]]; rewrite Hsig in Hres.
    - exists "_squashfs". split; [simpl; tauto|].
      destruct (Fs.mkdir_exist_ok (fs st0) (PathOps.div d (PathOps.stem p +:+ "_squashfs")))
        as [e|t1] eqn:Hmk.
      + by rewrite (dispatch_squashfs_mkdir_fails env p d st0 e Hmk) in Hres.
      + pose proof (dispatch_squashfs_run env p d st0 t1 Hmk) as Hrun.
        cbv zeta in Hrun. rewrite Hrun in Hres.
        destruct (attempt_ok env "unsquashfs" _ t1); [by injection Hres|].
        destruct (attempt_ok env "sasquatch" _ _); [by injection Hres|done].
    - exists "_jffs2". split; [simpl; tauto|].
      destruct (Fs.mkdir_exist_ok (fs st0) (PathOps.div d (PathOps.stem p +:+ "_jffs2")))
        as [e|t1] eqn:Hmk.
      + by rewrite (dispatch_jffs2_mkdir_fails env p d st0 e Hmk) in Hres.
      + pose proof (dispatch_jffs2_run env p d st0 t1 Hmk) as Hrun.
        cbv zeta in Hrun. rewrite Hrun in Hres.
        destruct (which env t1 "jefferson"); [|done]. simpl in Hres.
        destruct (returncode _ =? 0)%Z; [by injection Hres|done].
    - exists "_cpio". split; [simpl; tauto|].
      destruct (Fs.mkdir_exist_ok (fs st0) (PathOps.div d (PathOps.stem p +:+ "_cpio")))
        as [e|t1] eqn:Hmk.
      + by rewrite (dispatch_cpio_mkdir_fails env p d st0 e Hmk) in Hres.
      + pose proof (dispatch_cpio_run env p d st0 t1 Hmk) as Hrun.
        cbv zeta in Hrun. rewrite Hrun in Hres. simpl in Hres.
        destruct (returncode _ =? 0)%Z; [by injection Hres|done]. }
  split; [exact Hgoal|]. destruct Hgoal as (mark & Hin & ->). by apply Hmarked.
Qed.

(** X4. The jffs2 branch, once its directory is there: without
    [jefferson] the outcome is "no extraction" with a warning, and the
    directory just made stays behind, empty; with [jefferson] the command
    is run and the tree is what the run has left: the outcome is the
    directory when it exits with 0, "no extraction" without any warning
    when it exits with another status, and the exception of the run,
    which nothing catches, when the run raises. *)
Theorem jffs2_dispatch_outcomes (w : World) (p d : Path) (st : State) (t1 : FS) :
  (gen_classify w (fs st) p).1 = inr Jffs2 ->
  let t0 := (gen_classify w (fs st) p).2 in
  let subdir := PathOps.div d (PathOps.stem p +:+ "_jffs2") in
  let line := jefferson_line subdir p in
  let r := (Gen.extract_nested_archives w p d st).1 in
  let st' := (Gen.extract_nested_archives w p d st).2 in
  Fs.mkdir_exist_ok t0 subdir = inr t1 ->
  (which (base w) t1 "jefferson" = false ->
     r = Ok None /\ fs st' = t1
     /\ exists evs,
          log st' = log st ++ evs
                    ++ [Print "[WARN] jefferson not available for jffs2 extraction"]
          /\ forall cmd cwd_, In (Run cmd cwd_) evs -> cmd = FileB p)
  /\ (which (base w) t1 "jefferson" = true ->
      fs st' = (run w (Tool line) None t1).2
      /\ In (Run (Tool line) None) (log st')
      /\ r = match (run w (Tool line) None t1).1 with
             | inl e => Raise e
             | inr res => Ok (if (returncode res =? 0)%Z then Some subdir else None)
             end
      /\ exists evs, log st' = log st ++ evs /\ existsb is_warning evs = false).
Proof.
  intros Hsig t0 subdir line r st' Hmk. subst r st'.
  rewrite gen_extract_nested_archives_run, Hsig. fold t0.
  pose proof (gen_dispatch_jffs2_run w p d
                {| fs := t0; log := log st ++ gen_inspection_log w (fs st) p |}
                t1 Hmk) as Hrun.
  cbv zeta in Hrun. fold subdir line in Hrun. rewrite Hrun. clear Hrun.
  split; intros Hw; rewrite Hw; simpl.
  - split; [done|]. split; [done|].
    exists (gen_inspection_log w (fs st) p
            ++ [ Print ("[INFO] Found jffs2: " +:+ PathOps.str p); Mkdir subdir;
                 Which "jefferson";
                 Print "[ERROR] Required tool 'jefferson' is not available. Please install it." ]).
    split; [by rewrite <- !app_assoc|].
    intros cmd cwd_ Hin. apply in_app_iff in Hin as [Hin|Hin].
    + pose proof (gen_inspection_log_quiet w (fs st) p) as Hq.
      rewrite Forall_forall in Hq. apply list_elem_of_In, Hq in Hin.
      destruct Hin as [[l Hl]|Hl]; congruence.
    + simpl in Hin. intuition congruence.
  - split; [done|]. split; [rewrite !in_app_iff; simpl; tauto|]. split; [done|].
    eexists. split; [by rewrite <- app_assoc|].
    rewrite existsb_app, gen_inspection_log_no_warning. reflexivity.
Qed.

(** X5. The cpio branch, once its directory is there, runs one command,
    [cd '<dir>' && cpio -idm < '<file>' 2>/dev/null], through the shell
    and from the directory of the process; the tree is what the run has
    left, and the outcome is the directory when the command exits with 0,
    "no extraction" when it exits with another status, and the exception
    of the run, which nothing catches, when the run raises. *)
Theorem cpio_outcome_is_its_directory
    (w : World) (p d : Path) (st : State) (t1 : FS) :
  (gen_classify w (fs st) p).1 = inr Cpio ->
  let t0 := (gen_classify w (fs st) p).2 in
  let subdir := PathOps.div d (PathOps.stem p +:+ "_cpio") in
  let line := cpio_line subdir p in
  Fs.mkdir_exist_ok t0 subdir = inr t1 ->
  (Gen.extract_nested_archives w p d st).1
  = match (run w (Tool line) None t1).1 with
    | inl e => Raise e
    | inr res => Ok (if (returncode res =? 0)%Z then Some subdir else None)
    end
  /\ fs (Gen.extract_nested_archives w p d st).2 = (run w (Tool line) None t1).2
  /\ exists evs,
       log (Gen.extract_nested_archives w p d st).2
       = log st ++ evs ++ [Mkdir subdir; Print ("[CMD] " +:+ line); Run (Tool line) None]
       /\ Forall (fun e => ~ tool_event e) evs.
Proof.
  intros Hsig t0 subdir line Hmk.
  rewrite gen_extract_nested_archives_run, Hsig. fold t0.
  pose proof (gen_dispatch_cpio_run w p d
                {| fs := t0; log := log st ++ gen_inspection_log w (fs st) p |}
                t1 Hmk) as Hrun.
  cbv zeta in Hrun. fold subdir line in Hrun. rewrite Hrun. simpl.
  split; [done|]. split; [done|].
  exists (gen_inspection_log w (fs st) p
          ++ [Print ("[INFO] Found cpio: " +:+ PathOps.str p)]).
  split; [by rewrite <- !app_assoc|].
  apply Forall_app. split; [|constructor; [simpl; tauto|constructor]].
  eapply Forall_impl; [apply gen_inspection_log_quiet|].
  intros e [[l ->]| ->]; simpl; tauto.
Qed.

(** ** The clean-up, entry by entry *)

Section CleanupEffect.



End CleanupEffect.



(** ** The driver, step by step *)

Section DriverSteps.

Context (env : Env).

(** [unpack_steps] ends with [save_list]. *)
Lemma unpack_steps_save_list (fuel : nat) (fw out : Path) :
  unpack_steps env fuel fw out
  = (print "[INFO] Running binwalk extraction...";;
     result ← run_cmd env (Tool ("binwalk -eM '" +:+ PathOps.str fw +:+ "'")) false (Some out);
     (if negb (succeeded result)
      then print "[WARN] Binwalk extraction had issues, but continuing..."
      else mret tt);;
     t ← get_fs;
     let found := Fs.glob_prefix t out "_" ++ Fs.glob_suffix t out ".extracted" in
     extracted_dirs ←
       match found with
       | [] =>
           print "[WARN] No extracted directory found by binwalk.";;
           mret [out]
       | _ =>
           print ("[INFO] Found extracted directories: ["
                  +:+ Str.join ", " (List.map (fun d => "'" +:+ PathOps.str d +:+ "'") found)
                  +:+ "]");;
           mret found
       end;
     print "[INFO] Searching for nested file systems...";;
     for_each (extract_root env fuel) extracted_dirs tt;;
     print "[INFO] Collecting executable files...";;
     executables ← scan_executables env extracted_dirs;
     save_list env out executables).
Proof. reflexivity. Qed.

Lemma write_list_run (p : Path) (executables : list Path) (st : State) :
  write_list p executables st
  = match Fs.open_wb (fs st) p with
    | inr (f, t1) =>
        (Ok tt, {| fs := <[f := File (list_text executables)]> t1;
                   log := log st ++ [OpenWrite p] |})
    | inl e => (Raise e, with_log st [OpenWrite p])
    end.
Proof.
  unfold write_list, with_log. run_monad.
  by destruct (Fs.open_wb (fs st) p) as [e|[f t1]].
Qed.

Lemma open_wb_no_exit (t : FS) (p : Path) (e : Exn) :
  Fs.open_wb t p = inl e -> forall c, e <> SystemExit c.
Proof.
  unfold Fs.open_wb, Fs.open_dot. intros H c ->.
  destruct (Fs.resolve Fs.max_hops t p) as [q|]; [|done].
  destruct (Fs.dot_name q).
  { destruct (Fs.stat t (PathOps.parent q)) as [[| |]|]; done. }
  destruct (Fs.node_at t q) as [[| |]|]; try done.
  destruct (Fs.stat t (PathOps.parent q)) as [[| |]|]; done.
Qed.

Lemma scan_executables_emits_steps (roots : list Path) :
  emits steps_event (scan_executables env roots).
Proof.
  unfold scan_executables. apply emits_for_each. intros acc root.
  unfold scan_root. apply emits_bind; [apply emits_get_fs|]. intros t.
  destruct (negb (Fs.exists_ t root)); [apply emits_ret|].
  apply emits_for_each. intros acc' f. unfold scan_file.
  apply emits_bind; [apply emits_get_fs|]. intros t'.
  destruct (Fs.is_file t' f); [|apply emits_ret].
  destruct (access_x env t' f); [|apply emits_ret].
  apply emits_bind; [by apply run_cmd_emits|]. intros file_cmd. emits_auto.
Qed.

Lemma extract_root_emits_steps (fuel : nat) (u : unit) (root_dir : Path) :
  emits steps_event (extract_root env fuel u root_dir).
Proof.
  unfold extract_root.
  apply emits_bind; [by apply emits_emit|]. intros _.
  apply emits_bind; [apply emits_get_fs|]. intros t.
  destruct (Fs.exists_ t root_dir); [|apply emits_ret].
  apply emits_bind; [|intros; apply emits_ret].
  eapply emits_mono; [|apply recursive_extract_emits].
  intros e. destruct e; simpl; tauto.
Qed.

Lemma save_list_emits_steps (out : Path) (executables : list Path) :
  emits steps_event (save_list env out executables).
Proof.
  unfold save_list.
  apply emits_bind; [by apply emits_emit|]. intros _.
  apply emits_bind; [|intros _; emits_auto].
  apply emits_try_except.
  - apply emits_bind; [by apply write_list_emits|]. intros _. by apply emits_emit.
  - intros e. apply emits_bind; [by apply emits_emit|]. intros _.
    apply emits_try_except.
    + apply emits_bind; [by apply write_list_emits|]. intros _. by apply emits_emit.
    + intros e2. by apply emits_emit.
Qed.

Lemma unpack_steps_emits_steps (fuel : nat) (fw out : Path) :
  emits steps_event (unpack_steps env fuel fw out).
Proof.
  rewrite unpack_steps_save_list.
  apply emits_bind; [by apply emits_emit|]. intros _.
  apply emits_bind; [by apply run_cmd_emits|]. intros result.
  apply emits_bind; [emits_auto|]. intros _.
  apply emits_bind; [apply emits_get_fs|]. intros t.
  apply emits_bind; [emits_auto|]. intros extracted_dirs.
  apply emits_bind; [by apply emits_emit|]. intros _.
  apply emits_bind; [apply emits_for_each; intros; apply extract_root_emits_steps|].
  intros _.
  apply emits_bind; [by apply emits_emit|]. intros _.
  apply emits_bind; [apply scan_executables_emits_steps|]. intros executables.
  apply save_list_emits_steps.
Qed.

Lemma cleanup_output_dir_quiet (out : Path) (st : State) :
  Fs.is_dir (fs st) out = true ->
  exists t' evs,
    cleanup_output_dir out st = (Ok tt, {| fs := t'; log := log st ++ evs |})
    /\ Forall cleanup_event evs.
Proof.
  intros Hdir.
  destruct (cleanup_output_dir_run out st Hdir) as (t' & evs & Hclean & _).
  exists t', evs. split; [done|].
  assert (Hem : emits cleanup_event (cleanup_output_dir out)).
  { unfold cleanup_output_dir.
    apply emits_bind; [apply emits_get_fs|]. intros t.
    destruct (Fs.is_dir t out); [|apply emits_raise].
    apply emits_for_each. intros u item. unfold cleanup_item, unlink, rmtree.
    emits_auto. }
  destruct (Hem st) as (evs' & Hlog & Hall). rewrite Hclean in Hlog.
  simpl in Hlog. by apply app_inv_head in Hlog as ->.
Qed.

(** The driver as a whole: either [mkdir] fails at once, or the clean-up
    runs, [binwalk] is looked up, and the steps follow. *)
Lemma unpack_firmware_log (fuel : nat) (fw out : Path) (st : State) :
  let head := [ Print ("[INFO] Unpacking firmware: " +:+ PathOps.str fw);
                Print ("[INFO] Output directory: " +:+ PathOps.str out);
                Mkdir out ] in
  (exists e, Fs.mkdir_parents (fs st) out = inl e
             /\ unpack_firmware env fuel fw out st = (Raise e, with_log st head))
  \/ (exists pre post,
        log (unpack_firmware env fuel fw out st).2
        = log st ++ pre ++ Which "binwalk" :: post
        /\ Forall (fun e => ~ tool_event e /\ forall d p, e <> Visit d p) pre
        /\ Forall steps_event post).
Proof.
  intros head.
  destruct (Fs.mkdir_parents (fs st) out) as [e|t0] eqn:Hmk.
  { left. exists e. split; [done|].
    unfold unpack_firmware, with_log. run_monad. rewrite Hmk. simpl.
    by rewrite <- ?app_assoc. }
  right.
  destruct (mkdir_parents_spec _ _ _ Hmk) as [Hdir _].
  set (st_m := {| fs := t0; log := log st ++ head |}).
  destruct (cleanup_output_dir_quiet out st_m Hdir) as (t1 & evs & Hclean & Hevs).
  assert (Hquiet : Forall (fun e => ~ tool_event e /\ forall d p, e <> Visit d p) evs).
  { eapply Forall_impl; [exact Hevs|]. intros []; simpl; try tauto; intros _; (split; [tauto|discriminate]). }
  pose proof (unpack_firmware_run env fuel fw out st t0 _ Hmk Hclean) as Hrun.
  simpl fs in Hrun.
  assert (Hpre : Forall (fun e => ~ tool_event e /\ forall d p, e <> Visit d p)
                   (head ++ evs)).
  { apply Forall_app. split; [|done].
    unfold head. repeat (constructor; [simpl; split; (tauto || done)|]). constructor. }
  exists (head ++ evs).
  destruct (which env t1 "binwalk") eqn:Hwhich.
  - destruct (unpack_steps_emits_steps fuel fw out
                (with_log {| fs := t1; log := log st_m ++ evs |} [Which "binwalk"]))
      as (post & Hpost & Hall).
    exists post. rewrite Hrun, Hpost. simpl.
    split; [by rewrite <- !app_assoc|]. done.
  - exists [Print "[ERROR] Required tool 'binwalk' is not available. Please install it."].
    rewrite Hrun. unfold with_log. simpl.
    split; [by rewrite <- !app_assoc|]. split; [done|].
    constructor; [done|constructor].
Qed.

End DriverSteps.

(** ** The driver: what it deletes, visits, finds, scans and saves *)

Section DriverFacts.

Lemma bind_ok {A B} (m : M A) (f : A -> M B) (st : State) (v : B) :
  ((m ≫= f) st).1 = Ok v -> exists a st', m st = (Ok a, st') /\ (f a st').1 = Ok v.
Proof.
  unfold mbind, M_bind. destruct (m st) as [[a|e|] st']; simpl; try done. eauto.
Qed.

Lemma save_list_run (env : Env) (out : Path) (executables : list Path) (st : State) :
  (save_list env out executables st).1 = Ok (PathOps.div out "executables.txt")
  /\ fs (save_list env out executables st).2
     = match Fs.open_wb (fs st) (PathOps.div out "executables.txt") with
       | inr (f, t1) => <[f := File (list_text executables)]> t1
       | inl _ =>
           match Fs.open_wb (fs st) (PathOps.div (cwd env) "executables.txt") with
           | inr (f, t1) => <[f := File (list_text executables)]> t1
           | inl _ => fs st
           end
       end.
Proof.
  unfold save_list, try_except, write_list, list_text. run_monad.
  destruct (Fs.open_wb (fs st) (PathOps.div out "executables.txt"))
    as [e|[f t1]] eqn:H1; simpl; [|done].
  pose proof (open_wb_no_exit _ _ _ H1) as He.
  destruct (Fs.open_wb (fs st) (PathOps.div (cwd env) "executables.txt"))
    as [e2|[f2 t2]] eqn:H2; simpl.
  - pose proof (open_wb_no_exit _ _ _ H2) as He2.
    destruct e; try (by destruct (He code)); simpl;
      destruct e2; try (by destruct (He2 code)); done.
  - destruct e; try (by destruct (He code)); done.
Qed.

Lemma endswith_extracted_marked (root : Path) :
  Str.endswith (PathOps.name root) ".extracted" = true -> has_marker root = true.
Proof.
  intros H. destruct root as [|a root] using rev_ind; [done|]. clear IHroot.
  rewrite name_div in H. apply has_marker_name.
  apply endswith_contains in H. unfold Str.any_in, markers. cbn [existsb].
  rewrite H. by rewrite !orb_true_r.
Qed.

End DriverFacts.



(** X21. The driver deletes only while it cleans up: in the log of a run,
    whatever precedes an [unlink] or a [rmtree] holds no look-up of a tool
    and no command, so that nothing is deleted once [binwalk] has been
    looked up, by the driver, by the walk or by the scan. *)
Theorem driver_deletes_only_during_cleanup
    (env : Env) (fuel : nat) (fw out : Path) (st : State)
    (before after : list Event) (e : Event) :
  log (unpack_firmware env fuel fw out st).2 = log st ++ before ++ e :: after ->
  is_deletion e ->
  Forall (fun e' => ~ tool_event e') before.
Proof.
  intros Hlog Hdel.
  destruct (unpack_firmware_log env fuel fw out st)
    as [(e0 & _ & Hrun)|(pre & post & Hlog' & Hpre & Hpost)].
  - rewrite Hrun in Hlog. simpl in Hlog. apply app_inv_head in Hlog.
    assert (Hall : Forall (fun e' => ~ tool_event e' /\ ~ is_deletion e')
                     (before ++ e :: after)).
    { rewrite <- Hlog. repeat (constructor; [simpl; tauto|]). constructor. }
    apply Forall_app in Hall as [_ Hall]. apply Forall_cons in Hall as [[_ Hall] _].
    contradiction.
  - rewrite Hlog' in Hlog. apply app_inv_head in Hlog.
    apply app_eq_app in Hlog as [l [[Hl1 Hl2]|[Hl1 Hl2]]].
    + rewrite Hl1 in Hpre. apply Forall_app in Hpre as [Hpre _].
      eapply Forall_impl; [exact Hpre|]. simpl. tauto.
    + (* the deletion would follow the look-up: there is none *)
      exfalso.
      assert (Hin : In e (Which "binwalk" :: post)).
      { rewrite Hl2. apply in_app_iff. right. by left. }
      destruct Hin as [<-|Hin]; [done|].
      rewrite Forall_forall in Hpost. apply list_elem_of_In, Hpost in Hin.
      destruct e; simpl in *; tauto.
Qed.

(** X19. When [unpack_firmware] returns, it returns the path
    [executables.txt] in the output directory, also when the list was
    saved in the working directory or could not be saved at all. *)
Theorem driver_returns_the_list_path
    (env : Env) (fuel : nat) (fw out : Path) (st : State) (v : Path) :
  (unpack_firmware env fuel fw out st).1 = Ok v ->
  v = PathOps.div out "executables.txt".
Proof.
  intros Hres.
  assert (Hsteps : forall st', (unpack_steps env fuel fw out st').1 = Ok v ->
            v = PathOps.div out "executables.txt").
  { intros st'. rewrite unpack_steps_save_list.
    remember (save_list env out) as save eqn:Hsave.
    repeat (let H := fresh in intros H; apply bind_ok in H as (? & ? & _ & H); revert H).
    subst save. intros H. rewrite (proj1 (save_list_run env out _ _)) in H.
    by injection H. }
  destruct (Fs.mkdir_parents (fs st) out) as [e|t0] eqn:Hmk.
  { revert Hres. unfold unpack_firmware. run_monad. by rewrite Hmk. }
  destruct (mkdir_parents_spec _ _ _ Hmk) as [Hdir _].
  destruct (cleanup_output_dir_run out
              {| fs := t0;
                 log := log st ++ [ Print ("[INFO] Unpacking firmware: " +:+ PathOps.str fw);
                                    Print ("[INFO] Output directory: " +:+ PathOps.str out);
                                    Mkdir out ] |} Hdir)
    as (t1 & evs & Hclean & _).
  rewrite (unpack_firmware_run env fuel fw out st t0 _ Hmk Hclean) in Hres.
  destruct (which env _ "binwalk"); [|done]. by apply Hsteps in Hres.
Qed.

(** X15. The directory [binwalk] makes for an image, [_<name>.extracted],
    matches both patterns of step 2, [_*] and [*.extracted]: it is in the
    list of the roots twice, so it is walked twice and scanned twice. *)
Theorem binwalk_directory_is_listed_twice (t : FS) (out : Path) (nm : string) :
  is_Some (t !! (out ++ [nm])) ->
  Str.startswith nm "_" = true -> Str.endswith nm ".extracted" = true ->
  In (out ++ [nm]) (Fs.glob_prefix t out "_")
  /\ In (out ++ [nm]) (Fs.glob_suffix t out ".extracted")
  /\ ~ NoDup (Fs.glob_prefix t out "_" ++ Fs.glob_suffix t out ".extracted").
Proof.
  intros Hsome Hpre Hsuf.
  assert (Hin : In (out ++ [nm]) (Fs.iterdir t out)).
  { apply list_elem_of_In, elem_of_iterdir. rewrite parent_div.
    split; [split; [by destruct out|done]|done]. }
  assert (H1 : In (out ++ [nm]) (Fs.glob_prefix t out "_")).
  { apply List.filter_In. split; [done|]. by rewrite name_div. }
  assert (H2 : In (out ++ [nm]) (Fs.glob_suffix t out ".extracted")).
  { apply List.filter_In. split; [done|]. by rewrite name_div. }
  split; [done|]. split; [done|].
  intros Hnd. apply NoDup_app in Hnd as (_ & Hdisj & _).
  apply (Hdisj (out ++ [nm])); by apply list_elem_of_In.
Qed.

(** X16. A root whose name ends in [.extracted], as the pattern
    [*.extracted] finds it and as [binwalk] names its directories, is not
    walked at all: every path below it carries the marker, so step 3 only
    prints its line for it and leaves the tree as it is. *)
Theorem extracted_roots_are_not_walked
    (env : Env) (I : Walker env -> Prop) (fuel : nat) (root_dir : Path) (st : State) :
  Str.endswith (PathOps.name root_dir) ".extracted" = true ->
  I (walk_start env (fs st) root_dir) ->
  (forall t w p w', I w -> walk_next env t w = Some (p, w') ->
                    root_dir `prefix_of` p /\ I w') ->
  (extract_root env fuel tt root_dir st).2
  = with_log st [Print ("[INFO] Processing directory: " +:+ PathOps.str root_dir)]
  /\ ((extract_root env fuel tt root_dir st).1 = Ok tt
      \/ (extract_root env fuel tt root_dir st).1 = OutOfFuel).
Proof.
  intros Hname Hstart Hstep. apply endswith_extracted_marked in Hname.
  unfold extract_root, with_log. run_monad.
  destruct (Fs.exists_ (fs st) root_dir); [|by auto].
  set (st1 := {| fs := fs st; log := _ |}).
  destruct (recursive_extract_marked env I fuel root_dir 5 0 st1 Hname Hstart Hstep)
    as [Hst Hres].
  destruct (recursive_extract env fuel root_dir 5 0 st1) as [[v|e|] st2];
    simpl in *; subst st2; try by auto.
  destruct Hres as [?|[?|?]]; done.
Qed.

(** ** What the returned flag tells *)

Section ReturnedFlag.

Context (env : Env).

Lemma extract_nested_archives_no_visit (p d : Path) (st : State) :
  exists evs,
    log (extract_nested_archives env p d st).2 = log st ++ evs
    /\ forall depth q, ~ In (Visit depth q) evs.
Proof.
  destruct (extract_emits env p d st) as (evs & Hlog & Hall).
  exists evs. split; [done|]. intros depth q Hin.
  rewrite Forall_forall in Hall. by apply list_elem_of_In, Hall in Hin.
Qed.

(** One turn of the loop, and the entry of the call, on a state. *)
Lemma extract_loop_S (fuel : nat) (recurse : Path -> M PyVal) (current_depth : Z)
    (w : Walker env) (acc : bool) (st : State) :
  extract_loop env (S fuel) recurse current_depth w acc st
  = match walk_next env (fs st) w with
    | None => (Ok (PyBool acc), st)
    | Some (p, w') =>
        if Fs.is_file (fs st) p && negb (has_marker p) then
          match extract_nested_archives env p (PathOps.parent p)
                  {| fs := fs st; log := log st ++ [Visit current_depth p] |} with
          | (Ok (Some target), st1) =>
              match recurse target st1 with
              | (Ok _, st2) => extract_loop env fuel recurse current_depth w' true st2
              | (Raise e, st2) => (Raise e, st2)
              | (OutOfFuel, st2) => (OutOfFuel, st2)
              end
          | (Ok None, st1) => extract_loop env fuel recurse current_depth w' acc st1
          | (Raise e, st1) => (Raise e, st1)
          | (OutOfFuel, st1) => (OutOfFuel, st1)
          end
        else extract_loop env fuel recurse current_depth w' acc st
    end.
Proof.
  cbn [extract_loop]. unfold mbind, M_bind, get_fs, emit.
  destruct (walk_next env (fs st) w) as [[p w']|]; [|done].
  destruct (Fs.is_file (fs st) p); [|done].
  destruct (has_marker p); [done|]. simpl.
  destruct (extract_nested_archives env p _ _) as [[[target|]|e|] st1]; try done.
Qed.

Lemma recursive_extract_S (fuel : nat) (directory : Path)
    (max_depth current_depth : Z) (st : State) :
  recursive_extract env (S fuel) directory max_depth current_depth st
  = if (max_depth <=? current_depth)%Z then (Ok PyNone, st)
    else extract_loop env fuel
           (fun target => recursive_extract env fuel target max_depth (current_depth + 1))
           current_depth (walk_start env (fs st) directory) false st.
Proof. cbn [recursive_extract]. by destruct (max_depth <=? current_depth)%Z. Qed.

Lemma extract_loop_flag (recurse : Path -> M PyVal) (current_depth : Z) :
  (forall target st, exists evs, log (recurse target st).2 = log st ++ evs) ->
  forall fuel (w : Walker env) (acc : bool) (st : State),
  exists evs,
    log (extract_loop env fuel recurse current_depth w acc st).2 = log st ++ evs
    /\ ((extract_loop env fuel recurse current_depth w acc st).1 = Ok (PyBool false) ->
        acc = false /\ forall depth p, In (Visit depth p) evs -> depth = current_depth)
    /\ ((extract_loop env fuel recurse current_depth w acc st).1 = Ok (PyBool true) ->
        acc = true \/ exists p, In (Visit current_depth p) evs).
Proof.
  intros Hrec. induction fuel as [|fuel IH]; intros w acc st.
  { exists []. simpl. by rewrite app_nil_r. }
  rewrite extract_loop_S.
  destruct (walk_next env (fs st) w) as [[p w']|].
  2:{ exists []. simpl. rewrite app_nil_r. split; [done|].
      split; intros [= ->]; [by split|by left]. }
  destruct (Fs.is_file (fs st) p && negb (has_marker p)); [|apply IH].
  set (st0 := {| fs := fs st; log := log st ++ [Visit current_depth p] |}).
  destruct (extract_nested_archives_no_visit p (PathOps.parent p) st0)
    as (evs_d & Hlog_d & Hno).
  destruct (extract_nested_archives env p (PathOps.parent p) st0)
    as [[[target|]|e|] st1]; simpl in Hlog_d.
  - destruct (Hrec target st1) as (evs_r & Hlog_r).
    destruct (recurse target st1) as [[v|e|] st2]; simpl in Hlog_r.
    + destruct (IH w' true st2) as (evs2 & Hlog2 & Hfalse & Htrue).
      exists ([Visit current_depth p] ++ evs_d ++ evs_r ++ evs2).
      split; [by rewrite Hlog2, Hlog_r, Hlog_d, <- !app_assoc|].
      split; [intros H; by destruct (Hfalse H)|].
      intros _. right. exists p. by left.
    + exists ([Visit current_depth p] ++ evs_d ++ evs_r). simpl.
      split; [by rewrite Hlog_r, Hlog_d, <- !app_assoc|]. done.
    + exists ([Visit current_depth p] ++ evs_d ++ evs_r). simpl.
      split; [by rewrite Hlog_r, Hlog_d, <- !app_assoc|]. done.
  - destruct (IH w' acc st1) as (evs2 & Hlog2 & Hfalse & Htrue).
    exists ([Visit current_depth p] ++ evs_d ++ evs2).
    split; [by rewrite Hlog2, Hlog_d, <- !app_assoc|].
    split.
    + intros H. destruct (Hfalse H) as [Hacc Hvis]. split; [done|].
      intros depth q Hin. apply in_app_iff in Hin as [Hin|Hin].
      * simpl in Hin. by destruct Hin as [[= <- _]|[]].
      * apply in_app_iff in Hin as [Hin|Hin]; [by destruct (Hno depth q)|].
        by apply (Hvis depth q).
    + intros _. right. exists p. by left.
  - exists ([Visit current_depth p] ++ evs_d). simpl.
    split; [by rewrite Hlog_d, <- !app_assoc|]. done.
  - exists ([Visit current_depth p] ++ evs_d). simpl.
    split; [by rewrite Hlog_d, <- !app_assoc|]. done.
Qed.

End ReturnedFlag.

(** X10. The flag [recursive_extract] returns tells about its own level
    only. [False] means that no file of the walk gave an outcome, so that
    no nested call was made: every visit of the run is at the depth of the
    call. [True] means that some file was handed to
    [extract_nested_archives] at the depth of the call; what the nested
    calls return is dropped. *)
Theorem returned_flag_is_about_the_level_of_the_call
    (env : Env) (fuel : nat) (directory : Path) (max_depth current_depth : Z)
    (st : State) :
  exists evs,
    log (recursive_extract env fuel directory max_depth current_depth st).2
    = log st ++ evs
    /\ ((recursive_extract env fuel directory max_depth current_depth st).1
        = Ok (PyBool false) ->
        forall depth p, In (Visit depth p) evs -> depth = current_depth)
    /\ ((recursive_extract env fuel directory max_depth current_depth st).1
        = Ok (PyBool true) ->
        exists p, In (Visit current_depth p) evs).
Proof.
  destruct fuel as [|fuel].
  { cbn [recursive_extract]. destruct (max_depth <=? current_depth)%Z;
      exists []; simpl; by rewrite app_nil_r. }
  rewrite recursive_extract_S.
  destruct (max_depth <=? current_depth)%Z.
  { exists []. simpl. by rewrite app_nil_r. }
  destruct (extract_loop_flag env
              (fun target => recursive_extract env fuel target max_depth (current_depth + 1))
              current_depth) with (fuel := fuel)
              (w := walk_start env (fs st) directory) (acc := false) (st := st)
    as (evs & Hlog & Hfalse & Htrue).
  { intros target st'.
    destruct (recursive_extract_emits env fuel target max_depth (current_depth + 1) st')
      as (evs & Hlog & _). by exists evs. }
  exists evs. split; [done|]. split.
  - intros H. by destruct (Hfalse H).
  - intros H. by destruct (Htrue H).
Qed.

(** ** The first command of a run *)

Section FirstCommand.

Context (env : Env).

Lemma bind_run {A B} (m : M A) (f : A -> M B) (st st1 : State) (a : A) :
  m st = (Ok a, st1) -> (m ≫= f) st = f a st1.
Proof. intros H. unfold mbind, M_bind. by rewrite H. Qed.

(** [run_cmd] with [check_error=False]. *)
Lemma run_cmd_unchecked (cmd : Cmd) (cwd_ : option Path) (st : State) :
  exists res t',
    run_cmd env cmd false cwd_ st
    = (Ok (Some res),
       {| fs := t'; log := log st ++ [Print ("[CMD] " +:+ cmd_line cmd); Run cmd cwd_] |}).
Proof.
  unfold run_cmd, subprocess_run. run_monad. destruct cmd as [p|line]; simpl.
  - eexists _, _. by rewrite <- ?app_assoc.
  - destruct (shell env line cwd_ (fs st)) as [res t']. simpl.
    eexists _, _. by rewrite <- ?app_assoc.
Qed.

Lemma unpack_steps_log_head (fuel : nat) (fw out : Path) (st : State) :
  exists rest,
    log (unpack_steps env fuel fw out st).2
    = log st ++ [ Print "[INFO] Running binwalk extraction...";
                  Print ("[CMD] " +:+ "binwalk -eM '" +:+ PathOps.str fw +:+ "'");
                  Run (Tool ("binwalk -eM '" +:+ PathOps.str fw +:+ "'")) (Some out) ]
      ++ rest.
Proof.
  rewrite unpack_steps_save_list.
  rewrite (bind_run (print "[INFO] Running binwalk extraction...") _ st
             (with_log st [Print "[INFO] Running binwalk extraction..."]) tt)
    by reflexivity.
  destruct (run_cmd_unchecked (Tool ("binwalk -eM '" +:+ PathOps.str fw +:+ "'"))
              (Some out) (with_log st [Print "[INFO] Running binwalk extraction..."]))
    as (res & t' & Hrun).
  rewrite (bind_run _ _ _ _ _ Hrun).
  match goal with |- context [log (?m ?s).2] =>
    assert (Hem : emits (fun _ => True) m)
  end.
  { apply emits_bind; [emits_auto|]. intros _.
    apply emits_bind; [apply emits_get_fs|]. intros t.
    apply emits_bind; [emits_auto|]. intros extracted_dirs.
    apply emits_bind; [by apply emits_emit|]. intros _.
    apply emits_bind; [apply emits_for_each; intros; apply extract_root_emits|].
    intros _.
    apply emits_bind; [by apply emits_emit|]. intros _.
    apply emits_bind; [apply scan_executables_emits|]. intros executables.
    eapply emits_mono; [|apply save_list_emits_steps]. done. }
  match goal with |- context [log (?m ?s).2] =>
    destruct (Hem s) as (rest & Hlog & _)
  end.
  exists rest. rewrite Hlog. simpl. by rewrite <- !app_assoc.
Qed.

(** The first element with a property, found twice. *)
Lemma first_occurrence {A} (P : A -> Prop) (l1 l1' l2 l2' : list A) (x y : A) :
  l1 ++ x :: l2 = l1' ++ y :: l2' ->
  Forall (fun a => ~ P a) l1 -> Forall (fun a => ~ P a) l1' -> P x -> P y ->
  x = y.
Proof.
  revert l1'. induction l1 as [|a l1 IH]; intros [|b l1'] Heq H1 H1' Hx Hy;
    simpl in Heq.
  - by injection Heq.
  - injection Heq as -> _. apply Forall_cons in H1' as [Hb _]. contradiction.
  - injection Heq as <- _. apply Forall_cons in H1 as [Ha _]. contradiction.
  - injection Heq as _ Heq. apply Forall_cons in H1 as [_ H1].
    apply Forall_cons in H1' as [_ H1']. by apply (IH l1').
Qed.

End FirstCommand.

(** X14. The first command a run of the driver starts, if it starts any,
    is [binwalk -eM] on the path of the firmware, and it is started in the
    output directory: nothing is run before the clean-up is over, and the
    directory of the firmware is not used. *)
Theorem binwalk_is_the_first_command
    (env : Env) (fuel : nat) (fw out : Path) (st : State)
    (before after : list Event) (cmd : Cmd) (cwd_ : option Path) :
  log (unpack_firmware env fuel fw out st).2
  = log st ++ before ++ Run cmd cwd_ :: after ->
  Forall (fun e => ~ is_run e) before ->
  cmd = Tool ("binwalk -eM '" +:+ PathOps.str fw +:+ "'") /\ cwd_ = Some out.
Proof.
  intros Hlog Hbefore.
  set (head := [ Print ("[INFO] Unpacking firmware: " +:+ PathOps.str fw);
                 Print ("[INFO] Output directory: " +:+ PathOps.str out);
                 Mkdir out ]).
  destruct (Fs.mkdir_parents (fs st) out) as [e|t0] eqn:Hmk.
  { (* nothing is run *)
    exfalso. revert Hlog. unfold unpack_firmware. run_monad. rewrite Hmk. simpl.
    rewrite <- !app_assoc. intros Hlog. apply app_inv_head in Hlog.
    assert (Hall : Forall (fun e' => ~ is_run e') (before ++ Run cmd cwd_ :: after)).
    { rewrite <- Hlog. repeat (constructor; [simpl; tauto|]). constructor. }
    apply Forall_app in Hall as [_ Hall]. apply Forall_cons in Hall as [Hall _].
    by apply Hall. }
  destruct (mkdir_parents_spec _ _ _ Hmk) as [Hdir _].
  set (st_m := {| fs := t0; log := log st ++ head |}).
  destruct (cleanup_output_dir_quiet out st_m Hdir) as (t1 & evs & Hclean & Hquiet).
  pose proof (unpack_firmware_run env fuel fw out st t0 _ Hmk Hclean) as Hrun.
  simpl fs in Hrun. rewrite Hrun in Hlog. clear Hrun.
  assert (Hpre : Forall (fun e' => ~ is_run e') (head ++ evs)).
  { apply Forall_app. split.
    - repeat (constructor; [simpl; tauto|]). constructor.
    - eapply Forall_impl; [exact Hquiet|]. intros []; simpl; tauto. }
  destruct (which env t1 "binwalk").
  - destruct (unpack_steps_log_head env fuel fw out
                (with_log {| fs := t1; log := log st_m ++ evs |} [Which "binwalk"]))
      as (rest & Hsteps).
    rewrite Hsteps in Hlog. simpl in Hlog. rewrite <- !app_assoc in Hlog.
    apply app_inv_head in Hlog.
    assert (Heq : (head ++ evs ++ [ Which "binwalk";
                                    Print "[INFO] Running binwalk extraction...";
                                    Print ("[CMD] " +:+ "binwalk -eM '" +:+ PathOps.str fw +:+ "'") ])
                  ++ Run (Tool ("binwalk -eM '" +:+ PathOps.str fw +:+ "'")) (Some out) :: rest
                  = before ++ Run cmd cwd_ :: after).
    { rewrite <- Hlog. simpl. rewrite <- !app_assoc. reflexivity. }
    apply (first_occurrence is_run) in Heq; try done.
    + by injection Heq as <- <-.
    + rewrite app_assoc. apply Forall_app. split; [done|].
      repeat (constructor; [simpl; tauto|]). constructor.
  - exfalso. unfold with_log in Hlog. simpl in Hlog. rewrite <- !app_assoc in Hlog.
    apply app_inv_head in Hlog.
    assert (Hall : Forall (fun e' => ~ is_run e') (before ++ Run cmd cwd_ :: after)).
    { rewrite <- Hlog. change (Forall (fun e' => ~ is_run e')
        ((head ++ evs) ++ [ Which "binwalk";
                            Print "[ERROR] Required tool 'binwalk' is not available. Please install it." ])).
      apply Forall_app. split; [done|].
      repeat (constructor; [simpl; tauto|]). constructor. }
    apply Forall_app in Hall as [_ Hall]. apply Forall_cons in Hall as [Hall _].
    by apply Hall.
Qed.

(** ** The log of the scan *)

Section ScanLog.

Context (env : Env).




End ScanLog.


(** * The further properties at work in the laboratory *)

Lemma marker_in_a_component_marks_the_path_witness :
  has_marker ["out"; "_fw"; "prev_cpio"; "sh"] = true.
Proof.
  apply (marker_in_a_component_marks_the_path
           ["out"; "_fw"; "prev_cpio"; "sh"] "prev_cpio").
  - simpl. tauto.
  - reflexivity.
Defined.

Lemma walk_of_a_listing_stays_below (t : FS) (d : Path) (w : list Path)
    (p : Path) (w' : list Path) :
  Forall (fun q => d `prefix_of` q) w ->
  match w with [] => None | q :: w0 => Some (q, w0) end = Some (p, w') ->
  d `prefix_of` p /\ Forall (fun q => d `prefix_of` q) w'.
Proof.
  intros Hall. destruct w as [|q w0]; [done|]. intros [= <- <-].
  by apply Forall_cons in Hall.
Qed.

Lemma marked_directory_is_never_unpacked_witness :
  (recursive_extract (Lab.env ["sasquatch"]) 50 ["out"; "_fw"; "prev_cpio"] 5 0
     (initial Lab.tree)).2 = initial Lab.tree.
Proof.
  apply (marked_directory_is_never_unpacked (Lab.env ["sasquatch"])
           (fun w : list Path => Forall (fun q => ["out"; "_fw"; "prev_cpio"] `prefix_of` q) w)
           50 ["out"; "_fw"; "prev_cpio"] 5 0 (initial Lab.tree)).
  - reflexivity.
  - apply rglob_below.
  - intros t w p w'. apply walk_of_a_listing_stays_below. exact t.
Defined.


Lemma filesystem_outcomes_are_marked_witness :
  has_marker (PathOps.div ["out"; "_fw"] "rootfs_squashfs") = true.
Proof.
  apply (filesystem_outcomes_are_marked (Lab.env ["sasquatch"])
           ["out"; "_fw"; "rootfs"] ["out"; "_fw"]
           (PathOps.div ["out"; "_fw"] "rootfs_squashfs") (initial Lab.tree)).
  - left. vm_compute. reflexivity.
  - vm_compute. reflexivity.
Defined.




Lemma driver_deletes_only_during_cleanup_witness :
  Forall (fun e' => ~ tool_event e')
    (firstn 4 (log (unpack_firmware (Lab.env []) 50 ["fw.img"] ["out"]
                      (initial Lab.tree)).2)).
Proof.
  apply (driver_deletes_only_during_cleanup (Lab.env []) 50 ["fw.img"] ["out"]
           (initial Lab.tree)
           (firstn 4 (log (unpack_firmware (Lab.env []) 50 ["fw.img"] ["out"]
                             (initial Lab.tree)).2))
           (skipn 5 (log (unpack_firmware (Lab.env []) 50 ["fw.img"] ["out"]
                            (initial Lab.tree)).2))
           (Unlink ["out"; "old.bin"])).
  - vm_compute. reflexivity.
  - exact I.
Defined.

Lemma driver_returns_the_list_path_witness :
  ["out"; "executables.txt"] = PathOps.div ["out"] "executables.txt".
Proof.
  apply (driver_returns_the_list_path (Lab.env ["binwalk"]) 50 ["fw.img"] ["out"]
           (initial Lab.tree)).
  vm_compute. reflexivity.
Defined.

Lemma binwalk_directory_is_listed_twice_witness :
  ~ NoDup (Fs.glob_prefix Cases.binwalk_out ["out"] "_"
           ++ Fs.glob_suffix Cases.binwalk_out ["out"] ".extracted").
Proof.
  apply (binwalk_directory_is_listed_twice Cases.binwalk_out ["out"] "_fw.bin.extracted").
  - exists Dir. vm_compute. reflexivity.
  - reflexivity.
  - reflexivity.
Defined.

Lemma extracted_roots_are_not_walked_witness :
  (extract_root (Cases.env ["jefferson"]) 50 tt ["out"; "_fw.bin.extracted"]
     (initial Cases.binwalk_out)).2
  = with_log (initial Cases.binwalk_out)
      [Print ("[INFO] Processing directory: " +:+ PathOps.str ["out"; "_fw.bin.extracted"])].
Proof.
  apply (extracted_roots_are_not_walked (Cases.env ["jefferson"])
           (fun w : list Path =>
              Forall (fun q => ["out"; "_fw.bin.extracted"] `prefix_of` q) w)
           50 ["out"; "_fw.bin.extracted"] (initial Cases.binwalk_out)).
  - reflexivity.
  - apply rglob_below.
  - intros t w p w'. apply walk_of_a_listing_stays_below. exact t.
Defined.

Lemma binwalk_is_the_first_command_witness :
  Tool "binwalk -eM '/fw.img'"
  = Tool ("binwalk -eM '" +:+ PathOps.str ["fw.img"] +:+ "'")
  /\ Some ["out"] = Some ["out"].
Proof.
  apply (binwalk_is_the_first_command (Lab.env ["binwalk"]) 50 ["fw.img"] ["out"]
           (initial Lab.tree)
           (firstn 10 (log (unpack_firmware (Lab.env ["binwalk"]) 50 ["fw.img"] ["out"]
                              (initial Lab.tree)).2))
           (skipn 11 (log (unpack_firmware (Lab.env ["binwalk"]) 50 ["fw.img"] ["out"]
                             (initial Lab.tree)).2))).
  - vm_compute. reflexivity.
  - vm_compute. repeat (constructor; [tauto|]). constructor.
Defined.

Lemma jffs2_dispatch_outcomes_witness :
  (Gen.extract_nested_archives (Worlds.garbled ["jefferson"])
     ["out"; "_fw.bin.extracted"; "flash.img"]
     ["out"; "_fw.bin.extracted"] (initial Cases.binwalk_out)).1
  = Raise (Failure "UnicodeDecodeError"
             "'utf-8' codec can't decode byte 0xff in position 0: invalid start byte")
  /\ fs (Gen.extract_nested_archives (Worlds.garbled ["jefferson"])
           ["out"; "_fw.bin.extracted"; "flash.img"]
           ["out"; "_fw.bin.extracted"] (initial Cases.binwalk_out)).2
     = <[PathOps.div ["out"; "_fw.bin.extracted"] "flash_jffs2" := Dir]> Cases.binwalk_out.
Proof.
  assert (Hsig : (gen_classify (Worlds.garbled ["jefferson"])
                    (fs (initial Cases.binwalk_out))
                    ["out"; "_fw.bin.extracted"; "flash.img"]).1 = inr Jffs2)
    by (vm_compute; reflexivity).
  assert (Hmk : Fs.mkdir_exist_ok Cases.binwalk_out
                  (PathOps.div ["out"; "_fw.bin.extracted"] "flash_jffs2")
                = inr (<[PathOps.div ["out"; "_fw.bin.extracted"] "flash_jffs2" := Dir]>
                         Cases.binwalk_out))
    by (apply (mkdir_exist_ok_new Cases.binwalk_out ["out"; "_fw.bin.extracted"]
                 "flash_jffs2"); vm_compute; reflexivity).
  pose proof (jffs2_dispatch_outcomes (Worlds.garbled ["jefferson"])
                ["out"; "_fw.bin.extracted"; "flash.img"] ["out"; "_fw.bin.extracted"]
                (initial Cases.binwalk_out) _ Hsig Hmk) as H.
  cbv zeta in H. destruct H as [_ H].
  destruct (H eq_refl) as (Hfs & _ & Hr & _). split; [exact Hr | exact Hfs].
Defined.

Lemma cpio_outcome_is_its_directory_witness :
  (Gen.extract_nested_archives (quiet (Lab.env [])) ["out"; "_fw"; "init.cpio"]
     ["out"; "_fw"] (initial Lab.tree)).1 = Ok None.
Proof.
  assert (Hsig : (gen_classify (quiet (Lab.env [])) (fs (initial Lab.tree))
                    ["out"; "_fw"; "init.cpio"]).1 = inr Cpio)
    by (vm_compute; reflexivity).
  assert (Hmk : Fs.mkdir_exist_ok Lab.tree (PathOps.div ["out"; "_fw"] "init_cpio")
                = inr (<[PathOps.div ["out"; "_fw"] "init_cpio" := Dir]> Lab.tree))
    by (apply (mkdir_exist_ok_new Lab.tree ["out"; "_fw"] "init_cpio");
        vm_compute; reflexivity).
  pose proof (cpio_outcome_is_its_directory (quiet (Lab.env [])) ["out"; "_fw"; "init.cpio"]
                ["out"; "_fw"] (initial Lab.tree) _ Hsig Hmk) as H.
  cbv zeta in H. destruct H as [H _]. exact H.
Defined.
